(** * mytxs: the access-control resolution engine

    A shallow embedding of [mytxs/utils/modelUtils.py] and of the
    access-control part of [mytxs/models.py].

    Conventions of the embedding.
    - A table of the database is the list of its rows, a row is a record
      holding the columns the engine reads.  A [QuerySet] of a model is a list
      of rows of that model; it is read as a set ([In]).
    - A lookup that spans a relation ([verv__kor], [vervInnehavelser__verv])
      is the SQL join it stands for: an [existsb] over the rows of the joined
      table whose key matches.  All the conditions of one [filter(...)] call
      constrain the same joined row, as in Django.
    - A [Q] object is the predicate it denotes on the row its path leads to;
      the path argument of the source selects the join at the call site.
    - [datetime.date.today()] is the parameter [today]; a date is its
      proleptic ordinal, a [Z].
    - Primary keys are [positive]: Django's automatic keys start at 1, so a
      key is always truthy.
    - A Python exception is a [Raise] of the [result] type. *)

From Stdlib Require Import ZArith List Bool String Ascii Lia.
From stdpp Require Import base option gmap strings.
Import ListNotations.

Open Scope string_scope.

(** ** Basic types *)

Definition pk := positive.
Definition date := Z.
Bind Scope positive_scope with pk.
Bind Scope Z_scope with date.

Inductive Exception :=
| ValidationError (code : string)
| KeyError
| FieldError
| AttributeError
| RuntimeError
| UnboundLocalError
| IntegrityError.

Inductive result (A : Type) :=
| Ok (a : A)
| Raise (e : Exception).
Arguments Ok {A} a.
Arguments Raise {A} e.

Definition bind {A B} (r : result A) (k : A -> result B) : result B :=
  match r with
  | Ok a => k a
  | Raise e => Raise e
  end.

Declare Scope result_scope.
Delimit Scope result_scope with result.
Notation "x <- c1 ;; c2" := (bind c1 (fun x => c2))
  (at level 100, c1 at next level, right associativity) : result_scope.
Notation "c1 ;;; c2" := (bind c1 (fun _ => c2))
  (at level 100, right associativity) : result_scope.
Open Scope result_scope.

Definition pk__in (p : pk) (l : list pk) : bool := existsb (Pos.eqb p) l.

Definition option_pk_eqb (a b : option pk) : bool :=
  match a, b with
  | Some x, Some y => Pos.eqb x y
  | None, None => true
  | _, _ => false
  end.

(** ** Rows of the models (mytxs/models.py) *)

Record Kor := {
  kor_pk : pk;
  kortTittel : string
}.

Record Medlem := {
  medlem_pk : pk;
  innstillinger : gmap string bool
}.

Record Verv := {
  verv_pk : pk;
  verv_navn : string;
  verv_kor : option pk
}.

Record VervInnehavelse := {
  vi_pk : pk;
  vi_medlem : pk;
  vi_verv : pk;
  start : date;
  slutt : option date
}.

(** The many-to-many field [verv] is declared on [Tilgang]; [tilgang_verv]
    holds the keys of the related [Verv] rows. *)
Record Tilgang := {
  tilgang_pk : pk;
  tilgang_navn : string;
  tilgang_kor : option pk;
  tilgang_verv : list pk;
  sjekkheftetSynlig : bool
}.

Record Dekorasjon := { dekorasjon_pk : pk; dekorasjon_kor : option pk }.
Record DekorasjonInnehavelse := { di_pk : pk; di_dekorasjon : pk }.
Record Turne := { turne_pk : pk; turne_kor : option pk }.
Record Hendelse := { hendelse_pk : pk; hendelse_kor : option pk }.
Record Oppmøte := { oppmøte_pk : pk; oppmøte_hendelse : pk }.
Record Lenke := { lenke_pk : pk; lenke_kor : option pk }.
Record Logg := {
  logg_pk : pk;
  logg_kor : option pk;
  logg_model : string;
  instancePK : pk
}.
Record LoggM2M := { loggM2M_pk : pk }.

Record DB := {
  Logg_objects : list Logg;
  LoggM2M_objects : list LoggM2M;
  Medlem_objects : list Medlem;
  Kor_objects : list Kor;
  Verv_objects : list Verv;
  VervInnehavelse_objects : list VervInnehavelse;
  Tilgang_objects : list Tilgang;
  Dekorasjon_objects : list Dekorasjon;
  DekorasjonInnehavelse_objects : list DekorasjonInnehavelse;
  Turne_objects : list Turne;
  Hendelse_objects : list Hendelse;
  Oppmøte_objects : list Oppmøte;
  Lenke_objects : list Lenke
}.

(** ** mytxs/utils/modelUtils.py: the two leaf predicates *)

(** [vervInnehavelseAktiv(pathToVervInnehavelse, dato=None)]: the predicate of
    the returned [Q] on the [VervInnehavelse] row the path leads to. *)
Definition vervInnehavelseAktiv (today : date) (dato : option date)
    (vi : VervInnehavelse) : bool :=
  let dato := match dato with None => today | Some d => d end in
  Z.leb (start vi) dato &&
  match slutt vi with
  | None => true
  | Some s => Z.geb s dato
  end.

(** The language of [stemmegruppeVervRegex = '^[12][12]?[SATB]$'] under the
    semantics of Python's [re], which [isStemmegruppeVervNavn] uses: [$]
    matches at the end of the string and before a newline that ends it. *)
Definition is12 (c : ascii) : bool :=
  Ascii.eqb c "1" || Ascii.eqb c "2".

Definition isSATB (c : ascii) : bool :=
  Ascii.eqb c "S" || Ascii.eqb c "A" || Ascii.eqb c "T" || Ascii.eqb c "B".

Definition atEnd (s : string) : bool :=
  match s with
  | EmptyString => true
  | String c EmptyString => Ascii.eqb c "010"
  | _ => false
  end.

Definition stemmegruppeVervRegex (s : string) : bool :=
  match s with
  | String a (String b rest) =>
      is12 a &&
      ((isSATB b && atEnd rest) ||
       match rest with
       | String c rest' => is12 b && isSATB c && atEnd rest'
       | EmptyString => false
       end)
  | _ => false
  end.

(** The lookup [navn__regex=stemmegruppeVervRegex], which the database
    evaluates.  [Kor.stemmefordeling] is a [CharField] without [max_length],
    which Django accepts on PostgreSQL only; there the pattern is matched by
    the operator [~], for which [$] matches at the end of the string only. *)
Definition navn__regex (navn : string) : bool :=
  match navn with
  | String a (String b EmptyString) => is12 a && isSATB b
  | String a (String b (String c EmptyString)) =>
      is12 a && is12 b && isSATB c
  | _ => false
  end.

(** [stemmegruppeVerv(pathToVerv, includeUkjentStemmegruppe=True,
    includeDirr=False)]: the predicate of the returned [Q] on the [navn] of
    the [Verv] row the path leads to. *)
Definition stemmegruppeVerv (includeUkjentStemmegruppe includeDirr : bool)
    (navn : string) : bool :=
  let q := navn__regex navn in
  let q := if includeUkjentStemmegruppe
           then q || String.eqb navn "ukjentStemmegruppe" else q in
  let q := if includeDirr then q || String.eqb navn "Dirigent" else q in
  q.

Definition isStemmegruppeVervNavn (navn : string)
    (includeUkjentStemmegruppe : bool) : bool :=
  stemmegruppeVervRegex navn ||
  (includeUkjentStemmegruppe && String.eqb navn "ukjentStemmegruppe").

(** [qBool(value, trueOption=qTrue, falseOption=qFalse)] on predicates. *)
Definition qTrue {A} : A -> bool := fun _ => true.
Definition qFalse {A} : A -> bool := fun _ => false.
Definition qBool {A} (value : bool) (trueOption falseOption : A -> bool)
    : A -> bool :=
  if value then trueOption else falseOption.

(** ** Validation of a [VervInnehavelse] *)

(** An instance in memory, before it is saved: [pk] is [None] until the row
    exists, [verv] is the related object when the foreign key is set. *)
Record VervInnehavelseInstance := {
  self_pk : option pk;
  self_medlem : pk;
  self_verv : option Verv;
  self_start : date;
  self_slutt : option date
}.

(** [validateStartSlutt(instance, canEqual=True)].  A date is always truthy,
    so [if instance.slutt] tests for [None]. *)
Definition validateStartSlutt (start_ : date) (slutt_ : option date)
    (canEqual : bool) : result unit :=
  match slutt_ with
  | Some s =>
      if canEqual then
        if Z.geb start_ s then Raise (ValidationError "invalidDateOrder")
        else Ok tt
      else
        if Z.gtb start_ s then Raise (ValidationError "invalidDateOrder")
        else Ok tt
  | None => Ok tt
  end.

(** [VervInnehavelse.aktiv] *)
Definition aktiv (today : date) (vi : VervInnehavelse) : bool :=
  Z.leb (start vi) today &&
  match slutt vi with
  | None => true
  | Some s => Z.leb today s
  end.

(** [VervInnehavelse.kor] of an instance whose [verv] is set. *)
Definition self_kor (self : VervInnehavelseInstance) : option pk :=
  match self_verv self with
  | Some v => verv_kor v
  | None => None
  end.

Section Validation.
Variable db : DB.

(** [~Q(pk=self.pk)]: with [self.pk] [None] the inner lookup is
    [pk IS NULL], false on every row. *)
Definition not_pk (p : option pk) (vi : VervInnehavelse) : bool :=
  negb (match p with Some p => Pos.eqb (vi_pk vi) p | None => false end).

(** The two date conditions shared by both branches of [clean]:
    [~(Q(slutt__isnull=False) & Q(slutt__lt=self.start))] and
    [~qBool(self.slutt, trueOption=Q(start__gt=self.slutt))]. *)
Definition overlapQ (self : VervInnehavelseInstance)
    (vi : VervInnehavelse) : bool :=
  negb (match slutt vi with
        | Some s => Z.ltb s (self_start self)
        | None => false
        end) &&
  negb (qBool (match self_slutt self with Some _ => true | None => false end)
          (fun vi => match self_slutt self with
                     | Some s => Z.gtb (start vi) s
                     | None => false
                     end)
          qFalse vi).

(** [VervInnehavelse.clean] *)
Definition clean (self : VervInnehavelseInstance) : result unit :=
  validateStartSlutt (self_start self) (self_slutt self) true ;;;
  match self_verv self with
  | Some verv =>
      if isStemmegruppeVervNavn (verv_navn verv) true then
        if existsb (fun vi =>
              not_pk (self_pk self) vi &&
              existsb (fun v =>
                  Pos.eqb (verv_pk v) (vi_verv vi) &&
                  stemmegruppeVerv true false (verv_navn v) &&
                  option_pk_eqb (verv_kor v) (self_kor self))
                (Verv_objects db) &&
              overlapQ self vi &&
              Pos.eqb (vi_medlem vi) (self_medlem self))
            (VervInnehavelse_objects db)
        then Raise (ValidationError "overlappingVervInnehavelse")
        else Ok tt
      else
        if existsb (fun vi =>
              not_pk (self_pk self) vi &&
              overlapQ self vi &&
              Pos.eqb (vi_medlem vi) (self_medlem self) &&
              Pos.eqb (vi_verv vi) (verv_pk verv))
            (VervInnehavelse_objects db)
        then Raise (ValidationError "overlappingVervInnehavelse")
        else Ok tt
  | None => Ok tt
  end.
End Validation.

(** ** Saving a [VervInnehavelse]

    A database operation returns its outcome and the database it leaves
    behind: an exception leaves the database as it was at the raise. *)
Definition DBOp (A : Type) : Type := DB -> result A * DB.

Definition set_VervInnehavelse_objects (db : DB)
    (rows : list VervInnehavelse) : DB :=
  {| Logg_objects := Logg_objects db;
     LoggM2M_objects := LoggM2M_objects db;
     Medlem_objects := Medlem_objects db;
     Kor_objects := Kor_objects db;
     Verv_objects := Verv_objects db;
     VervInnehavelse_objects := rows;
     Tilgang_objects := Tilgang_objects db;
     Dekorasjon_objects := Dekorasjon_objects db;
     DekorasjonInnehavelse_objects := DekorasjonInnehavelse_objects db;
     Turne_objects := Turne_objects db;
     Hendelse_objects := Hendelse_objects db;
     Oppmøte_objects := Oppmøte_objects db;
     Lenke_objects := Lenke_objects db |}.

Definition fresh_pk (rows : list VervInnehavelse) : pk :=
  Pos.succ (fold_right (fun vi m => Pos.max (vi_pk vi) m) 1%positive rows).

(** [super().save()]: the row is updated when its key exists and inserted
    otherwise; a missing [verv] violates the NOT NULL constraint. *)
Definition super_save (self : VervInnehavelseInstance) : DBOp unit :=
  fun db =>
    match self_verv self with
    | None => (Raise IntegrityError, db)
    | Some v =>
        let rows := VervInnehavelse_objects db in
        let p := match self_pk self with
                 | Some p => p
                 | None => fresh_pk rows
                 end in
        let row := {| vi_pk := p; vi_medlem := self_medlem self;
                      vi_verv := verv_pk v; start := self_start self;
                      slutt := self_slutt self |} in
        let rows' :=
          if existsb (fun vi => Pos.eqb (vi_pk vi) p) rows
          then map (fun vi => if Pos.eqb (vi_pk vi) p then row else vi) rows
          else List.app rows [row] in
        (Ok tt, set_VervInnehavelse_objects db rows')
    end.

(** [VervInnehavelse.save] up to and including [super().save()]
    (models.py:804-809): [self.clean()] runs first, and its exception
    leaves [save] before [super().save()].  The statements that follow in
    the source (models.py:811-847) call [saveAllInPeriod] on the hendelser
    of the choir of the verv; each [Hendelse.save] there writes rows of
    [Hendelse] and [Oppmøte] only and may raise after the row of the
    holding is written.  They are not part of this definition: it gives
    the exception of [clean], and the tables [VervInnehavelse], [Verv],
    [Tilgang], [Medlem] and [Kor] that a [save] which returns leaves. *)
Definition save (self : VervInnehavelseInstance) : DBOp unit :=
  fun db =>
    match clean db self with
    | Raise e => (Raise e, db)
    | Ok _ => super_save self db
    end.

(** ** The models as values *)

Inductive Model :=
| mLogg | mLoggM2M | mMedlem | mKor | mVerv | mVervInnehavelse | mTilgang
| mDekorasjon | mDekorasjonInnehavelse | mTurne | mHendelse | mOppmøte
| mLenke.

#[global] Instance Model_eq_dec : EqDecision Model.
Proof. solve_decision. Defined.

(** [model.__name__] *)
Definition model_name (m : Model) : string :=
  match m with
  | mLogg => "Logg"
  | mLoggM2M => "LoggM2M"
  | mMedlem => "Medlem"
  | mKor => "Kor"
  | mVerv => "Verv"
  | mVervInnehavelse => "VervInnehavelse"
  | mTilgang => "Tilgang"
  | mDekorasjon => "Dekorasjon"
  | mDekorasjonInnehavelse => "DekorasjonInnehavelse"
  | mTurne => "Turne"
  | mHendelse => "Hendelse"
  | mOppmøte => "Oppmøte"
  | mLenke => "Lenke"
  end.

Definition instance (m : Model) : Type :=
  match m with
  | mLogg => Logg
  | mLoggM2M => LoggM2M
  | mMedlem => Medlem
  | mKor => Kor
  | mVerv => Verv
  | mVervInnehavelse => VervInnehavelse
  | mTilgang => Tilgang
  | mDekorasjon => Dekorasjon
  | mDekorasjonInnehavelse => DekorasjonInnehavelse
  | mTurne => Turne
  | mHendelse => Hendelse
  | mOppmøte => Oppmøte
  | mLenke => Lenke
  end.

Definition QuerySet (m : Model) : Type := list (instance m).

(** [model.objects.all()] *)
Definition objects (db : DB) (m : Model) : QuerySet m :=
  match m with
  | mLogg => Logg_objects db
  | mLoggM2M => LoggM2M_objects db
  | mMedlem => Medlem_objects db
  | mKor => Kor_objects db
  | mVerv => Verv_objects db
  | mVervInnehavelse => VervInnehavelse_objects db
  | mTilgang => Tilgang_objects db
  | mDekorasjon => Dekorasjon_objects db
  | mDekorasjonInnehavelse => DekorasjonInnehavelse_objects db
  | mTurne => Turne_objects db
  | mHendelse => Hendelse_objects db
  | mOppmøte => Oppmøte_objects db
  | mLenke => Lenke_objects db
  end.

(** [instance.pk] *)
Definition instance_pk (m : Model) : instance m -> pk :=
  match m with
  | mLogg => logg_pk
  | mLoggM2M => loggM2M_pk
  | mMedlem => medlem_pk
  | mKor => kor_pk
  | mVerv => verv_pk
  | mVervInnehavelse => vi_pk
  | mTilgang => tilgang_pk
  | mDekorasjon => dekorasjon_pk
  | mDekorasjonInnehavelse => di_pk
  | mTurne => turne_pk
  | mHendelse => hendelse_pk
  | mOppmøte => oppmøte_pk
  | mLenke => lenke_pk
  end.

Inductive FieldType := ModelChoiceField | ModelMultipleChoiceField.

Definition fieldType_is (fieldType : option FieldType) (f : FieldType)
    : bool :=
  match fieldType, f with
  | Some ModelChoiceField, ModelChoiceField => true
  | Some ModelMultipleChoiceField, ModelMultipleChoiceField => true
  | _, _ => false
  end.

(** The tables of [mytxs/consts.py] the engine reads.  The module is not
    part of the sources at hand: its tables are parameters. *)
Record Consts := {
  modelTilTilgangNavn : gmap string string;
  modelWithRelated : gmap string (list string);
  korAvhengerAv : gmap string string;
  getLoggedModels : list Model;
  bareKorKortTittel : list string;
  bareKorKortTittelTKSRekkefølge : list string
}.

(** ** Scope resolver (mytxs/utils/modelUtils.py) *)

(** [<fk to Kor>__in=kor] for a queryset [kor] of [Kor]: a NULL key is in no
    set. *)
Definition kor__in (k : option pk) (kor : list Kor) : bool :=
  match k with
  | Some k => pk__in k (map kor_pk kor)
  | None => false
  end.

(** [getPathToKor(model)] *)
Definition getPathToKor (model : Model) : option string :=
  match model with
  | mVervInnehavelse => Some "verv__kor"
  | mDekorasjonInnehavelse => Some "dekorasjon__kor"
  | mOppmøte => Some "hendelse__kor"
  | mMedlem => None
  | _ => Some "kor"
  end.

Section Engine.
Variable consts : Consts.
Variable db : DB.
Variable today : date.

(** [model.objects.filter] with the keyword [f'{path}__in'] set to [kor]:
    the lookups the fields
    of each model resolve; any other path is Django's [FieldError]
    ([LoggM2M] has no [kor], [VervInnehavelse.kor] is a property). *)
Definition filter_path__in (model : Model) (path : option string)
    (kor : list Kor) : result (QuerySet model) :=
  let direct {A} (f : A -> option pk) (rows : list A) : result (list A) :=
    match path with
    | Some "kor" => Ok (List.filter (fun x => kor__in (f x) kor) rows)
    | _ => Raise FieldError
    end in
  let via {A B} (name : string) (fk : A -> pk) (key : B -> pk)
      (f : B -> option pk) (parents : list B) (rows : list A)
      : result (list A) :=
    match path with
    | Some p =>
        if String.eqb p name then
          Ok (List.filter (fun x =>
                existsb (fun y => Pos.eqb (key y) (fk x) &&
                                  kor__in (f y) kor) parents) rows)
        else Raise FieldError
    | None => Raise FieldError
    end in
  match model return result (QuerySet model) with
  | mLogg => direct logg_kor (Logg_objects db)
  | mVerv => direct verv_kor (Verv_objects db)
  | mTilgang => direct tilgang_kor (Tilgang_objects db)
  | mDekorasjon => direct dekorasjon_kor (Dekorasjon_objects db)
  | mTurne => direct turne_kor (Turne_objects db)
  | mHendelse => direct hendelse_kor (Hendelse_objects db)
  | mLenke => direct lenke_kor (Lenke_objects db)
  | mVervInnehavelse =>
      via "verv__kor" vi_verv verv_pk verv_kor (Verv_objects db)
        (VervInnehavelse_objects db)
  | mDekorasjonInnehavelse =>
      via "dekorasjon__kor" di_dekorasjon dekorasjon_pk dekorasjon_kor
        (Dekorasjon_objects db) (DekorasjonInnehavelse_objects db)
  | mOppmøte =>
      via "hendelse__kor" oppmøte_hendelse hendelse_pk hendelse_kor
        (Hendelse_objects db) (Oppmøte_objects db)
  | mLoggM2M | mMedlem | mKor => Raise FieldError
  end.

(** [getInstancesForKor(model, kor)] *)
Definition getInstancesForKor (model : Model) (kor : list Kor)
    : result (QuerySet model) :=
  match model return result (QuerySet model) with
  | mMedlem =>
      Ok (List.filter (fun m =>
            existsb (fun vi =>
                Pos.eqb (vi_medlem vi) (medlem_pk m) &&
                existsb (fun v =>
                    Pos.eqb (verv_pk v) (vi_verv vi) &&
                    stemmegruppeVerv true true (verv_navn v) &&
                    kor__in (verv_kor v) kor)
                  (Verv_objects db))
              (VervInnehavelse_objects db))
          (Medlem_objects db))
  | mKor => Ok kor
  | model' => filter_path__in model' (getPathToKor model') kor
  end.

(** ** Access-right resolver ([Medlem]) *)

(** [self.innstillinger.get(key, False)] *)
Definition innstillinger_get (self : Medlem) (key : string) : bool :=
  default false (innstillinger self !! key).

(** [Medlem.faktiskeTilganger] *)
Definition faktiskeTilganger (self : Medlem) : list Tilgang :=
  List.filter (fun t =>
      existsb (fun v =>
          pk__in (verv_pk v) (tilgang_verv t) &&
          existsb (fun vi =>
              Pos.eqb (vi_verv vi) (verv_pk v) &&
              vervInnehavelseAktiv today None vi &&
              Pos.eqb (vi_medlem vi) (medlem_pk self))
            (VervInnehavelse_objects db))
        (Verv_objects db))
    (Tilgang_objects db).

(** [Medlem.tilganger] *)
Definition tilganger (self : Medlem) : list Tilgang :=
  if innstillinger_get self "disableTilganger" then []
  else if negb (innstillinger_get self "tversAvKor") then
    List.filter (fun t => negb (String.eqb (tilgang_navn t) "tversAvKor"))
      (faktiskeTilganger self)
  else faktiskeTilganger self.

(** [qs.filter(navn=navn)] on a queryset of [Tilgang] *)
Definition filter_navn (navn : string) (qs : list Tilgang) : list Tilgang :=
  List.filter (fun t => String.eqb (tilgang_navn t) navn) qs.

(** [qs.filter(navn__in=navn)] *)
Definition filter_navn__in (navn : list string) (qs : list Tilgang)
    : list Tilgang :=
  List.filter (fun t => existsb (String.eqb (tilgang_navn t)) navn) qs.

(** [qs.exists()], also the truth value of a queryset *)
Definition exists_ {A} (qs : list A) : bool :=
  match qs with [] => false | _ => true end.

(** [Kor.objects.filter(tilganger__in=qs)] *)
Definition Kor_filter_tilganger__in (qs : list Tilgang) : list Kor :=
  List.filter (fun k =>
      existsb (fun t =>
          option_pk_eqb (tilgang_kor t) (Some (kor_pk k)) &&
          pk__in (tilgang_pk t) (map tilgang_pk qs))
        (Tilgang_objects db))
    (Kor_objects db).

(** ** [bareAktiveDecorator] *)
Definition bareAktiveDecorator (self : Medlem) {model : Model}
    (func : result (QuerySet model)) : result (QuerySet model) :=
  qs <- func ;;
  Ok (match model return QuerySet model -> QuerySet model with
      | mMedlem => fun qs =>
          if innstillinger_get self "bareAktive" then
            List.filter (fun m =>
                existsb (fun vi =>
                    Pos.eqb (vi_medlem vi) (medlem_pk m) &&
                    vervInnehavelseAktiv today None vi &&
                    existsb (fun v =>
                        Pos.eqb (verv_pk v) (vi_verv vi) &&
                        stemmegruppeVerv true false (verv_navn v))
                      (Verv_objects db))
                  (VervInnehavelse_objects db))
              qs
          else qs
      | _ => fun qs => qs
      end qs).

(** ** Editable-set resolver *)

Definition resModelOf (model : Model) (resModel : option Model) : Model :=
  match resModel with
  | Some r => r
  | None => model
  end.

(** [Tilgang.objects.exclude(pk__in=self.tilganger)] reached from a [Verv]
    through [tilganger__in]: the verv grants a tilgang the member does not
    hold. *)
Definition tilganger__in_unheld (self : Medlem) (v : Verv) : bool :=
  existsb (fun t =>
      pk__in (verv_pk v) (tilgang_verv t) &&
      negb (pk__in (tilgang_pk t) (map tilgang_pk (tilganger self))))
    (Tilgang_objects db).

(** [kor__in=self.tilganger.filter(navn='tilgang').values_list('kor',
    flat=True)] *)
Definition kor__in_tilgang (self : Medlem) (k : option pk) : bool :=
  match k with
  | Some k =>
      existsb (fun t => option_pk_eqb (tilgang_kor t) (Some k))
        (filter_navn "tilgang" (tilganger self))
  | None => false
  end.

(** The condition of the [elif] that opens [redigerTilgangQueryset]: a
    related queryset is asked for, the member holds [tversAvKor], and the
    field is a [ModelMultipleChoiceField], or a [ModelChoiceField] whose
    [resModel] is not the model [model.kor] depends on. *)
Definition tversAvKor_relatert (self : Medlem) (model : Model)
    (resModel : option Model) (fieldType : option FieldType) : bool :=
  match resModel with
  | None => false
  | Some r =>
      exists_ (filter_navn "tversAvKor" (tilganger self)) &&
      negb (bool_decide (model = r)) &&
      ((fieldType_is fieldType ModelChoiceField &&
        negb (String.eqb
                (default "Kor" (korAvhengerAv consts !! model_name model))
                (model_name r))) ||
       fieldType_is fieldType ModelMultipleChoiceField)
  end.

(** [Medlem.redigerTilgangQueryset] before decoration.  The test
    [resModel in [Verv, VervInnehavelse]] is the [match] on [resModel]. *)
Definition redigerTilgangQueryset_func (self : Medlem) (model : Model)
    (resModel : option Model) (fieldType : option FieldType)
    : result (QuerySet (resModelOf model resModel)) :=
  let tversAvKor := tversAvKor_relatert self model resModel fieldType in
  let resModel := resModelOf model resModel in
  if tversAvKor then Ok (objects db resModel)
  else if bool_decide (model = mMedlem) then
    medlemmer <- getInstancesForKor resModel
      (Kor_filter_tilganger__in
         (filter_navn "medlemsdata" (tilganger self))) ;;
    Ok (match resModel return QuerySet resModel -> QuerySet resModel with
        | mMedlem => fun medlemmer =>
            if exists_ (filter_navn "tversAvKor" (tilganger self)) then
              List.app medlemmer
                (List.filter (fun m =>
                    negb (existsb (fun vi =>
                        Pos.eqb (vi_medlem vi) (medlem_pk m) &&
                        existsb (fun v =>
                            Pos.eqb (verv_pk v) (vi_verv vi) &&
                            stemmegruppeVerv true false (verv_navn v))
                          (Verv_objects db))
                      (VervInnehavelse_objects db)))
                  (Medlem_objects db))
            else medlemmer
        | _ => fun medlemmer => medlemmer
        end medlemmer)
  else
    navn <- match modelTilTilgangNavn consts !! model_name model with
            | Some navn => Ok navn
            | None => Raise KeyError
            end ;;
    returnQueryset <- getInstancesForKor resModel
      (Kor_filter_tilganger__in (filter_navn navn (tilganger self))) ;;
    if (bool_decide (model = mVerv) ||
        bool_decide (model = mVervInnehavelse)) then
      Ok (match resModel return QuerySet resModel -> QuerySet resModel with
          | mVerv => fun returnQueryset =>
              List.filter (fun v =>
                  negb (negb (kor__in_tilgang self (verv_kor v)) &&
                        tilganger__in_unheld self v))
                returnQueryset
          | mVervInnehavelse => fun returnQueryset =>
              List.filter (fun vi =>
                  negb (existsb (fun v =>
                      Pos.eqb (verv_pk v) (vi_verv vi) &&
                      negb (kor__in_tilgang self (verv_kor v)) &&
                      tilganger__in_unheld self v)
                    (Verv_objects db)))
                returnQueryset
          | _ => fun returnQueryset => returnQueryset
          end returnQueryset)
    else Ok returnQueryset.

(** [Medlem.redigerTilgangQueryset] *)
Definition redigerTilgangQueryset (self : Medlem) (model : Model)
    (resModel : option Model) (fieldType : option FieldType)
    : result (QuerySet (resModelOf model resModel)) :=
  bareAktiveDecorator self
    (redigerTilgangQueryset_func self model resModel fieldType).

(** ** Viewable-set resolver *)

(** The loop of the [Logg] branch.  [Logg.model] is a NOT NULL column, so
    [Q(model=None)] holds of no row. *)
Fixpoint loggs_loop (self : Medlem) (loggedModels : list Model)
    (loggs : list Logg) : result (list Logg) :=
  match loggedModels with
  | [] => Ok loggs
  | loggedModel :: rest =>
      qs <- redigerTilgangQueryset self loggedModel None None ;;
      loggs_loop self rest
        (List.app loggs
           (List.filter (fun l =>
               (String.eqb (logg_model l) (model_name loggedModel) &&
                pk__in (instancePK l) (map (instance_pk loggedModel) qs))
               || false)
             (Logg_objects db)))
  end.

(** [[consts.modelTilTilgangNavn[m] for m in relatedModel]] *)
Fixpoint relatedTilgang_of (relatedModel : list string)
    : result (list string) :=
  match relatedModel with
  | [] => Ok []
  | m :: rest =>
      navn <- match modelTilTilgangNavn consts !! m with
              | Some navn => Ok navn
              | None => Raise KeyError
              end ;;
      navns <- relatedTilgang_of rest ;;
      Ok (navn :: navns)
  end.

(** [Medlem.sideTilgangQueryset] before decoration.  The keys of a dict are
    distinct, so the loop over [consts.modelWithRelated.items()] tests its
    second and third condition for the entry of [model.__name__] only: the
    loop is a lookup. *)
Definition sideTilgangQueryset_func (self : Medlem) (model : Model)
    : result (QuerySet model) :=
  if exists_ (filter_navn "tversAvKor" (tilganger self)) then
    Ok (objects db model)
  else
    let rest : result (QuerySet model) :=
      match modelWithRelated consts !! model_name model with
      | Some relatedModel =>
          relatedTilgang <- relatedTilgang_of relatedModel ;;
          let relaterteTilganger :=
            filter_navn__in relatedTilgang (tilganger self) in
          if exists_ relatedTilgang && exists_ relaterteTilganger then
            a <- getInstancesForKor model
                   (Kor_filter_tilganger__in relaterteTilganger) ;;
            b <- redigerTilgangQueryset self model None None ;;
            Ok (List.app a b)
          else redigerTilgangQueryset self model None None
      | None => redigerTilgangQueryset self model None None
      end in
    match model return result (QuerySet model) -> result (QuerySet model)
    with
    | mLogg => fun _ => loggs_loop self (getLoggedModels consts) []
    | _ => fun rest => rest
    end rest.

(** [Medlem.sideTilgangQueryset] *)
Definition sideTilgangQueryset (self : Medlem) (model : Model)
    : result (QuerySet model) :=
  bareAktiveDecorator self (sideTilgangQueryset_func self model).
End Engine.

(** ** Navigation visibility builder ([Medlem.navBar]) *)

(** A value of the [sider] dict: a boolean leaf or a nested dict.  A dict is
    the list of its items in insertion order, with distinct keys. *)
#[warnings="-register-all"] Inductive Side :=
| SBool (b : bool)
| SDict (d : list (string * Side)).

Definition dict := list (string * Side).

(** [d[key]] *)
Fixpoint dict_get (d : dict) (key : string) : result Side :=
  match d with
  | [] => Raise KeyError
  | (k, v) :: rest => if String.eqb k key then Ok v else dict_get rest key
  end.

(** [d[key] = value]: an existing key keeps its place. *)
Fixpoint dict_set (d : dict) (key : string) (value : Side) : dict :=
  match d with
  | [] => [(key, value)]
  | (k, v) :: rest =>
      if String.eqb k key then (k, value) :: rest
      else (k, v) :: dict_set rest key value
  end.

(** [toDict(iterable)], that is [dict.fromkeys(iterable, True)] *)
Definition toDict (iterable : list string) : dict :=
  fold_left (fun d k => dict_set d k (SBool true)) iterable [].

(** Python's truth value of a [Side], negated *)
Definition falsy (s : Side) : bool :=
  match s with
  | SBool b => negb b
  | SDict [] => true
  | SDict _ => false
  end.

(** [removeFalsy(sider)], the local function of [navBar].

    The loop iterates over the dict it deletes from.  CPython's dict iterator
    compares the size of the dict with the size it started from before
    anything else, at every step and also at the step that would end the
    loop: after a [del sider[side]] the next step raises [RuntimeError].
    The statements after the loop are therefore reached only when nothing was
    deleted, and then [not sider] holds only of a dict that was empty from
    the start, where the loop variable [side] was never bound.  A call that
    returns leaves the dict as it was. *)
Fixpoint removeFalsy_side (s : Side) : result Side :=
  match s with
  | SBool b => Ok (SBool b)
  | SDict d =>
      d' <- (fix loop (d : dict) : result dict :=
               match d with
               | [] => Ok []
               | (side, v) :: rest =>
                   if falsy v then Raise RuntimeError
                   else
                     v' <- removeFalsy_side v ;;
                     rest' <- loop rest ;;
                     Ok ((side, v') :: rest')
               end) d ;;
      match d' with
      | [] => Raise UnboundLocalError
      | _ => Ok (SDict d')
      end
  end.

Definition removeFalsy (sider : dict) : result dict :=
  s <- removeFalsy_side (SDict sider) ;;
  match s with
  | SDict d => Ok d
  | SBool _ => Ok sider
  end.

(** What [Medlem.storkor] returns: a [Kor], [None] (a verv without kor) or
    the empty string. *)
Inductive StorkorValue :=
| storkor_Kor (k : Kor)
| storkor_None
| storkor_tomStreng.

Section NavBar.
Variable consts : Consts.
Variable db : DB.
Variable today : date.

(** [qs.order_by('start').first()]: a row of least [start], the earliest
    in table order among equals. *)
Fixpoint first_by_start (qs : list VervInnehavelse)
    : option VervInnehavelse :=
  match qs with
  | [] => None
  | vi :: rest =>
      match first_by_start rest with
      | Some vi' => if Z.leb (start vi) (start vi') then Some vi
                    else Some vi'
      | None => Some vi
      end
  end.

(** [Medlem.firstStemmegruppeVervInnehavelse] *)
Definition firstStemmegruppeVervInnehavelse (self : Medlem)
    : option VervInnehavelse :=
  first_by_start
    (List.filter (fun vi =>
        Pos.eqb (vi_medlem vi) (medlem_pk self) &&
        existsb (fun v =>
            Pos.eqb (verv_pk v) (vi_verv vi) &&
            stemmegruppeVerv true false (verv_navn v) &&
            existsb (fun k =>
                option_pk_eqb (verv_kor v) (Some (kor_pk k)) &&
                existsb (String.eqb (kortTittel k)) ["TSS"; "TKS"])
              (Kor_objects db))
          (Verv_objects db))
      (VervInnehavelse_objects db)).

(** [Medlem.storkor].  Following a key to a row that does not exist is
    Django's [DoesNotExist], an [AttributeError] here. *)
Definition storkor (self : Medlem) : result StorkorValue :=
  match firstStemmegruppeVervInnehavelse self with
  | Some vi =>
      match List.find (fun v => Pos.eqb (verv_pk v) (vi_verv vi))
              (Verv_objects db) with
      | Some v =>
          match verv_kor v with
          | Some k =>
              match List.find (fun kor => Pos.eqb (kor_pk kor) k)
                      (Kor_objects db) with
              | Some kor => Ok (storkor_Kor kor)
              | None => Raise AttributeError
              end
          | None => Ok storkor_None
          end
      | None => Raise AttributeError
      end
  | None => Ok storkor_tomStreng
  end.

(** [Medlem.aktiveKor] (the order of the rows is that of the table) *)
Definition aktiveKor (self : Medlem) : list Kor :=
  List.filter (fun k =>
      existsb (fun v =>
          option_pk_eqb (verv_kor v) (Some (kor_pk k)) &&
          stemmegruppeVerv true true (verv_navn v) &&
          existsb (fun vi =>
              Pos.eqb (vi_verv vi) (verv_pk v) &&
              vervInnehavelseAktiv today None vi &&
              Pos.eqb (vi_medlem vi) (medlem_pk self))
            (VervInnehavelse_objects db))
        (Verv_objects db))
    (Kor_objects db).

(** [kor__kortTittel] of a [Tilgang]: NULL when the tilgang has no kor. *)
Definition kor__kortTittel (t : Tilgang) : option string :=
  match tilgang_kor t with
  | Some k =>
      match List.find (fun kor => Pos.eqb (kor_pk kor) k)
              (Kor_objects db) with
      | Some kor => Some (kortTittel kor)
      | None => None
      end
  | None => None
  end.

(** The rows of [Tilgang.objects.filter(~Q(kor__kortTittel='Sangern'),
    sjekkheftetSynlig=True).values('navn', 'kor__kortTittel')] *)
Definition sjekkhefteSider : list (string * option string) :=
  map (fun t => (tilgang_navn t, kor__kortTittel t))
    (List.filter (fun t =>
        negb (match kor__kortTittel t with
              | Some kt => String.eqb kt "Sangern"
              | None => false
              end) &&
        sjekkheftetSynlig t)
      (Tilgang_objects db)).

(** The loop over [sjekkhefteSider], on the dict [sider['sjekkheftet']].
    A key that is [None] or not in the dict is a [KeyError]; item
    assignment on a boolean other than [True] is a [TypeError], an
    [AttributeError] here. *)
Fixpoint sjekkheftet_loop (rows : list (string * option string))
    (sjekkheftet : dict) : result dict :=
  match rows with
  | [] => Ok sjekkheftet
  | (navn, kor__kortTittel) :: rest =>
      key <- match kor__kortTittel with
             | Some key => Ok key
             | None => Raise KeyError
             end ;;
      side <- dict_get sjekkheftet key ;;
      match side with
      | SBool true =>
          sjekkheftet_loop rest
            (dict_set sjekkheftet key (SDict [(navn, SBool true)]))
      | SDict d =>
          sjekkheftet_loop rest
            (dict_set sjekkheftet key
               (SDict (dict_set d navn (SBool true))))
      | SBool false => Raise AttributeError
      end
  end.

(** [if navn in tilgangNavn: sider[side] = value] *)
Definition set_if (tilgangNavn : list string) (navn : string)
    (side : string) (value : Side) (sider : dict) : dict :=
  if existsb (String.eqb navn) tilgangNavn then dict_set sider side value
  else sider.

(** [Medlem.navBar] *)
Definition navBar (self : Medlem) : result dict :=
  sk <- storkor self ;;
  kortTittel_ <- match sk with
                 | storkor_Kor k => Ok (kortTittel k)
                 | storkor_None | storkor_tomStreng => Raise AttributeError
                 end ;;
  let sjekkheftet :=
    if String.eqb kortTittel_ "TKS" then
      toDict (List.app (bareKorKortTittelTKSRekkefølge consts)
                ["søk"; "jubileum"; "sjekkhefTest"])
    else
      toDict (List.app (bareKorKortTittel consts)
                ["søk"; "jubileum"; "sjekkhefTest"]) in
  sjekkheftet <- sjekkheftet_loop sjekkhefteSider sjekkheftet ;;
  let sider := dict_set [] "sjekkheftet" (SDict sjekkheftet) in
  let sider :=
    if exists_ (aktiveKor self) then
      dict_set sider "semesterplan"
        (SDict (toDict (map kortTittel (aktiveKor self))))
    else sider in
  let tilgangNavn := map tilgang_navn (tilganger db today self) in
  let sider := if exists_ tilgangNavn
               then dict_set sider "loggListe" (SBool true) else sider in
  let ja := SBool true in
  let sider := set_if tilgangNavn "tversAvKor" "medlemListe" ja sider in
  let sider := set_if tilgangNavn "tversAvKor" "vervListe" ja sider in
  let sider := set_if tilgangNavn "tversAvKor" "dekorasjonListe" ja sider in
  let sider := set_if tilgangNavn "tversAvKor" "turneListe" ja sider in
  let sider := set_if tilgangNavn "tversAvKor" "tilgangListe" ja sider in
  let sider := set_if tilgangNavn "medlemsdata" "medlemListe" ja sider in
  let sider := set_if tilgangNavn "semesterplan" "hendelseListe" ja sider in
  let sider := set_if tilgangNavn "fravær" "hendelseListe" ja sider in
  let sider :=
    set_if tilgangNavn "fravær" "fraværListe"
      (SDict (toDict (map kortTittel
         (Kor_filter_tilganger__in db
            (filter_navn "fravær" (tilganger db today self))))))
      sider in
  let sider := set_if tilgangNavn "vervInnehavelse" "medlemListe" ja sider in
  let sider := set_if tilgangNavn "vervInnehavelse" "vervListe" ja sider in
  let sider :=
    set_if tilgangNavn "dekorasjonInnehavelse" "medlemListe" ja sider in
  let sider :=
    set_if tilgangNavn "dekorasjonInnehavelse" "dekorasjonListe" ja sider in
  let sider := set_if tilgangNavn "verv" "vervListe" ja sider in
  let sider := set_if tilgangNavn "dekorasjon" "dekorasjonListe" ja sider in
  let sider := set_if tilgangNavn "tilgang" "vervListe" ja sider in
  let sider := set_if tilgangNavn "tilgang" "tilgangListe" ja sider in
  let sider := set_if tilgangNavn "turne" "turneListe" ja sider in
  let sider := set_if tilgangNavn "turne" "medlemListe" ja sider in
  removeFalsy sider.
End NavBar.

(** ** The statements of the specification, for comparison *)

(** Two holdings overlap when some day lies in both closed intervals. *)
Definition intervals_overlap (s1 : date) (e1 : option date)
    (s2 : date) (e2 : option date) : Prop :=
  exists d : date,
    (s1 <= d)%Z /\ (match e1 with Some e => (d <= e)%Z | None => True end) /\
    (s2 <= d)%Z /\ (match e2 with Some e => (d <= e)%Z | None => True end).

(** The closed-interval test of the specification (4.1). *)
Definition closed_interval (start_ : date) (end_ : option date)
    (referenceDate : date) : Prop :=
  (start_ <= referenceDate)%Z /\
  (end_ = None \/ exists e, end_ = Some e /\ (referenceDate <= e)%Z).

(** [instancesInChoirs(Member, choirs)] in the words of the specification
    (4.3): the members holding an active voice-group-or-director role in one
    of [choirs]. *)
Definition instancesInChoirs_Member_spec (db : DB) (today : date)
    (choirs : list Kor) : list Medlem :=
  List.filter (fun m =>
      existsb (fun vi =>
          Pos.eqb (vi_medlem vi) (medlem_pk m) &&
          vervInnehavelseAktiv today None vi &&
          existsb (fun v =>
              Pos.eqb (verv_pk v) (vi_verv vi) &&
              stemmegruppeVerv true true (verv_navn v) &&
              kor__in (verv_kor v) choirs)
            (Verv_objects db))
        (VervInnehavelse_objects db))
    (Medlem_objects db).

(** The members with an active holding of a voice-group verv: what the
    setting [bareAktive] keeps of a queryset of [Medlem]. *)
Definition aktive_korister (db : DB) (today : date) (qs : list Medlem)
    : list Medlem :=
  List.filter (fun m =>
      existsb (fun vi =>
          Pos.eqb (vi_medlem vi) (medlem_pk m) &&
          vervInnehavelseAktiv today None vi &&
          existsb (fun v =>
              Pos.eqb (verv_pk v) (vi_verv vi) &&
              stemmegruppeVerv true false (verv_navn v))
            (Verv_objects db))
        (VervInnehavelse_objects db))
    qs.

(** The member holds the right [navn] in the choir [X]. *)
Definition holds_right (db : DB) (today : date) (self : Medlem)
    (navn : string) (X : pk) : Prop :=
  exists t, In t (tilganger db today self) /\
            tilgang_navn t = navn /\ tilgang_kor t = Some X.

(** The verv grants a tilgang that is not among [self.tilganger]. *)
Definition grants_unheld (db : DB) (today : date) (self : Medlem)
    (v : Verv) : Prop :=
  exists t, In t (Tilgang_objects db) /\
            In (verv_pk v) (tilgang_verv t) /\
            ~ In (tilgang_pk t) (map tilgang_pk (tilganger db today self)).

(** An instance of [Verv] or [VervInnehavelse] is a role of the choir [X],
    or a holding of one, that grants a right the member does not hold. *)
Definition escalates (db : DB) (today : date) (self : Medlem) (X : pk)
    (m : Model) : instance m -> Prop :=
  match m return instance m -> Prop with
  | mVerv => fun v => verv_kor v = Some X /\ grants_unheld db today self v
  | mVervInnehavelse => fun vi =>
      exists v, In v (Verv_objects db) /\ verv_pk v = vi_verv vi /\
                verv_kor v = Some X /\ grants_unheld db today self v
  | _ => fun _ => False
  end.

(** Every row of the queryset [r0] returned is in the queryset [r1]
    returned; it holds also when [r0] is an exception. *)
Definition res_incl {A} (r0 r1 : result (list A)) : Prop :=
  forall q0, r0 = Ok q0 -> exists q1, r1 = Ok q1 /\ incl q0 q1.

(** The queryset a resolver returned contains [x]. *)
Definition contains {A} (r : result (list A)) (x : A) : Prop :=
  exists qs, r = Ok qs /\ In x qs.

(** ** A small database for the concrete instances

    Modelled from the spec: the tables of [mytxs/consts.py], which is not
    among the sources; the names of the rights are those [navBar] tests, the
    related types are those of section 4.6. *)
Definition consts_eksempel : Consts :=
  {| modelTilTilgangNavn :=
       list_to_map
         [("Medlem", "medlemsdata"); ("Verv", "verv");
          ("VervInnehavelse", "vervInnehavelse"); ("Tilgang", "tilgang");
          ("Dekorasjon", "dekorasjon");
          ("DekorasjonInnehavelse", "dekorasjonInnehavelse");
          ("Turne", "turne"); ("Hendelse", "semesterplan");
          ("Oppmøte", "fravær"); ("Lenke", "lenke")];
     modelWithRelated :=
       list_to_map
         [("Medlem", ["VervInnehavelse"; "DekorasjonInnehavelse"; "Turne"]);
          ("Verv", ["VervInnehavelse"; "Tilgang"]);
          ("Dekorasjon", ["DekorasjonInnehavelse"]);
          ("Hendelse", ["Oppmøte"])];
     korAvhengerAv :=
       list_to_map
         [("VervInnehavelse", "Verv");
          ("DekorasjonInnehavelse", "Dekorasjon");
          ("Oppmøte", "Hendelse")];
     getLoggedModels :=
       [mMedlem; mVerv; mVervInnehavelse; mTilgang; mDekorasjon;
        mDekorasjonInnehavelse; mTurne; mHendelse; mOppmøte; mLenke];
     bareKorKortTittel := ["TSS"; "TKS"];
     bareKorKortTittelTKSRekkefølge := ["TKS"; "TSS"] |}.

Definition TSS : Kor := {| kor_pk := 1; kortTittel := "TSS" |}.
Definition TKS : Kor := {| kor_pk := 2; kortTittel := "TKS" |}.

Definition verv_1S : Verv :=
  {| verv_pk := 1; verv_navn := "1S"; verv_kor := Some 1%positive |}.
Definition verv_Formann : Verv :=
  {| verv_pk := 2; verv_navn := "Formann"; verv_kor := Some 1%positive |}.
Definition verv_Korleder : Verv :=
  {| verv_pk := 3; verv_navn := "Korleder"; verv_kor := Some 1%positive |}.
Definition verv_Vervansvarlig : Verv :=
  {| verv_pk := 4; verv_navn := "Vervansvarlig";
     verv_kor := Some 1%positive |}.
Definition verv_2S : Verv :=
  {| verv_pk := 5; verv_navn := "2S"; verv_kor := Some 1%positive |}.

Definition tilgang_fravær : Tilgang :=
  {| tilgang_pk := 1; tilgang_navn := "fravær";
     tilgang_kor := Some 1%positive; tilgang_verv := [1%positive];
     sjekkheftetSynlig := false |}.
Definition tilgang_medlemsdata : Tilgang :=
  {| tilgang_pk := 2; tilgang_navn := "medlemsdata";
     tilgang_kor := Some 1%positive; tilgang_verv := [2%positive];
     sjekkheftetSynlig := false |}.
Definition tilgang_tilgang : Tilgang :=
  {| tilgang_pk := 3; tilgang_navn := "tilgang";
     tilgang_kor := Some 1%positive; tilgang_verv := [2%positive];
     sjekkheftetSynlig := false |}.
Definition tilgang_tversAvKor : Tilgang :=
  {| tilgang_pk := 4; tilgang_navn := "tversAvKor";
     tilgang_kor := Some 1%positive; tilgang_verv := [3%positive];
     sjekkheftetSynlig := false |}.
Definition tilgang_vervInnehavelse : Tilgang :=
  {| tilgang_pk := 5; tilgang_navn := "vervInnehavelse";
     tilgang_kor := Some 1%positive;
     tilgang_verv := [3%positive; 4%positive];
     sjekkheftetSynlig := false |}.

(** [medlem_M] sings 1S in TSS since day 100; [medlem_N] is Korleder, with
    the [tversAvKor] setting on; [medlem_P] sang 1S from day 10 to day 20;
    [medlem_Q] is Vervansvarlig; [medlem_R] has never held a verv. *)
Definition medlem_M : Medlem := {| medlem_pk := 1; innstillinger := ∅ |}.
Definition medlem_N : Medlem :=
  {| medlem_pk := 2; innstillinger := {[ "tversAvKor" := true ]} |}.
Definition medlem_P : Medlem := {| medlem_pk := 3; innstillinger := ∅ |}.
(** [medlem_N] with no setting. *)
Definition medlem_N_uten : Medlem := {| medlem_pk := 2; innstillinger := ∅ |}.
(** [medlem_N] with [disableTilganger] set as well. *)
Definition medlem_N_disable : Medlem :=
  {| medlem_pk := 2;
     innstillinger := {[ "tversAvKor" := true; "disableTilganger" := true ]}
  |}.
(** [medlem_N] with [bareAktive] set as well. *)
Definition medlem_N_bareAktive : Medlem :=
  {| medlem_pk := 2;
     innstillinger := {[ "tversAvKor" := true; "bareAktive" := true ]} |}.
Definition medlem_Q : Medlem := {| medlem_pk := 4; innstillinger := ∅ |}.
Definition medlem_R : Medlem := {| medlem_pk := 5; innstillinger := ∅ |}.

Definition vi_M : VervInnehavelse :=
  {| vi_pk := 1; vi_medlem := 1; vi_verv := 1; start := 100; slutt := None |}.
Definition vi_N : VervInnehavelse :=
  {| vi_pk := 2; vi_medlem := 2; vi_verv := 3; start := 100; slutt := None |}.
Definition vi_P : VervInnehavelse :=
  {| vi_pk := 3; vi_medlem := 3; vi_verv := 1; start := 10;
     slutt := Some 20%Z |}.
Definition vi_Q : VervInnehavelse :=
  {| vi_pk := 4; vi_medlem := 4; vi_verv := 4; start := 100; slutt := None |}.

Definition db_eksempel : DB :=
  {| Logg_objects := [];
     LoggM2M_objects := [];
     Medlem_objects := [medlem_M; medlem_N; medlem_P; medlem_Q; medlem_R];
     Kor_objects := [TSS; TKS];
     Verv_objects :=
       [verv_1S; verv_Formann; verv_Korleder; verv_Vervansvarlig; verv_2S];
     VervInnehavelse_objects := [vi_M; vi_N; vi_P; vi_Q];
     Tilgang_objects :=
       [tilgang_fravær; tilgang_medlemsdata; tilgang_tilgang;
        tilgang_tversAvKor; tilgang_vervInnehavelse];
     Dekorasjon_objects := [];
     DekorasjonInnehavelse_objects := [];
     Turne_objects := [];
     Hendelse_objects := [];
     Oppmøte_objects := [];
     Lenke_objects := [] |}.

Definition i_dag : date := 1000%Z.

(** A new holding of 2S in TSS for [medlem_M], for the single day 1000. *)
Definition endags_2S : VervInnehavelseInstance :=
  {| self_pk := None; self_medlem := 1; self_verv := Some verv_2S;
     self_start := 1000; self_slutt := Some 1000%Z |}.

(** A new open-ended holding of 2S in TSS for [medlem_M] from day 500. *)
Definition ny_2S : VervInnehavelseInstance :=
  {| self_pk := None; self_medlem := 1; self_verv := Some verv_2S;
     self_start := 500; self_slutt := None |}.


(** ** Statements about the stored holdings *)

(** The verv of the holding [vi] is a voice-group verv of the choir [k],
    as the query [VervInnehavelse.objects.filter(stemmegruppeVerv(),
    verv__kor=k)] finds it: the name is matched by the database. *)
Definition stemmegruppe_i_kor (db : DB) (vi : VervInnehavelse)
    (k : option pk) : Prop :=
  exists v, In v (Verv_objects db) /\ verv_pk v = vi_verv vi /\
            stemmegruppeVerv true false (verv_navn v) = true /\
            verv_kor v = k.

(** Two stored holdings that must not overlap: of the same verv, or of
    voice-group verv of one choir. *)
Definition samme_verv_eller_stemmegruppe (db : DB)
    (vi1 vi2 : VervInnehavelse) : Prop :=
  vi_verv vi1 = vi_verv vi2 \/
  exists k, stemmegruppe_i_kor db vi1 k /\ stemmegruppe_i_kor db vi2 k.

(** The invariant of the holdings: no member has two overlapping holdings
    of one verv, or of voice-group verv of one choir. *)
Definition ingen_overlapp (db : DB) : Prop :=
  forall vi1 vi2,
    In vi1 (VervInnehavelse_objects db) ->
    In vi2 (VervInnehavelse_objects db) ->
    vi_pk vi1 <> vi_pk vi2 ->
    vi_medlem vi1 = vi_medlem vi2 ->
    samme_verv_eller_stemmegruppe db vi1 vi2 ->
    ~ intervals_overlap (start vi1) (slutt vi1) (start vi2) (slutt vi2).

(** The stored holding [vi] is one [clean] compares the instance with:
    another row of the same member; when [Verv.stemmegruppeVerv] holds of
    the verv of the instance (Python's [re] on its name), a row of a
    voice-group verv of the same choir (the database's lookup on the name
    of the stored verv); otherwise a row of the same verv. *)
Definition sammenlignes (db : DB) (self : VervInnehavelseInstance)
    (vi : VervInnehavelse) : Prop :=
  exists verv,
    self_verv self = Some verv /\
    self_pk self <> Some (vi_pk vi) /\
    vi_medlem vi = self_medlem self /\
    if isStemmegruppeVervNavn (verv_navn verv) true
    then stemmegruppe_i_kor db vi (self_kor self)
    else vi_verv vi = verv_pk verv.

(** The end of a stored holding is not before its start. *)
Definition datoer_ordnet (vi : VervInnehavelse) : Prop :=
  match slutt vi with
  | Some s => (start vi <= s)%Z
  | None => True
  end.

(** The row [super().save()] writes for the instance under the key [p]. *)
Definition rad_av (self : VervInnehavelseInstance) (verv : Verv) (p : pk)
    : VervInnehavelse :=
  {| vi_pk := p; vi_medlem := self_medlem self; vi_verv := verv_pk verv;
     start := self_start self; slutt := self_slutt self |}.

(** A new open-ended holding of 2S in TSS for [medlem_P] from day 500. *)
Definition ny_2S_P : VervInnehavelseInstance :=
  {| self_pk := None; self_medlem := 3; self_verv := Some verv_2S;
     self_start := 500; self_slutt := None |}.

(** A verv of TSS whose name is 1S followed by a newline:
    [Verv.stemmegruppeVerv] holds of it, the database lookup
    [stemmegruppeVerv] does not match it.  [medlem_R] holds it from day
    100 in [db_linjeskift]; [ny_linjeskift] is a second holding of it for
    [medlem_R], from day 200. *)
Definition verv_1S_linjeskift : Verv :=
  {| verv_pk := 6; verv_navn := String "1" (String "S" (String "010" ""));
     verv_kor := Some 1%positive |}.

Definition vi_R : VervInnehavelse :=
  {| vi_pk := 5; vi_medlem := 5; vi_verv := 6; start := 100; slutt := None |}.

Definition db_linjeskift : DB :=
  {| Logg_objects := Logg_objects db_eksempel;
     LoggM2M_objects := LoggM2M_objects db_eksempel;
     Medlem_objects := Medlem_objects db_eksempel;
     Kor_objects := Kor_objects db_eksempel;
     Verv_objects :=
       List.app (Verv_objects db_eksempel) [verv_1S_linjeskift];
     VervInnehavelse_objects :=
       List.app (VervInnehavelse_objects db_eksempel) [vi_R];
     Tilgang_objects := Tilgang_objects db_eksempel;
     Dekorasjon_objects := Dekorasjon_objects db_eksempel;
     DekorasjonInnehavelse_objects :=
       DekorasjonInnehavelse_objects db_eksempel;
     Turne_objects := Turne_objects db_eksempel;
     Hendelse_objects := Hendelse_objects db_eksempel;
     Oppmøte_objects := Oppmøte_objects db_eksempel;
     Lenke_objects := Lenke_objects db_eksempel |}.

Definition ny_linjeskift : VervInnehavelseInstance :=
  {| self_pk := None; self_medlem := 5;
     self_verv := Some verv_1S_linjeskift;
     self_start := 200; self_slutt := None |}.

(** ** Statements about the navigation tree *)

(** No value of the tree is falsy, at any depth: every leaf is [True] and
    every dict has an item. *)
Fixpoint alle_sanne (s : Side) : bool :=
  match s with
  | SBool b => b
  | SDict d =>
      match d with [] => false | _ => true end &&
      (fix alle (d : dict) : bool :=
         match d with
         | [] => true
         | (_, v) :: rest => alle_sanne v && alle rest
         end) d
  end.

(** The names of the tilganger the member holds: [tilgangNavn] in
    [navBar]. *)
Definition tilgangNavn (db : DB) (today : date) (self : Medlem)
    : list string :=
  map tilgang_navn (tilganger db today self).

(** The keys of a dict, in order. *)
Definition keys (d : dict) : list string := map fst d.

(** The depth of a tree. *)
Fixpoint dybde (s : Side) : nat :=
  match s with
  | SBool _ => 0
  | SDict d =>
      S ((fix dybder (d : dict) : nat :=
            match d with
            | [] => 0
            | (_, v) :: rest => Nat.max (dybde v) (dybder rest)
            end) d)
  end.


(** The member holds a tilgang named [navn]. *)
Definition har (db : DB) (today : date) (self : Medlem) (navn : string)
    : Prop :=
  In navn (tilgangNavn db today self).

(** The pages of the navigation bar, read off the assignments of [navBar]:
    the top-level key [k] is set for the member. *)
Definition navBar_side (db : DB) (today : date) (self : Medlem)
    (k : string) : Prop :=
  k = "sjekkheftet" \/
  (k = "semesterplan" /\ aktiveKor db today self <> []) \/
  (k = "loggListe" /\ tilgangNavn db today self <> []) \/
  (k = "medlemListe" /\
   (har db today self "tversAvKor" \/ har db today self "medlemsdata" \/
    har db today self "vervInnehavelse" \/
    har db today self "dekorasjonInnehavelse" \/
    har db today self "turne")) \/
  (k = "vervListe" /\
   (har db today self "tversAvKor" \/ har db today self "vervInnehavelse" \/
    har db today self "verv" \/ har db today self "tilgang")) \/
  (k = "dekorasjonListe" /\
   (har db today self "tversAvKor" \/
    har db today self "dekorasjonInnehavelse" \/
    har db today self "dekorasjon")) \/
  (k = "turneListe" /\
   (har db today self "tversAvKor" \/ har db today self "turne")) \/
  (k = "tilgangListe" /\
   (har db today self "tversAvKor" \/ har db today self "tilgang")) \/
  (k = "hendelseListe" /\
   (har db today self "semesterplan" \/ har db today self "fravær")) \/
  (k = "fraværListe" /\ har db today self "fravær").

(** ** Deleting a [Verv] or a [Tilgang] *)

Definition set_Verv_objects (db : DB) (rows : list Verv) : DB :=
  {| Logg_objects := Logg_objects db;
     LoggM2M_objects := LoggM2M_objects db;
     Medlem_objects := Medlem_objects db;
     Kor_objects := Kor_objects db;
     Verv_objects := rows;
     VervInnehavelse_objects := VervInnehavelse_objects db;
     Tilgang_objects := Tilgang_objects db;
     Dekorasjon_objects := Dekorasjon_objects db;
     DekorasjonInnehavelse_objects := DekorasjonInnehavelse_objects db;
     Turne_objects := Turne_objects db;
     Hendelse_objects := Hendelse_objects db;
     Oppmøte_objects := Oppmøte_objects db;
     Lenke_objects := Lenke_objects db |}.

Definition set_Tilgang_objects (db : DB) (rows : list Tilgang) : DB :=
  {| Logg_objects := Logg_objects db;
     LoggM2M_objects := LoggM2M_objects db;
     Medlem_objects := Medlem_objects db;
     Kor_objects := Kor_objects db;
     Verv_objects := Verv_objects db;
     VervInnehavelse_objects := VervInnehavelse_objects db;
     Tilgang_objects := rows;
     Dekorasjon_objects := Dekorasjon_objects db;
     DekorasjonInnehavelse_objects := DekorasjonInnehavelse_objects db;
     Turne_objects := Turne_objects db;
     Hendelse_objects := Hendelse_objects db;
     Oppmøte_objects := Oppmøte_objects db;
     Lenke_objects := Lenke_objects db |}.

(** The tilgang [fravær] of no choir, granted by 1S. *)
Definition tilgang_fravær_uten_kor : Tilgang :=
  {| tilgang_pk := 1; tilgang_navn := "fravær"; tilgang_kor := None;
     tilgang_verv := [1%positive]; sjekkheftetSynlig := false |}.

(** [db_eksempel] where [fravær] belongs to no choir. *)
Definition db_fravær_uten_kor : DB :=
  set_Tilgang_objects db_eksempel
    [tilgang_fravær_uten_kor; tilgang_medlemsdata; tilgang_tilgang;
     tilgang_tversAvKor; tilgang_vervInnehavelse].

(** [validateM2MFieldEmpty(instance, *fieldNames)]: [fields] holds, for
    each field name, whether [getattr(instance, fieldName).exists()]. *)
Fixpoint validateM2MFieldEmpty (fields : list bool) : result unit :=
  match fields with
  | [] => Ok tt
  | field :: rest =>
      if field then Raise (ValidationError "nonEmptyM2M")
      else validateM2MFieldEmpty rest
  end.

(** [verv.tilganger]: the tilganger whose many-to-many field holds the
    verv. *)
Definition Verv_tilganger (db : DB) (self : Verv) : list Tilgang :=
  List.filter (fun t => pk__in (verv_pk self) (tilgang_verv t))
    (Tilgang_objects db).

(** [tilgang.verv]: the stored verv the many-to-many field of the tilgang
    holds. *)
Definition Tilgang_verv (db : DB) (self : Tilgang) : list Verv :=
  List.filter (fun v => pk__in (verv_pk v) (tilgang_verv self))
    (Verv_objects db).

(** [Verv.delete].  [super().delete()] raises [ProtectedError], a subclass
    of [IntegrityError], when a [VervInnehavelse] refers to the verv
    ([on_delete=models.PROTECT]), and removes the row otherwise. *)
Definition Verv_delete (self : Verv) : DBOp unit :=
  fun db =>
    match validateM2MFieldEmpty [exists_ (Verv_tilganger db self)] with
    | Raise e => (Raise e, db)
    | Ok _ =>
        if existsb (fun vi => Pos.eqb (vi_verv vi) (verv_pk self))
             (VervInnehavelse_objects db)
        then (Raise IntegrityError, db)
        else
          (Ok tt,
           set_Verv_objects db
             (List.filter (fun v => negb (Pos.eqb (verv_pk v) (verv_pk self)))
                (Verv_objects db)))
    end.

(** [Tilgang.delete].  No foreign key refers to a tilgang. *)
Definition Tilgang_delete (self : Tilgang) : DBOp unit :=
  fun db =>
    match validateM2MFieldEmpty [exists_ (Tilgang_verv db self)] with
    | Raise e => (Raise e, db)
    | Ok _ =>
        (Ok tt,
         set_Tilgang_objects db
           (List.filter
              (fun t => negb (Pos.eqb (tilgang_pk t) (tilgang_pk self)))
              (Tilgang_objects db)))
    end.

(** ** [Hendelse.medlemmer] and [Oppmøte.clean] *)

(** [Hendelse.kategori] *)
Inductive Kategori := OBLIG | PÅMELDING | FRIVILLIG.

(** The columns of a [Hendelse] the two functions read. *)
Record HendelseInstance := {
  kategori : Kategori;
  hendelse_instance_kor : option pk;
  startDate : date;
  varighet : option Z
}.

(** [MedlemQuerySet.filterIkkePermitert(kor, dato=None)] on the queryset
    [self]; [kor] is the key of a [Kor], or [None].  The [exclude] compares
    keys, as [pk__in] does. *)
Definition filterIkkePermitert (db : DB) (today : date) (self : list Medlem)
    (kor : option pk) (dato : option date) : list Medlem :=
  let permiterte :=
    List.filter (fun m =>
        existsb (fun vi =>
            Pos.eqb (vi_medlem vi) (medlem_pk m) &&
            vervInnehavelseAktiv today dato vi &&
            existsb (fun v =>
                Pos.eqb (verv_pk v) (vi_verv vi) &&
                String.eqb (verv_navn v) "Permisjon" &&
                option_pk_eqb (verv_kor v) kor)
              (Verv_objects db))
          (VervInnehavelse_objects db))
      self in
  List.filter (fun m =>
      negb (pk__in (medlem_pk m) (map medlem_pk permiterte)))
    (List.filter (fun m =>
         existsb (fun vi =>
             Pos.eqb (vi_medlem vi) (medlem_pk m) &&
             vervInnehavelseAktiv today dato vi &&
             existsb (fun v =>
                 Pos.eqb (verv_pk v) (vi_verv vi) &&
                 stemmegruppeVerv true false (verv_navn v) &&
                 option_pk_eqb (verv_kor v) kor)
               (Verv_objects db))
           (VervInnehavelse_objects db))
       self).

(** [Hendelse.medlemmer] *)
Definition Hendelse_medlemmer (db : DB) (today : date)
    (self : HendelseInstance) : list Medlem :=
  match kategori self with
  | FRIVILLIG => []
  | _ => filterIkkePermitert db today (Medlem_objects db)
           (hendelse_instance_kor self) (Some (startDate self))
  end.

(** [Hendelse.defaultAnkomst]: [Oppmøte.KOMMER] is [True],
    [Oppmøte.KOMMER_KANSKJE] is [None]. *)
Definition defaultAnkomst (self : HendelseInstance) : option bool :=
  match kategori self with
  | OBLIG => Some true
  | _ => None
  end.

(** An [Oppmøte] in memory with the hendelse it refers to. *)
Record OppmøteInstance := {
  fravær : option Z;
  ankomst : option bool;
  melding : string;
  hendelse : HendelseInstance
}.

Definition option_bool_eqb (a b : option bool) : bool :=
  match a, b with
  | Some x, Some y => Bool.eqb x y
  | None, None => true
  | _, _ => false
  end.

(** [Oppmøte.clean].  [self.fravær] is truthy when it is a number other
    than 0; [varighet or 0] is 0 for [None]. *)
Definition Oppmøte_clean (self : OppmøteInstance) : result unit :=
  let varighet_or_0 :=
    match varighet (hendelse self) with Some d => d | None => 0%Z end in
  (match fravær self, varighet (hendelse self) with
   | Some _, None => Raise (ValidationError "fraværUtenVarighet")
   | _, _ => Ok tt
   end) ;;;
  (match fravær self with
   | Some f =>
       if negb (Z.eqb f 0) && Z.gtb f varighet_or_0
       then Raise (ValidationError "merFraværEnnHendelse")
       else Ok tt
   | None => Ok tt
   end) ;;;
  (if match kategori (hendelse self) with OBLIG => true | _ => false end &&
      negb (option_bool_eqb (defaultAnkomst (hendelse self)) (ankomst self)) &&
      String.eqb (melding self) ""
   then Raise (ValidationError "ankomstUtenMelding")
   else Ok tt).

(** [Oppmøte.minutterBorte] *)
Definition minutterBorte (self : OppmøteInstance) : option Z :=
  match fravær self with
  | None => varighet (hendelse self)
  | Some f => Some f
  end.

(** The oppmøte [Hendelse.save] creates for an expected member:
    [self.oppmøter.create(medlem=medlem, hendelse=self,
    ankomst=self.defaultAnkomst)], the other fields at their defaults. *)
Definition opprettet_oppmøte (h : HendelseInstance) : OppmøteInstance :=
  {| fravær := None; ankomst := defaultAnkomst h; melding := "";
     hendelse := h |}.

(** A rehearsal of TSS on day 1000. *)
Definition øvelse : HendelseInstance :=
  {| kategori := OBLIG; hendelse_instance_kor := Some 1%positive;
     startDate := 1000; varighet := Some 120%Z |}.

(** ** [orderStemmegruppeVerv] and [groupBy] (mytxs/utils/modelUtils.py) *)

(** The [When(navn=..., then=...)] clauses [orderStemmegruppeVerv] builds,
    with the counter the loops leave. *)
Definition orderStemmegruppeVerv_ordering : list (string * nat) * nat :=
  fold_left (fun (acc : list (string * nat) * nat) (letter : ascii) =>
      fold_left (fun (acc : list (string * nat) * nat) (y : ascii) =>
          let ordering :=
            List.app (fst acc) [(String y (String letter ""), snd acc)] in
          let count := S (snd acc) in
          fold_left (fun (acc : list (string * nat) * nat) (x : ascii) =>
              (List.app (fst acc)
                 [(String x (String y (String letter "")), snd acc)],
               S (snd acc)))
            ["1"%char; "2"%char] (ordering, count))
        ["1"%char; "2"%char] acc)
    ["S"%char; "A"%char; "T"%char; "B"%char] ([], 0).

(** SQL's [CASE WHEN navn = ... THEN ... ELSE default]: the first clause
    that matches decides. *)
Definition Case (ordering : list (string * nat)) (default : nat)
    (navn : string) : nat :=
  match List.find (fun w => String.eqb (fst w) navn) ordering with
  | Some w => snd w
  | None => default
  end.

(** [orderStemmegruppeVerv()], as the rank it gives a [navn]. *)
Definition orderStemmegruppeVerv (navn : string) : nat :=
  let ordering := fst orderStemmegruppeVerv_ordering in
  let count := snd orderStemmegruppeVerv_ordering in
  let ordering := List.app ordering [("ukjentStemmegruppe", count)] in
  Case ordering (count + 1) navn.

(** [groups.setdefault(key, []).append(obj)] on an insertion-ordered
    dict. *)
Fixpoint setdefault_append {A} (groups : list (string * list A))
    (key : string) (obj : A) : list (string * list A) :=
  match groups with
  | [] => [(key, [obj])]
  | (k, g) :: rest =>
      if String.eqb k key then (k, List.app g [obj]) :: rest
      else (k, g) :: setdefault_append rest key obj
  end.

(** [groupBy(queryset, prop)]; [prop] gives [str(getattr(obj, prop))]. *)
Definition groupBy {A} (queryset : list A) (prop : A -> string)
    : list (string * list A) :=
  fold_left (fun groups obj => setdefault_append groups (prop obj) obj)
    queryset [].

(** [groups.get(key)] *)
Fixpoint groups_get {A} (groups : list (string * list A)) (key : string)
    : option (list A) :=
  match groups with
  | [] => None
  | (k, g) :: rest => if String.eqb k key then Some g else groups_get rest key
  end.

(** The names [^[12][12]?[SATB]] without the [$]. *)
Definition er_stemmegruppenavn (navn : string) : Prop :=
  (exists y l, is12 y = true /\ isSATB l = true /\
               navn = String y (String l "")) \/
  (exists x y l, is12 x = true /\ is12 y = true /\ isSATB l = true /\
                 navn = String x (String y (String l ""))).

(** The same as a test. *)
Definition er_stemmegruppenavnb (navn : string) : bool :=
  match navn with
  | String y (String l "") => is12 y && isSATB l
  | String x (String y (String l "")) => is12 x && is12 y && isSATB l
  | _ => false
  end.

(** ** [HendelseQuerySet.generateICal] and [saveAllInPeriod]
    (mytxs/models.py) *)

(** The loop of [generateICal] that splits the lines longer than 75
    characters: [iCalLines] is the list it mutates, [l] its index, a line
    is the list of its characters and [space] is the character [' '].
    [fuel] bounds the number of iterations. *)
Fixpoint generateICal_loop {Char : Type} (space : Char) (fuel : nat)
    (iCalLines : list (list Char)) (l : nat) : option (list (list Char)) :=
  match fuel with
  | O => None
  | S fuel =>
      if Nat.ltb l (List.length iCalLines) then
        match iCalLines !! l with
        | Some line =>
            if Nat.ltb 75 (List.length line) then
              let iCalLines :=
                List.app (take (l + 1) iCalLines)
                  ((space :: drop 75 line) :: drop (l + 1) iCalLines) in
              let iCalLines := <[l := take 75 line]> iCalLines in
              generateICal_loop space fuel iCalLines (l + 1)
            else generateICal_loop space fuel iCalLines (l + 1)
        | None => None
        end
      else Some iCalLines
  end.

(** How one line is split: into its first 75 characters and pieces [cs]
    of 1 to 74 characters, each put on a line of its own after a space. *)
Definition delt_linje {Char : Type} (space : Char) (line : list Char)
    (linjer : list (list Char)) : Prop :=
  exists cs : list (list Char),
    linjer = take 75 line :: List.map (cons space) cs /\
    line = List.app (take 75 line) (List.concat cs) /\
    List.Forall (fun c => 1 <= List.length c <= 74) cs.

(** Python's [min] and [max] of a list; [None] is the [ValueError] for an
    empty list. *)
Definition py_min (l : list Z) : option Z :=
  match l with
  | [] => None
  | x :: r => Some (fold_left Z.min r x)
  end.

Definition py_max (l : list Z) : option Z :=
  match l with
  | [] => None
  | x :: r => Some (fold_left Z.max r x)
  end.

(** The list of the [dates] that are not [None]. *)
Definition datesWithoutNone (dates : list (option date)) : list date :=
  omap id dates.

(** [HendelseQuerySet.saveAllInPeriod] on the queryset [self], [dates]
    being the tuple of its arguments: the
    hendelser whose [save] it calls, in order; [None] when [min] raises
    [ValueError]. *)
Definition saveAllInPeriod (self : list HendelseInstance)
    (dates : list (option date)) : option (list HendelseInstance) :=
  if Nat.ltb 0 (List.length dates) then
    if existsb (fun d => match d with None => true | Some _ => false end)
         dates
    then
      match py_min (datesWithoutNone dates) with
      | Some lo => Some (List.filter (fun h => Z.geb (startDate h) lo) self)
      | None => None
      end
    else
      match py_min (datesWithoutNone dates),
            py_max (datesWithoutNone dates) with
      | Some lo, Some hi =>
          Some (List.filter (fun h => Z.geb (startDate h) lo &&
                                      Z.leb (startDate h) hi) self)
      | _, _ => None
      end
  else Some [].

(** Whether the day [d] lies in the period the [dates] span: not before
    the earliest of them, and not after the latest unless one of them is
    [None]. *)
Definition i_perioden (dates : list (option date)) (d : date) : bool :=
  existsb (fun x => match x with Some x => Z.leb x d | None => false end)
    dates &&
  (existsb (fun x => match x with None => true | Some _ => false end) dates
   || existsb (fun x => match x with Some x => Z.leb d x | None => false end)
        dates).

(** ** [Medlem.harRedigerTilgang] (mytxs/models.py) *)

(** The foreign key [kor] of the models that declare one. *)
Definition kor_felt (model : Model) : option (instance model -> option pk) :=
  match model return option (instance model -> option pk) with
  | mLogg => Some logg_kor
  | mVerv => Some verv_kor
  | mTilgang => Some tilgang_kor
  | mDekorasjon => Some dekorasjon_kor
  | mTurne => Some turne_kor
  | mHendelse => Some hendelse_kor
  | mLenke => Some lenke_kor
  | _ => None
  end.

(** Whether the instances of the model have an attribute [kor]: a foreign
    key or a property.  [LoggM2M] and [Kor] have none. *)
Definition har_kor (model : Model) : bool :=
  match model with
  | mLoggM2M | mKor => false
  | _ => true
  end.

(** [Medlem.harRedigerTilgang(instance)], with what it reads of the
    instance: its model, its [pk] ([None] when it is not stored) and its
    [kor].  [QuerySet.contains] compares keys.  For an instance that is
    not stored [instance.kor] is read first, an [AttributeError] for a
    model without it, and [consts.modelTilTilgangNavn] after it. *)
Definition harRedigerTilgang (consts : Consts) (db : DB) (today : date)
    (self : Medlem) (model : Model) (instance_pk_ : option pk)
    (instance_kor : option Kor) : result bool :=
  match instance_pk_ with
  | Some p =>
      qs <- redigerTilgangQueryset consts db today self model None None ;;
      Ok (pk__in p (map (instance_pk model) qs))
  | None =>
      if negb (har_kor model) then Raise AttributeError
      else
        match instance_kor with
        | Some kor =>
            navn <- match modelTilTilgangNavn consts !! model_name model with
                    | Some navn => Ok navn
                    | None => Raise KeyError
                    end ;;
            Ok (pk__in (kor_pk kor)
                  (map kor_pk
                     (Kor_filter_tilganger__in db
                        (filter_navn navn (tilganger db today self)))))
        | None =>
            navn <- match modelTilTilgangNavn consts !! model_name model with
                    | Some navn => Ok navn
                    | None => Raise KeyError
                    end ;;
            Ok (exists_ (filter_navn navn (tilganger db today self)))
        end
  end.

(** [db_eksempel] with a hendelse of TSS, and a tilgang named
    [semesterplan] of TSS granted by the verv 1S. *)
Definition tilgang_semesterplan : Tilgang :=
  {| tilgang_pk := 6; tilgang_navn := "semesterplan";
     tilgang_kor := Some 1%positive; tilgang_verv := [1%positive];
     sjekkheftetSynlig := false |}.

Definition konsert : Hendelse :=
  {| hendelse_pk := 1; hendelse_kor := Some 1%positive |}.

Definition db_med_hendelse : DB :=
  {| Logg_objects := Logg_objects db_eksempel;
     LoggM2M_objects := LoggM2M_objects db_eksempel;
     Medlem_objects := Medlem_objects db_eksempel;
     Kor_objects := Kor_objects db_eksempel;
     Verv_objects := Verv_objects db_eksempel;
     VervInnehavelse_objects := VervInnehavelse_objects db_eksempel;
     Tilgang_objects :=
       List.app (Tilgang_objects db_eksempel) [tilgang_semesterplan];
     Dekorasjon_objects := Dekorasjon_objects db_eksempel;
     DekorasjonInnehavelse_objects :=
       DekorasjonInnehavelse_objects db_eksempel;
     Turne_objects := Turne_objects db_eksempel;
     Hendelse_objects := [konsert];
     Oppmøte_objects := Oppmøte_objects db_eksempel;
     Lenke_objects := Lenke_objects db_eksempel |}.
(** * Properties *)

(** ** Temporal interval predicate *)

Lemma vervInnehavelseAktiv_iff (today : date) (dato : option date)
    (vi : VervInnehavelse) :
  vervInnehavelseAktiv today dato vi = true <->
  closed_interval (start vi) (slutt vi)
    (match dato with None => today | Some d => d end).
Proof.
  unfold vervInnehavelseAktiv, closed_interval.
  rewrite andb_true_iff, Z.leb_le.
  destruct (slutt vi) as [e|].
  - rewrite Z.geb_le. split.
    + intros [H1 H2]. split; [exact H1 | right; exists e; auto].
    + intros [H1 [H2 | [e' [He' H2]]]]; [discriminate | ].
      injection He' as ->. auto.
  - split.
    + intros [H1 _]. split; [exact H1 | left; reflexivity].
    + intros [H1 _]. split; [exact H1 | reflexivity].
Qed.

Lemma aktiv_vervInnehavelseAktiv (today : date) (vi : VervInnehavelse) :
  aktiv today vi = vervInnehavelseAktiv today None vi.
Proof.
  unfold aktiv, vervInnehavelseAktiv.
  destruct (slutt vi) as [e|]; [ | reflexivity].
  f_equal. rewrite Z.geb_leb. reflexivity.
Qed.

(** C6: the query form [vervInnehavelseAktiv], with an explicit reference
    date and with the default one, and the instance property
    [VervInnehavelse.aktiv] are the closed-interval test: true iff
    [start <= referenceDate] and the end is absent or
    [referenceDate <= end]. *)
Theorem C6_isActive_is_closed_interval :
  forall (today referenceDate : date) (vi : VervInnehavelse),
    (vervInnehavelseAktiv today (Some referenceDate) vi = true <->
     closed_interval (start vi) (slutt vi) referenceDate) /\
    (vervInnehavelseAktiv today None vi = true <->
     closed_interval (start vi) (slutt vi) today) /\
    (aktiv today vi = true <->
     closed_interval (start vi) (slutt vi) today).
Proof.
  intros today referenceDate vi. split; [ | split].
  - exact (vervInnehavelseAktiv_iff today (Some referenceDate) vi).
  - exact (vervInnehavelseAktiv_iff today None vi).
  - rewrite aktiv_vervInnehavelseAktiv.
    exact (vervInnehavelseAktiv_iff today None vi).
Qed.

(** ** Date-order validation *)

Lemma validateStartSlutt_canEqual (start_ s : date) :
  validateStartSlutt start_ (Some s) true =
  if Z.geb start_ s then Raise (ValidationError "invalidDateOrder")
  else Ok tt.
Proof. reflexivity. Qed.

Lemma clean_invalidDateOrder (db : DB) (self : VervInnehavelseInstance)
    (s : date) :
  self_slutt self = Some s -> (self_start self >= s)%Z ->
  clean db self = Raise (ValidationError "invalidDateOrder").
Proof.
  intros Hs Hge. unfold clean. rewrite Hs, validateStartSlutt_canEqual.
  destruct (Z.geb_spec (self_start self) s) as [_ | Hlt]; [reflexivity | lia].
Qed.

Lemma save_raises_unchanged (db : DB) (self : VervInnehavelseInstance)
    (e : Exception) :
  clean db self = Raise e -> save self db = (Raise e, db).
Proof. intros H. unfold save. rewrite H. reflexivity. Qed.

(** C10: with [canEqual=True] and an end date, [validateStartSlutt] raises
    [invalidDateOrder] exactly when [start >= slutt]; a holding whose start
    equals its end is active on that day by the interval predicate, is
    rejected by [clean], and [save] leaves the database as it was. *)
Theorem C10_validateStartSlutt_rejects_start_ge_slutt :
  (forall start_ slutt_ : date,
      validateStartSlutt start_ (Some slutt_) true =
        Raise (ValidationError "invalidDateOrder") <-> (start_ >= slutt_)%Z) /\
  (forall start_ slutt_ : date,
      validateStartSlutt start_ (Some slutt_) true = Ok tt <->
      (start_ < slutt_)%Z) /\
  (forall (db : DB) (today d : date) (p : option pk) (medlem : pk)
          (verv : option Verv) (row : pk) (v : pk),
      let self := {| self_pk := p; self_medlem := medlem; self_verv := verv;
                     self_start := d; self_slutt := Some d |} in
      aktiv d {| vi_pk := row; vi_medlem := medlem; vi_verv := v;
                 start := d; slutt := Some d |} = true /\
      clean db self = Raise (ValidationError "invalidDateOrder") /\
      save self db = (Raise (ValidationError "invalidDateOrder"), db)).
Proof.
  split; [ | split].
  - intros s e. rewrite validateStartSlutt_canEqual.
    destruct (Z.geb_spec s e) as [Hge | Hlt]; split; intros Hx;
      try reflexivity; try discriminate; lia.
  - intros s e. rewrite validateStartSlutt_canEqual.
    destruct (Z.geb_spec s e) as [Hge | Hlt]; split; intros Hx;
      try reflexivity; try discriminate; lia.
  - intros db today d p medlem verv row v self.
    assert (Hc : clean db self = Raise (ValidationError "invalidDateOrder")).
    { apply (clean_invalidDateOrder db self d); [reflexivity | simpl; lia]. }
    split; [ | split].
    + unfold aktiv. simpl. rewrite Z.leb_refl. reflexivity.
    + exact Hc.
    + apply save_raises_unchanged. exact Hc.
Qed.

(** ** Access-right resolver *)

(** C2: with the setting [disableTilganger] true, [Medlem.tilganger] is
    empty, whatever the active holdings of the member grant. *)
Theorem C2_disableTilganger_gives_no_tilganger :
  forall (db : DB) (today : date) (self : Medlem),
    innstillinger_get self "disableTilganger" = true ->
    tilganger db today self = [].
Proof.
  intros db today self H. unfold tilganger. rewrite H. reflexivity.
Qed.

Lemma C2_witness :
  innstillinger_get medlem_N_disable "disableTilganger" = true /\
  map tilgang_navn (faktiskeTilganger db_eksempel i_dag medlem_N_disable) =
    ["tversAvKor"; "vervInnehavelse"] /\
  tilganger db_eksempel i_dag medlem_N_disable = [].
Proof.
  split; [vm_compute; reflexivity | split; [vm_compute; reflexivity | ]].
  apply (C2_disableTilganger_gives_no_tilganger db_eksempel i_dag
           medlem_N_disable).
  vm_compute; reflexivity.
Defined.

(** ** Scope resolver *)

(** C4, as stated, fails: [medlem_P], whose only holding of 1S in TSS ended
    on day 20, is returned by [getInstancesForKor] for [Medlem] and TSS on
    day 1000, and is not among the members with an active holding. *)
Lemma C4_counterexample :
  ~ (forall m : Medlem,
        contains (getInstancesForKor db_eksempel mMedlem [TSS]) m <->
        In m (instancesInChoirs_Member_spec db_eksempel i_dag [TSS])).
Proof.
  intros H.
  assert (Hin : contains (getInstancesForKor db_eksempel mMedlem [TSS])
                  medlem_P).
  { eexists. split; [reflexivity | ]. vm_compute. right. left. reflexivity. }
  apply H in Hin. vm_compute in Hin.
  destruct Hin as [Hin | []]. discriminate Hin.
Qed.

(** C4, amended: for [Medlem], [getInstancesForKor] returns exactly the
    members with some holding, active or not, of a voice-group or director
    verv of one of the given choirs; the date plays no part. *)
Theorem C4_getInstancesForKor_Medlem_any_holding :
  forall (db : DB) (kor : list Kor),
  exists qs : list Medlem,
    getInstancesForKor db mMedlem kor = Ok qs /\
    forall m : Medlem,
      In m qs <->
      In m (Medlem_objects db) /\
      exists (vi : VervInnehavelse) (v : Verv),
        In vi (VervInnehavelse_objects db) /\
        vi_medlem vi = medlem_pk m /\
        In v (Verv_objects db) /\
        verv_pk v = vi_verv vi /\
        stemmegruppeVerv true true (verv_navn v) = true /\
        kor__in (verv_kor v) kor = true.
Proof.
  intros db kor. eexists. split; [reflexivity | ].
  intros m. rewrite filter_In. apply and_iff_compat_l.
  rewrite existsb_exists. split.
  - intros [vi [Hvi H]]. apply andb_true_iff in H as [Hm H].
    apply existsb_exists in H as [v [Hv H]].
    apply andb_true_iff in H as [H Hk]. apply andb_true_iff in H as [Hp Hs].
    apply Pos.eqb_eq in Hm, Hp. exists vi, v. auto 10.
  - intros [vi [v [Hvi [Hm [Hv [Hp [Hs Hk]]]]]]].
    exists vi. split; [exact Hvi | ].
    apply andb_true_iff. split; [apply Pos.eqb_eq; exact Hm | ].
    apply existsb_exists. exists v. split; [exact Hv | ].
    rewrite Hs, Hk. rewrite (proj2 (Pos.eqb_eq _ _) Hp). reflexivity.
Qed.

(** ** Overlap validation of a [VervInnehavelse] *)

(** What the database lookup matches, Python's [re] matches; the converse
    fails for a name that ends in a newline. *)
Lemma navn__regex_stemmegruppeVervRegex (navn : string) :
  navn__regex navn = true -> stemmegruppeVervRegex navn = true.
Proof.
  destruct navn as [|a [|b [|c [|d r]]]]; simpl; intros H;
    try discriminate H.
  - apply andb_true_iff in H as [Ha Hb]. rewrite Ha, Hb. reflexivity.
  - apply andb_true_iff in H as [H Hc]. apply andb_true_iff in H as [Ha Hb].
    rewrite Ha, Hb, Hc. simpl. apply orb_true_r.
Qed.

Lemma stemmegruppeVerv_isStemmegruppeVervNavn (navn : string) :
  stemmegruppeVerv true false navn = true ->
  isStemmegruppeVervNavn navn true = true.
Proof.
  unfold stemmegruppeVerv, isStemmegruppeVervNavn. cbv zeta. cbn [andb].
  intros H. apply orb_true_iff in H as [H | H].
  - rewrite (navn__regex_stemmegruppeVervRegex _ H). reflexivity.
  - rewrite H. apply orb_true_r.
Qed.

Lemma overlapQ_of_overlap (self : VervInnehavelseInstance)
    (vi : VervInnehavelse) :
  intervals_overlap (self_start self) (self_slutt self)
    (start vi) (slutt vi) ->
  overlapQ self vi = true.
Proof.
  intros [d [H1 [H2 [H3 H4]]]]. unfold overlapQ, qBool, qFalse.
  apply andb_true_iff. split; apply negb_true_iff.
  - destruct (slutt vi) as [e|]; [ | reflexivity].
    apply Z.ltb_ge. lia.
  - destruct (self_slutt self) as [e|]; [ | reflexivity].
    rewrite Z.gtb_ltb. apply Z.ltb_ge. lia.
Qed.

Lemma not_pk_of_other (p : option pk) (vi : VervInnehavelse) :
  p <> Some (vi_pk vi) -> not_pk p vi = true.
Proof.
  intros H. unfold not_pk. destruct p as [p|]; [ | reflexivity].
  apply negb_true_iff, Pos.eqb_neq. congruence.
Qed.

(** When the dates of the holding pass [validateStartSlutt], [clean] raises
    [overlappingVervInnehavelse] for a voice-group verv as soon as another
    holding of the member in the same choir overlaps whose verv the
    database lookup [stemmegruppeVerv] matches. *)
Lemma clean_overlapping_stemmegruppeVerv (db : DB)
    (self : VervInnehavelseInstance) (verv : Verv)
    (vi : VervInnehavelse) (v : Verv) :
  validateStartSlutt (self_start self) (self_slutt self) true = Ok tt ->
  self_verv self = Some verv ->
  isStemmegruppeVervNavn (verv_navn verv) true = true ->
  In vi (VervInnehavelse_objects db) ->
  self_pk self <> Some (vi_pk vi) ->
  vi_medlem vi = self_medlem self ->
  In v (Verv_objects db) ->
  verv_pk v = vi_verv vi ->
  stemmegruppeVerv true false (verv_navn v) = true ->
  verv_kor v = verv_kor verv ->
  intervals_overlap (self_start self) (self_slutt self)
    (start vi) (slutt vi) ->
  clean db self = Raise (ValidationError "overlappingVervInnehavelse").
Proof.
  intros Hd Hverv Hsg Hvi Hpk Hm Hv Hvp Hvsg Hk Hov.
  unfold clean. rewrite Hd. cbn [bind]. rewrite Hverv, Hsg.
  match goal with |- (if ?b then _ else _) = _ =>
    assert (Hb : b = true); [ | rewrite Hb; reflexivity] end.
  apply existsb_exists. exists vi. split; [exact Hvi | ].
  rewrite (not_pk_of_other _ _ Hpk), (overlapQ_of_overlap _ _ Hov).
  rewrite (proj2 (Pos.eqb_eq _ _) Hm). rewrite !andb_true_r. cbn [andb].
  apply existsb_exists. exists v. split; [exact Hv | ].
  rewrite (proj2 (Pos.eqb_eq _ _) Hvp).
  rewrite Hvsg.
  unfold self_kor. rewrite Hverv, Hk.
  destruct (verv_kor verv) as [k|]; cbn; [apply Pos.eqb_refl | reflexivity].
Qed.

(** The same for two holdings of one verv that is no voice group. *)
Lemma clean_overlapping_same_verv (db : DB)
    (self : VervInnehavelseInstance) (verv : Verv) (vi : VervInnehavelse) :
  validateStartSlutt (self_start self) (self_slutt self) true = Ok tt ->
  self_verv self = Some verv ->
  isStemmegruppeVervNavn (verv_navn verv) true = false ->
  In vi (VervInnehavelse_objects db) ->
  self_pk self <> Some (vi_pk vi) ->
  vi_medlem vi = self_medlem self ->
  vi_verv vi = verv_pk verv ->
  intervals_overlap (self_start self) (self_slutt self)
    (start vi) (slutt vi) ->
  clean db self = Raise (ValidationError "overlappingVervInnehavelse").
Proof.
  intros Hd Hverv Hsg Hvi Hpk Hm Hvp Hov.
  unfold clean. rewrite Hd. cbn [bind]. rewrite Hverv, Hsg.
  match goal with |- (if ?b then _ else _) = _ =>
    assert (Hb : b = true); [ | rewrite Hb; reflexivity] end.
  apply existsb_exists. exists vi. split; [exact Hvi | ].
  rewrite (not_pk_of_other _ _ Hpk), (overlapQ_of_overlap _ _ Hov).
  rewrite (proj2 (Pos.eqb_eq _ _) Hm), (proj2 (Pos.eqb_eq _ _) Hvp).
  reflexivity.
Qed.

Lemma clean_overlapping_stemmegruppeVerv_example :
  clean db_eksempel ny_2S =
    Raise (ValidationError "overlappingVervInnehavelse") /\
  save ny_2S db_eksempel =
    (Raise (ValidationError "overlappingVervInnehavelse"), db_eksempel).
Proof.
  assert (H : clean db_eksempel ny_2S =
              Raise (ValidationError "overlappingVervInnehavelse")).
  { apply (clean_overlapping_stemmegruppeVerv db_eksempel ny_2S verv_2S
             vi_M verv_1S); try reflexivity.
    - simpl. auto.
    - discriminate.
    - simpl. auto.
    - exists 1000%Z. simpl. repeat split; lia. }
  split; [exact H | apply save_raises_unchanged; exact H].
Defined.

(** C5 at the failing input: [medlem_M] holds 1S in TSS from day 100 with no
    end; a second voice-group holding, 2S in TSS for the single day 1000,
    overlaps it, and [clean] raises [invalidDateOrder], not
    [overlappingVervInnehavelse]; [save] leaves the database as it was. *)
Theorem C5_one_day_holding_raises_invalidDateOrder :
  In vi_M (VervInnehavelse_objects db_eksempel) /\
  vi_medlem vi_M = self_medlem endags_2S /\
  In verv_1S (Verv_objects db_eksempel) /\
  verv_pk verv_1S = vi_verv vi_M /\
  isStemmegruppeVervNavn (verv_navn verv_1S) true = true /\
  self_verv endags_2S = Some verv_2S /\
  isStemmegruppeVervNavn (verv_navn verv_2S) true = true /\
  verv_kor verv_1S = verv_kor verv_2S /\
  intervals_overlap (self_start endags_2S) (self_slutt endags_2S)
    (start vi_M) (slutt vi_M) /\
  clean db_eksempel endags_2S = Raise (ValidationError "invalidDateOrder") /\
  save endags_2S db_eksempel =
    (Raise (ValidationError "invalidDateOrder"), db_eksempel).
Proof.
  repeat split; try reflexivity.
  - simpl. auto.
  - simpl. auto.
  - exists 1000%Z. simpl. repeat split; lia.
Qed.

(** ** Inclusion of querysets *)

Lemma res_incl_refl {A} (r : result (list A)) : res_incl r r.
Proof. intros q H. exists q. split; [exact H | apply incl_refl]. Qed.

Lemma res_incl_trans {A} (r0 r1 r2 : result (list A)) :
  res_incl r0 r1 -> res_incl r1 r2 -> res_incl r0 r2.
Proof.
  intros H01 H12 q0 H0.
  destruct (H01 q0 H0) as [q1 [H1 Hi1]].
  destruct (H12 q1 H1) as [q2 [H2 Hi2]].
  exists q2. split; [exact H2 | eapply incl_tran; eassumption].
Qed.

Lemma res_incl_Ok {A} (q0 q1 : list A) :
  incl q0 q1 -> res_incl (Ok q0) (Ok q1).
Proof.
  intros Hi q H. injection H as <-. exists q1. split; [reflexivity | exact Hi].
Qed.

Lemma res_incl_Raise {A} (e : Exception) (r : result (list A)) :
  res_incl (Raise e) r.
Proof. intros q H. discriminate H. Qed.

Lemma existsb_mono {A} (f g : A -> bool) (l : list A) :
  (forall x, In x l -> f x = true -> g x = true) ->
  existsb f l = true -> existsb g l = true.
Proof.
  intros Hfg H. apply existsb_exists in H as [x [Hx Hf]].
  apply existsb_exists. exists x. split; [exact Hx | apply Hfg; assumption].
Qed.

Lemma existsb_incl {A} (f : A -> bool) (l0 l1 : list A) :
  incl l0 l1 -> existsb f l0 = true -> existsb f l1 = true.
Proof.
  intros Hi H. apply existsb_exists in H as [x [Hx Hf]].
  apply existsb_exists. exists x. split; [apply Hi; exact Hx | exact Hf].
Qed.

Lemma filter_mono {A} (f g : A -> bool) (l0 l1 : list A) :
  incl l0 l1 ->
  (forall x, In x l0 -> f x = true -> g x = true) ->
  incl (List.filter f l0) (List.filter g l1).
Proof.
  intros Hi Hfg x Hx. apply filter_In in Hx as [Hx Hf].
  apply filter_In. split; [apply Hi; exact Hx | apply Hfg; assumption].
Qed.

Lemma filter_idem {A} (f : A -> bool) (l : list A) :
  List.filter f (List.filter f l) = List.filter f l.
Proof.
  induction l as [|x l IH]; [reflexivity | ].
  simpl. destruct (f x) eqn:E; simpl; rewrite ?E, IH; reflexivity.
Qed.

Lemma pk__in_In (p : pk) (l : list pk) : pk__in p l = true <-> In p l.
Proof.
  unfold pk__in. rewrite existsb_exists. split.
  - intros [x [Hx E]]. apply Pos.eqb_eq in E. subst. exact Hx.
  - intros H. exists p. split; [exact H | apply Pos.eqb_refl].
Qed.

Lemma pk__in_incl (p : pk) (l0 l1 : list pk) :
  incl l0 l1 -> pk__in p l0 = true -> pk__in p l1 = true.
Proof. intros Hi. rewrite !pk__in_In. apply Hi. Qed.

Lemma kor__in_incl (k : option pk) (K0 K1 : list Kor) :
  incl K0 K1 -> kor__in k K0 = true -> kor__in k K1 = true.
Proof.
  intros Hi. destruct k as [k|]; simpl; [ | congruence].
  apply pk__in_incl, incl_map, Hi.
Qed.

Lemma exists__incl {A} (l0 l1 : list A) :
  incl l0 l1 -> exists_ l0 = true -> exists_ l1 = true.
Proof.
  intros Hi. destruct l0 as [|x l0]; [discriminate | ].
  intros _. destruct l1 as [|y l1]; [ | reflexivity].
  destruct (Hi x (or_introl eq_refl)).
Qed.

Lemma filter_navn_incl (navn : string) (T0 T1 : list Tilgang) :
  incl T0 T1 -> incl (filter_navn navn T0) (filter_navn navn T1).
Proof. intros Hi. apply filter_mono; auto. Qed.

Lemma filter_navn__in_incl (navn : list string) (T0 T1 : list Tilgang) :
  incl T0 T1 -> incl (filter_navn__in navn T0) (filter_navn__in navn T1).
Proof. intros Hi. apply filter_mono; auto. Qed.

Section EngineFacts.
Variable consts : Consts.
Variable db : DB.
Variable today : date.

Lemma Kor_filter_tilganger__in_incl (T0 T1 : list Tilgang) :
  incl T0 T1 ->
  incl (Kor_filter_tilganger__in db T0) (Kor_filter_tilganger__in db T1).
Proof.
  intros Hi. apply filter_mono; [apply incl_refl | ].
  intros k _. apply existsb_mono. intros t _ H.
  apply andb_true_iff in H as [H1 H2]. rewrite H1. simpl.
  revert H2. apply pk__in_incl, incl_map, Hi.
Qed.

Lemma Kor_filter_tilganger__in_objects (T : list Tilgang) :
  incl (Kor_filter_tilganger__in db T) (Kor_objects db).
Proof. apply incl_filter. Qed.

(** Whether [getInstancesForKor] raises depends on the model alone. *)
Lemma getInstancesForKor_Ok_any (model : Model) (K K' : list Kor)
    (q : QuerySet model) :
  getInstancesForKor db model K = Ok q ->
  exists q', getInstancesForKor db model K' = Ok q'.
Proof.
  destruct model; simpl; intros H; try discriminate H; eexists; reflexivity.
Qed.

Lemma getInstancesForKor_mono (model : Model) (K0 K1 : list Kor) :
  incl K0 K1 ->
  res_incl (getInstancesForKor db model K0) (getInstancesForKor db model K1).
Proof.
  intros Hi.
  destruct model; simpl; try apply res_incl_Raise; apply res_incl_Ok;
    try exact Hi;
    (apply filter_mono; [apply incl_refl | ]); intros x _.
  all: try (apply kor__in_incl; exact Hi).
  all: apply existsb_mono; intros y _ H.
  - apply andb_true_iff in H as [H1 H2]. rewrite H1. simpl.
    revert H2. apply existsb_mono. intros v _ H.
    apply andb_true_iff in H as [H2 H3]. rewrite H2. simpl.
    revert H3. apply kor__in_incl, Hi.
  - apply andb_true_iff in H as [H1 H2]. rewrite H1. simpl.
    revert H2. apply kor__in_incl, Hi.
  - apply andb_true_iff in H as [H1 H2]. rewrite H1. simpl.
    revert H2. apply kor__in_incl, Hi.
  - apply andb_true_iff in H as [H1 H2]. rewrite H1. simpl.
    revert H2. apply kor__in_incl, Hi.
Qed.

Lemma getInstancesForKor_objects (model : Model) (K : list Kor)
    (q : QuerySet model) :
  incl K (Kor_objects db) ->
  getInstancesForKor db model K = Ok q -> incl q (objects db model).
Proof.
  intros HK.
  destruct model; simpl; intros H; try discriminate H;
    injection H as <-; try exact HK; apply incl_filter.
Qed.
End EngineFacts.

Lemma res_incl_bind {A B} (r0 r1 : result (list A))
    (k0 k1 : list A -> result (list B)) :
  res_incl r0 r1 ->
  (forall q0 q1, incl q0 q1 -> res_incl (k0 q0) (k1 q1)) ->
  res_incl (bind r0 k0) (bind r1 k1).
Proof.
  intros Hr Hk. destruct r0 as [q0|e]; [ | apply res_incl_Raise].
  destruct (Hr q0 eq_refl) as [q1 [-> Hi]]. simpl. apply Hk, Hi.
Qed.

Section ResolverFacts.
Variable consts : Consts.
Variable db : DB.
Variable today : date.

#[local] Abbreviation tilg := (tilganger db today).

Lemma kor__in_tilgang_mono (self0 self1 : Medlem) (k : option pk) :
  incl (tilg self0) (tilg self1) ->
  kor__in_tilgang db today self0 k = true ->
  kor__in_tilgang db today self1 k = true.
Proof.
  intros Hi. destruct k as [k|]; simpl; [ | congruence].
  apply existsb_incl, filter_navn_incl, Hi.
Qed.

Lemma tilganger__in_unheld_anti (self0 self1 : Medlem) (v : Verv) :
  incl (tilg self0) (tilg self1) ->
  tilganger__in_unheld db today self1 v = true ->
  tilganger__in_unheld db today self0 v = true.
Proof.
  intros Hi. apply existsb_mono. intros t _ H.
  apply andb_true_iff in H as [H1 H2]. rewrite H1. simpl.
  apply negb_true_iff in H2. apply negb_true_iff.
  destruct (pk__in (tilgang_pk t) (map tilgang_pk (tilg self0))) eqn:E;
    [ | reflexivity].
  rewrite (pk__in_incl _ _ _ (incl_map tilgang_pk Hi) E) in H2.
  discriminate H2.
Qed.

Lemma tversAvKor_relatert_mono (self0 self1 : Medlem) (model : Model)
    (resModel : option Model) (fieldType : option FieldType) :
  incl (tilg self0) (tilg self1) ->
  tversAvKor_relatert consts db today self0 model resModel fieldType = true ->
  tversAvKor_relatert consts db today self1 model resModel fieldType = true.
Proof.
  intros Hi. unfold tversAvKor_relatert.
  destruct resModel as [r|]; [ | congruence].
  intros H. apply andb_true_iff in H as [H H3].
  apply andb_true_iff in H as [H1 H2]. rewrite H2, H3.
  rewrite (exists__incl _ _ (filter_navn_incl "tversAvKor" _ _ Hi) H1).
  reflexivity.
Qed.

(** *** The decorator *)

Lemma bareAktiveDecorator_mono (self0 self1 : Medlem) (model : Model)
    (r0 r1 : result (QuerySet model)) :
  innstillinger_get self0 "bareAktive" = innstillinger_get self1 "bareAktive" ->
  res_incl r0 r1 ->
  res_incl (bareAktiveDecorator db today self0 r0)
           (bareAktiveDecorator db today self1 r1).
Proof.
  intros Hb Hr. unfold bareAktiveDecorator.
  apply res_incl_bind; [exact Hr | ]. intros q0 q1 Hi.
  apply res_incl_Ok. destruct model; try exact Hi.
  rewrite Hb. destruct (innstillinger_get self1 "bareAktive");
    [ | exact Hi].
  apply filter_mono; auto.
Qed.

Lemma bareAktiveDecorator_objects (self : Medlem) (model : Model)
    (r : result (QuerySet model)) :
  res_incl r (Ok (objects db model)) ->
  res_incl (bareAktiveDecorator db today self r) (Ok (objects db model)).
Proof.
  intros Hr q H. unfold bareAktiveDecorator in H.
  destruct r as [q'|e]; [ | discriminate H]. simpl in H.
  destruct (Hr q' eq_refl) as [q1 [E Hi]]. injection E as <-.
  injection H as <-. exists (objects db model). split; [reflexivity | ].
  destruct model; try exact Hi.
  destruct (innstillinger_get self "bareAktive"); [ | exact Hi].
  eapply incl_tran; [apply incl_filter | exact Hi].
Qed.

Lemma bareAktiveDecorator_idem (self : Medlem) (model : Model)
    (r : result (QuerySet model)) :
  bareAktiveDecorator db today self (bareAktiveDecorator db today self r) =
  bareAktiveDecorator db today self r.
Proof.
  unfold bareAktiveDecorator. destruct r as [q|e]; [ | reflexivity].
  simpl. f_equal. destruct model; try reflexivity.
  destruct (innstillinger_get self "bareAktive"); [ | reflexivity].
  apply filter_idem.
Qed.

(** *** The editable set lies in its table and grows with the rights *)

Lemma redigerTilgangQueryset_func_objects (self : Medlem) (model : Model)
    (resModel : option Model) (fieldType : option FieldType) :
  res_incl
    (redigerTilgangQueryset_func consts db today self model resModel
       fieldType)
    (Ok (objects db (resModelOf model resModel))).
Proof.
  unfold redigerTilgangQueryset_func. cbv zeta.
  destruct (tversAvKor_relatert consts db today self model resModel
              fieldType); [apply res_incl_refl | ].
  generalize (resModelOf model resModel). intros rm.
  destruct (bool_decide (model = mMedlem)).
  - intros q H.
    destruct (getInstancesForKor db rm _) as [q'|e] eqn:E;
      [ | discriminate H].
    apply getInstancesForKor_objects in E;
      [ | apply Kor_filter_tilganger__in_objects].
    simpl in H. injection H as <-. eexists. split; [reflexivity | ].
    destruct rm; try exact E.
    destruct (exists_ _); [ | exact E].
    apply incl_app; [exact E | apply incl_filter].
  - intros q H.
    destruct (modelTilTilgangNavn consts !! model_name model) as [navn|];
      [ | discriminate H].
    simpl in H.
    destruct (getInstancesForKor db rm _) as [q'|e] eqn:E;
      [ | discriminate H].
    apply getInstancesForKor_objects in E;
      [ | apply Kor_filter_tilganger__in_objects].
    simpl in H. eexists. split; [reflexivity | ].
    destruct (bool_decide (model = mVerv) ||
              bool_decide (model = mVervInnehavelse));
      injection H as <-; [ | exact E].
    destruct rm; try exact E;
      (eapply incl_tran; [apply incl_filter | exact E]).
Qed.

Lemma redigerTilgangQueryset_objects (self : Medlem) (model : Model)
    (resModel : option Model) (fieldType : option FieldType) :
  res_incl
    (redigerTilgangQueryset consts db today self model resModel fieldType)
    (Ok (objects db (resModelOf model resModel))).
Proof.
  apply bareAktiveDecorator_objects, redigerTilgangQueryset_func_objects.
Qed.

Lemma redigerTilgangQueryset_func_mono (self0 self1 : Medlem)
    (model : Model) (resModel : option Model)
    (fieldType : option FieldType) :
  incl (tilg self0) (tilg self1) ->
  res_incl
    (redigerTilgangQueryset_func consts db today self0 model resModel
       fieldType)
    (redigerTilgangQueryset_func consts db today self1 model resModel
       fieldType).
Proof.
  intros Hi.
  pose proof (redigerTilgangQueryset_func_objects self0 model resModel
                fieldType) as Hobj.
  pose proof (tversAvKor_relatert_mono self0 self1 model resModel fieldType
                Hi) as Hsc.
  unfold redigerTilgangQueryset_func in *. cbv zeta in *.
  destruct (tversAvKor_relatert consts db today self1 model resModel
              fieldType); [exact Hobj | ].
  destruct (tversAvKor_relatert consts db today self0 model resModel
              fieldType); [discriminate (Hsc eq_refl) | ].
  clear Hobj Hsc. generalize (resModelOf model resModel). intros rm.
  destruct (bool_decide (model = mMedlem)).
  - apply res_incl_bind.
    + apply getInstancesForKor_mono, Kor_filter_tilganger__in_incl,
        filter_navn_incl, Hi.
    + intros q0 q1 Hq. apply res_incl_Ok. destruct rm; try exact Hq.
      pose proof (exists__incl _ _ (filter_navn_incl "tversAvKor" _ _ Hi))
        as He.
      destruct (exists_ (filter_navn "tversAvKor" (tilg self1))).
      * destruct (exists_ (filter_navn "tversAvKor" (tilg self0))).
        -- apply incl_app_app; [exact Hq | apply incl_refl].
        -- apply incl_appl, Hq.
      * destruct (exists_ (filter_navn "tversAvKor" (tilg self0)));
          [discriminate (He eq_refl) | exact Hq].
  - destruct (modelTilTilgangNavn consts !! model_name model) as [navn|];
      [ | apply res_incl_Raise].
    simpl. apply res_incl_bind.
    + apply getInstancesForKor_mono, Kor_filter_tilganger__in_incl,
        filter_navn_incl, Hi.
    + intros q0 q1 Hq.
      destruct (bool_decide (model = mVerv) ||
                bool_decide (model = mVervInnehavelse));
        apply res_incl_Ok; [ | exact Hq].
      destruct rm; try exact Hq.
      * apply filter_mono; [exact Hq | ]. intros v _ H.
        apply negb_true_iff in H. apply negb_true_iff.
        apply andb_false_iff in H as [H | H]; apply andb_false_iff.
        -- left. apply negb_false_iff in H. apply negb_false_iff.
           revert H. apply kor__in_tilgang_mono, Hi.
        -- right.
           destruct (tilganger__in_unheld db today self1 v) eqn:E;
             [ | reflexivity].
           rewrite (tilganger__in_unheld_anti self0 self1 v Hi E) in H.
           discriminate H.
      * apply filter_mono; [exact Hq | ]. intros vi _ H.
        apply negb_true_iff in H. apply negb_true_iff.
        destruct (existsb _ (Verv_objects db)) eqn:E in |- *;
          [ | reflexivity].
        rewrite <- H. symmetry. revert E. apply existsb_mono.
        intros v _ E. apply andb_true_iff in E as [E E3].
        apply andb_true_iff in E as [E1 E2]. rewrite E1. simpl.
        rewrite (tilganger__in_unheld_anti self0 self1 v Hi E3).
        rewrite andb_true_r. apply negb_true_iff in E2.
        apply negb_true_iff.
        destruct (kor__in_tilgang db today self0 (verv_kor v)) eqn:E0;
          [ | reflexivity].
        rewrite (kor__in_tilgang_mono self0 self1 _ Hi E0) in E2.
        discriminate E2.
Qed.

Lemma redigerTilgangQueryset_mono (self0 self1 : Medlem)
    (model : Model) (resModel : option Model)
    (fieldType : option FieldType) :
  innstillinger_get self0 "bareAktive" = innstillinger_get self1 "bareAktive" ->
  incl (tilg self0) (tilg self1) ->
  res_incl
    (redigerTilgangQueryset consts db today self0 model resModel fieldType)
    (redigerTilgangQueryset consts db today self1 model resModel fieldType).
Proof.
  intros Hb Hi. apply bareAktiveDecorator_mono; [exact Hb | ].
  apply redigerTilgangQueryset_func_mono, Hi.
Qed.
End ResolverFacts.

Section ViewFacts.
Variable consts : Consts.
Variable db : DB.
Variable today : date.

#[local] Abbreviation tilg' := (tilganger db today).

(** *** The viewable set lies in its table and grows with the rights *)

Lemma loggs_loop_objects (self : Medlem) (loggedModels : list Model)
    (loggs : list Logg) :
  incl loggs (Logg_objects db) ->
  res_incl (loggs_loop consts db today self loggedModels loggs)
           (Ok (Logg_objects db)).
Proof.
  revert loggs. induction loggedModels as [|lm rest IH]; intros loggs Hl.
  - apply res_incl_Ok, Hl.
  - simpl. intros q H.
    destruct (redigerTilgangQueryset consts db today self lm None None)
      as [qs|e]; [ | discriminate H].
    simpl in H. revert q H. apply IH.
    apply incl_app; [exact Hl | apply incl_filter].
Qed.

Lemma loggs_loop_mono (self0 self1 : Medlem) (loggedModels : list Model)
    (loggs0 loggs1 : list Logg) :
  innstillinger_get self0 "bareAktive" = innstillinger_get self1 "bareAktive" ->
  incl (tilg' self0) (tilg' self1) ->
  incl loggs0 loggs1 ->
  res_incl (loggs_loop consts db today self0 loggedModels loggs0)
           (loggs_loop consts db today self1 loggedModels loggs1).
Proof.
  intros Hb Hi. revert loggs0 loggs1.
  induction loggedModels as [|lm rest IH]; intros loggs0 loggs1 Hl.
  - apply res_incl_Ok, Hl.
  - simpl.
    pose proof (redigerTilgangQueryset_mono consts db today self0 self1 lm
                  None None Hb Hi) as Hr.
    destruct (redigerTilgangQueryset consts db today self0 lm None None)
      as [q0|e]; [ | apply res_incl_Raise].
    destruct (Hr q0 eq_refl) as [q1 [-> Hq]]. simpl.
    apply IH. apply incl_app_app; [exact Hl | ].
    apply filter_mono; [apply incl_refl | ]. intros l _ H.
    rewrite orb_false_r in *. apply andb_true_iff in H as [H1 H2].
    rewrite H1. simpl. revert H2.
    apply pk__in_incl, incl_map, Hq.
Qed.

Lemma sideTilgangQueryset_func_objects (self : Medlem) (model : Model) :
  res_incl (sideTilgangQueryset_func consts db today self model)
           (Ok (objects db model)).
Proof.
  unfold sideTilgangQueryset_func.
  destruct (exists_ (filter_navn "tversAvKor" (tilg' self)));
    [apply res_incl_refl | ].
  assert (Hrest : res_incl
    match modelWithRelated consts !! model_name model with
    | Some relatedModel =>
        relatedTilgang <- relatedTilgang_of consts relatedModel ;;
        (if exists_ relatedTilgang &&
            exists_ (filter_navn__in relatedTilgang (tilg' self))
         then
           a <- getInstancesForKor db model
                  (Kor_filter_tilganger__in db
                     (filter_navn__in relatedTilgang (tilg' self))) ;;
           b <- redigerTilgangQueryset consts db today self model None None ;;
           Ok (List.app a b)
         else redigerTilgangQueryset consts db today self model None None)
    | None => redigerTilgangQueryset consts db today self model None None
    end (Ok (objects db model))).
  { pose proof (redigerTilgangQueryset_objects consts db today self model
                  None None) as Hred. simpl in Hred.
    destruct (modelWithRelated consts !! model_name model) as [rel|];
      [ | exact Hred].
    destruct (relatedTilgang_of consts rel) as [rt|e];
      [ | apply res_incl_Raise].
    simpl. destruct (exists_ rt && _); [ | exact Hred].
    intros q H.
    destruct (getInstancesForKor db model _) as [a|e] eqn:Ea;
      [ | discriminate H].
    apply getInstancesForKor_objects in Ea;
      [ | apply Kor_filter_tilganger__in_objects].
    simpl in H.
    destruct (redigerTilgangQueryset consts db today self model None None)
      as [b|e]; [ | discriminate H].
    destruct (Hred b eq_refl) as [o [Eo Hb]]. injection Eo as <-.
    simpl in H. injection H as <-. eexists. split; [reflexivity | ].
    apply incl_app; assumption. }
  destruct model; try exact Hrest.
  apply loggs_loop_objects. intros x [].
Qed.

Lemma sideTilgangQueryset_func_mono (self0 self1 : Medlem) (model : Model) :
  innstillinger_get self0 "bareAktive" = innstillinger_get self1 "bareAktive" ->
  incl (tilg' self0) (tilg' self1) ->
  res_incl (sideTilgangQueryset_func consts db today self0 model)
           (sideTilgangQueryset_func consts db today self1 model).
Proof.
  intros Hb Hi.
  pose proof (sideTilgangQueryset_func_objects self0 model) as Hobj.
  pose proof (exists__incl _ _ (filter_navn_incl "tversAvKor" _ _ Hi)) as He.
  unfold sideTilgangQueryset_func in *.
  destruct (exists_ (filter_navn "tversAvKor" (tilg' self1)));
    [exact Hobj | ].
  destruct (exists_ (filter_navn "tversAvKor" (tilg' self0)));
    [discriminate (He eq_refl) | ].
  clear Hobj He.
  pose proof (redigerTilgangQueryset_mono consts db today self0 self1 model
                None None Hb Hi) as Hred. simpl in Hred.
  assert (Hrest : res_incl
    match modelWithRelated consts !! model_name model with
    | Some relatedModel =>
        relatedTilgang <- relatedTilgang_of consts relatedModel ;;
        (if exists_ relatedTilgang &&
            exists_ (filter_navn__in relatedTilgang (tilg' self0))
         then
           a <- getInstancesForKor db model
                  (Kor_filter_tilganger__in db
                     (filter_navn__in relatedTilgang (tilg' self0))) ;;
           b <- redigerTilgangQueryset consts db today self0 model None None ;;
           Ok (List.app a b)
         else redigerTilgangQueryset consts db today self0 model None None)
    | None => redigerTilgangQueryset consts db today self0 model None None
    end
    match modelWithRelated consts !! model_name model with
    | Some relatedModel =>
        relatedTilgang <- relatedTilgang_of consts relatedModel ;;
        (if exists_ relatedTilgang &&
            exists_ (filter_navn__in relatedTilgang (tilg' self1))
         then
           a <- getInstancesForKor db model
                  (Kor_filter_tilganger__in db
                     (filter_navn__in relatedTilgang (tilg' self1))) ;;
           b <- redigerTilgangQueryset consts db today self1 model None None ;;
           Ok (List.app a b)
         else redigerTilgangQueryset consts db today self1 model None None)
    | None => redigerTilgangQueryset consts db today self1 model None None
    end).
  { destruct (modelWithRelated consts !! model_name model) as [rel|];
      [ | exact Hred].
    destruct (relatedTilgang_of consts rel) as [rt|e];
      [ | apply res_incl_Raise].
    simpl.
    pose proof (exists__incl _ _ (filter_navn__in_incl rt _ _ Hi)) as Hrt.
    pose proof (getInstancesForKor_mono db model _ _
                  (Kor_filter_tilganger__in_incl db _ _
                     (filter_navn__in_incl rt _ _ Hi))) as Hg.
    destruct (exists_ rt); simpl; [ | exact Hred].
    destruct (exists_ (filter_navn__in rt (tilg' self1))).
    - destruct (exists_ (filter_navn__in rt (tilg' self0))).
      + apply res_incl_bind; [exact Hg | ]. intros a0 a1 Ha.
        apply res_incl_bind; [exact Hred | ]. intros b0 b1 Hb'.
        apply res_incl_Ok, incl_app_app; assumption.
      + intros q0 H0. destruct (Hred q0 H0) as [q1 [H1 Hq]].
        assert (Hany : exists a, getInstancesForKor db model
                  (Kor_filter_tilganger__in db
                     (filter_navn__in rt (tilg' self1))) = Ok a).
        { clear - H0. unfold redigerTilgangQueryset, bareAktiveDecorator,
            redigerTilgangQueryset_func in H0. simpl in H0.
          destruct (bool_decide (model = mMedlem)) eqn:Em.
          - apply bool_decide_eq_true in Em. subst model. simpl.
            eexists. reflexivity.
          - destruct (modelTilTilgangNavn consts !! model_name model);
              [ | discriminate H0].
            simpl in H0.
            destruct (getInstancesForKor db model _) as [a|e] eqn:Ea
              in H0; [ | discriminate H0].
            eapply getInstancesForKor_Ok_any. exact Ea. }
        destruct Hany as [a Ha]. rewrite Ha, H1. simpl.
        eexists. split; [reflexivity | ]. apply incl_appr, Hq.
    - destruct (exists_ (filter_navn__in rt (tilg' self0)));
        [discriminate (Hrt eq_refl) | exact Hred]. }
  destruct model; try exact Hrest.
  apply loggs_loop_mono; auto. apply incl_refl.
Qed.

Lemma sideTilgangQueryset_mono (self0 self1 : Medlem) (model : Model) :
  innstillinger_get self0 "bareAktive" = innstillinger_get self1 "bareAktive" ->
  incl (tilg' self0) (tilg' self1) ->
  res_incl (sideTilgangQueryset consts db today self0 model)
           (sideTilgangQueryset consts db today self1 model).
Proof.
  intros Hb Hi. apply bareAktiveDecorator_mono; [exact Hb | ].
  apply sideTilgangQueryset_func_mono; assumption.
Qed.
End ViewFacts.

(** ** Monotonicity in the [tversAvKor] setting *)

Lemma faktiskeTilganger_pk (db : DB) (today : date) (self0 self1 : Medlem) :
  medlem_pk self0 = medlem_pk self1 ->
  faktiskeTilganger db today self0 = faktiskeTilganger db today self1.
Proof. intros H. unfold faktiskeTilganger. rewrite H. reflexivity. Qed.

Lemma tilganger_tversAvKor_incl (db : DB) (today : date)
    (self0 self1 : Medlem) :
  medlem_pk self0 = medlem_pk self1 ->
  innstillinger_get self0 "disableTilganger" =
    innstillinger_get self1 "disableTilganger" ->
  innstillinger_get self1 "tversAvKor" = true ->
  incl (tilganger db today self0) (tilganger db today self1).
Proof.
  intros Hpk Hd H1. unfold tilganger.
  rewrite Hd, H1, (faktiskeTilganger_pk db today self0 self1 Hpk).
  destruct (innstillinger_get self1 "disableTilganger");
    [apply incl_refl | ].
  simpl. destruct (negb (innstillinger_get self0 "tversAvKor"));
    [apply incl_filter | apply incl_refl].
Qed.

(** C7: all else equal, every editable set and every viewable set computed
    with the setting [tversAvKor] off is included in the one computed with
    the setting on, and the computation with the setting on returns
    whenever the one with the setting off does. *)
Theorem C7_tversAvKor_setting_monotone :
  forall (consts : Consts) (db : DB) (today : date) (self0 self1 : Medlem),
    medlem_pk self0 = medlem_pk self1 ->
    innstillinger_get self0 "disableTilganger" =
      innstillinger_get self1 "disableTilganger" ->
    innstillinger_get self0 "bareAktive" =
      innstillinger_get self1 "bareAktive" ->
    innstillinger_get self0 "tversAvKor" = false ->
    innstillinger_get self1 "tversAvKor" = true ->
    (forall (model : Model) (resModel : option Model)
            (fieldType : option FieldType),
        res_incl
          (redigerTilgangQueryset consts db today self0 model resModel
             fieldType)
          (redigerTilgangQueryset consts db today self1 model resModel
             fieldType)) /\
    (forall model : Model,
        res_incl (sideTilgangQueryset consts db today self0 model)
                 (sideTilgangQueryset consts db today self1 model)).
Proof.
  intros consts db today self0 self1 Hpk Hd Hb _ H1.
  pose proof (tilganger_tversAvKor_incl db today self0 self1 Hpk Hd H1)
    as Hi.
  split.
  - intros model resModel fieldType.
    apply redigerTilgangQueryset_mono; assumption.
  - intros model. apply sideTilgangQueryset_mono; assumption.
Qed.

Lemma C7_witness :
  (forall (model : Model) (resModel : option Model)
          (fieldType : option FieldType),
      res_incl
        (redigerTilgangQueryset consts_eksempel db_eksempel i_dag
           medlem_N_uten model resModel fieldType)
        (redigerTilgangQueryset consts_eksempel db_eksempel i_dag
           medlem_N model resModel fieldType)) /\
  (forall model : Model,
      res_incl
        (sideTilgangQueryset consts_eksempel db_eksempel i_dag
           medlem_N_uten model)
        (sideTilgangQueryset consts_eksempel db_eksempel i_dag
           medlem_N model)).
Proof.
  apply (C7_tversAvKor_setting_monotone consts_eksempel db_eksempel i_dag
           medlem_N_uten medlem_N); vm_compute; reflexivity.
Defined.

(** ** The viewable set contains the editable set *)

Lemma relatedTilgang_of_Ok (consts : Consts) (relatedModel : list string) :
  (forall m, In m relatedModel ->
             is_Some (modelTilTilgangNavn consts !! m)) ->
  exists relatedTilgang,
    relatedTilgang_of consts relatedModel = Ok relatedTilgang.
Proof.
  induction relatedModel as [|m rest IH]; intros H.
  - eexists. reflexivity.
  - simpl. destruct (H m (or_introl eq_refl)) as [navn ->].
    destruct IH as [rt ->]; [intros m' Hm'; apply H; right; exact Hm' | ].
    eexists. reflexivity.
Qed.

Lemma redigerTilgangQueryset_Ok_getInstancesForKor (consts : Consts)
    (db : DB) (today : date) (self : Medlem) (model : Model)
    (q : QuerySet model) (K : list Kor) :
  redigerTilgangQueryset consts db today self model None None = Ok q ->
  exists a, getInstancesForKor db model K = Ok a.
Proof.
  intros H0.
  unfold redigerTilgangQueryset, bareAktiveDecorator,
    redigerTilgangQueryset_func in H0. simpl in H0.
  destruct (bool_decide (model = mMedlem)) eqn:Em.
  - apply bool_decide_eq_true in Em. subst model. simpl.
    eexists. reflexivity.
  - destruct (modelTilTilgangNavn consts !! model_name model);
      [ | discriminate H0].
    simpl in H0.
    destruct (getInstancesForKor db model _) as [a|e] eqn:Ea in H0;
      [ | discriminate H0].
    eapply getInstancesForKor_Ok_any. exact Ea.
Qed.

(** C8: when the tables of [consts] give [Logg] no right of its own and
    name a right for every related model, the set [sideTilgangQueryset]
    returns for a model contains the set [redigerTilgangQueryset] returns
    for it, and it returns whenever [redigerTilgangQueryset] does. *)
Theorem C8_sideTilgang_contains_redigerTilgang :
  forall (consts : Consts) (db : DB) (today : date) (self : Medlem)
         (model : Model),
    modelTilTilgangNavn consts !! "Logg" = None ->
    (forall (sourceModel : string) (relatedModel : list string) (m : string),
        modelWithRelated consts !! sourceModel = Some relatedModel ->
        In m relatedModel -> is_Some (modelTilTilgangNavn consts !! m)) ->
    res_incl (redigerTilgangQueryset consts db today self model None None)
             (sideTilgangQueryset consts db today self model).
Proof.
  intros consts db today self model HLogg Hrel.
  unfold sideTilgangQueryset.
  assert (Hidem :
    redigerTilgangQueryset consts db today self model None None =
    bareAktiveDecorator db today self
      (redigerTilgangQueryset consts db today self model None None)).
  { unfold redigerTilgangQueryset. simpl.
    symmetry. apply bareAktiveDecorator_idem. }
  rewrite Hidem. apply bareAktiveDecorator_mono; [reflexivity | ].
  clear Hidem. unfold sideTilgangQueryset_func.
  destruct (exists_ (filter_navn "tversAvKor" (tilganger db today self))).
  { apply (redigerTilgangQueryset_objects consts db today self model
             None None). }
  assert (Hrest : res_incl
    (redigerTilgangQueryset consts db today self model None None)
    match modelWithRelated consts !! model_name model with
    | Some relatedModel =>
        relatedTilgang <- relatedTilgang_of consts relatedModel ;;
        (if exists_ relatedTilgang &&
            exists_ (filter_navn__in relatedTilgang
                       (tilganger db today self))
         then
           a <- getInstancesForKor db model
                  (Kor_filter_tilganger__in db
                     (filter_navn__in relatedTilgang
                        (tilganger db today self))) ;;
           b <- redigerTilgangQueryset consts db today self model None None ;;
           Ok (List.app a b)
         else redigerTilgangQueryset consts db today self model None None)
    | None => redigerTilgangQueryset consts db today self model None None
    end).
  { destruct (modelWithRelated consts !! model_name model) as [rel|] eqn:Er;
      [ | apply res_incl_refl].
    destruct (relatedTilgang_of_Ok consts rel) as [rt ->].
    { intros m Hm. eapply Hrel; eassumption. }
    simpl. destruct (exists_ rt && _); [ | apply res_incl_refl].
    intros q Hq.
    destruct (redigerTilgangQueryset_Ok_getInstancesForKor consts db today
                self model q
                (Kor_filter_tilganger__in db
                   (filter_navn__in rt (tilganger db today self))) Hq)
      as [a Ha].
    simpl in Hq. rewrite Ha, Hq. simpl. eexists. split; [reflexivity | ].
    apply incl_appr, incl_refl. }
  destruct model; try exact Hrest.
  unfold redigerTilgangQueryset, redigerTilgangQueryset_func. simpl.
  rewrite HLogg. apply res_incl_Raise.
Qed.

Lemma C8_witness :
  res_incl
    (redigerTilgangQueryset consts_eksempel db_eksempel i_dag medlem_Q
       mVerv None None)
    (sideTilgangQueryset consts_eksempel db_eksempel i_dag medlem_Q mVerv).
Proof.
  apply (C8_sideTilgang_contains_redigerTilgang consts_eksempel db_eksempel
           i_dag medlem_Q mVerv).
  - vm_compute. reflexivity.
  - intros sourceModel relatedModel m Hs Hm.
    cbv beta iota delta [consts_eksempel modelWithRelated] in Hs.
    apply elem_of_list_to_map_2, list_elem_of_In in Hs.
    assert (Hok : forallb (fun m => bool_decide
                     (is_Some (modelTilTilgangNavn consts_eksempel !! m)))
                    relatedModel = true).
    { simpl in Hs.
      repeat (destruct Hs as [Hs | Hs];
              [injection Hs as <- <-; vm_compute; reflexivity | ]).
      destruct Hs. }
    rewrite forallb_forall in Hok.
    apply (bool_decide_eq_true_1 _ (Hok m Hm)).
Defined.

(** ** The cross-choir right and the viewable set *)

Lemma exists__In {A} (x : A) (l : list A) : In x l -> exists_ l = true.
Proof. destruct l; [intros [] | reflexivity]. Qed.

Lemma sideTilgangQueryset_tversAvKor (consts : Consts) (db : DB)
    (today : date) (self : Medlem) (model : Model) (t : Tilgang) :
  In t (faktiskeTilganger db today self) ->
  tilgang_navn t = "tversAvKor" ->
  innstillinger_get self "tversAvKor" = true ->
  innstillinger_get self "disableTilganger" = false ->
  sideTilgangQueryset consts db today self model =
  bareAktiveDecorator db today self (Ok (objects db model)).
Proof.
  intros Ht Hn Htv Hd. unfold sideTilgangQueryset, sideTilgangQueryset_func.
  assert (He : exists_ (filter_navn "tversAvKor" (tilganger db today self))
               = true).
  { apply (exists__In t). unfold filter_navn. apply filter_In. split.
    - unfold tilganger. rewrite Hd, Htv. exact Ht.
    - rewrite Hn. reflexivity. }
  rewrite He. reflexivity.
Qed.

(** C3, as stated, fails twice: [medlem_N_disable] and
    [medlem_N_bareAktive] hold [tversAvKor] through an active holding and
    have the setting on; with [disableTilganger] the viewable set of [Verv]
    is empty, with [bareAktive] the viewable set of [Medlem] is [medlem_M]
    alone. *)
Lemma C3_counterexample :
  (In tilgang_tversAvKor
      (faktiskeTilganger db_eksempel i_dag medlem_N_disable) /\
   innstillinger_get medlem_N_disable "tversAvKor" = true /\
   sideTilgangQueryset consts_eksempel db_eksempel i_dag medlem_N_disable
     mVerv = Ok [] /\
   objects db_eksempel mVerv <> []) /\
  (In tilgang_tversAvKor
      (faktiskeTilganger db_eksempel i_dag medlem_N_bareAktive) /\
   innstillinger_get medlem_N_bareAktive "tversAvKor" = true /\
   sideTilgangQueryset consts_eksempel db_eksempel i_dag
     medlem_N_bareAktive mMedlem = Ok [medlem_M] /\
   objects db_eksempel mMedlem <> [medlem_M]).
Proof.
  split; (split; [vm_compute; auto | ]);
    (split; [vm_compute; reflexivity | ]);
    (split; [vm_compute; reflexivity | discriminate]).
Qed.

(** C3, amended: for a member who holds [tversAvKor] through an active
    holding, with the setting [tversAvKor] on and [disableTilganger] off,
    [sideTilgangQueryset] returns all the instances of the model; for
    [Medlem] with the setting [bareAktive] on it returns the members with an
    active voice-group holding. *)
Theorem C3_tversAvKor_views_all_instances :
  forall (consts : Consts) (db : DB) (today : date) (self : Medlem)
         (model : Model) (t : Tilgang),
    In t (faktiskeTilganger db today self) ->
    tilgang_navn t = "tversAvKor" ->
    innstillinger_get self "tversAvKor" = true ->
    innstillinger_get self "disableTilganger" = false ->
    (model <> mMedlem \/ innstillinger_get self "bareAktive" = false ->
     sideTilgangQueryset consts db today self model =
       Ok (objects db model)) /\
    (innstillinger_get self "bareAktive" = true ->
     sideTilgangQueryset consts db today self mMedlem =
       Ok (aktive_korister db today (Medlem_objects db))).
Proof.
  intros consts db today self model t Ht Hn Htv Hd. split.
  - intros H.
    rewrite (sideTilgangQueryset_tversAvKor consts db today self model t
               Ht Hn Htv Hd).
    unfold bareAktiveDecorator. simpl.
    destruct model; try reflexivity.
    destruct H as [H | H]; [congruence | rewrite H; reflexivity].
  - intros H.
    rewrite (sideTilgangQueryset_tversAvKor consts db today self mMedlem t
               Ht Hn Htv Hd).
    unfold bareAktiveDecorator. simpl. rewrite H. reflexivity.
Qed.

Lemma C3_witness :
  sideTilgangQueryset consts_eksempel db_eksempel i_dag medlem_N mVerv =
    Ok (objects db_eksempel mVerv) /\
  sideTilgangQueryset consts_eksempel db_eksempel i_dag medlem_N_bareAktive
    mMedlem = Ok (aktive_korister db_eksempel i_dag
                    (Medlem_objects db_eksempel)).
Proof.
  split.
  - apply (C3_tversAvKor_views_all_instances consts_eksempel db_eksempel
             i_dag medlem_N mVerv tilgang_tversAvKor);
      try (vm_compute; reflexivity).
    + vm_compute. auto.
    + left. discriminate.
  - apply (C3_tversAvKor_views_all_instances consts_eksempel db_eksempel
             i_dag medlem_N_bareAktive mMedlem tilgang_tversAvKor);
      try (vm_compute; reflexivity).
    vm_compute. auto.
Defined.

(** ** The privilege-escalation guard *)

Lemma kor__in_tilgang_false (db : DB) (today : date) (self : Medlem)
    (X : pk) :
  ~ holds_right db today self "tilgang" X ->
  kor__in_tilgang db today self (Some X) = false.
Proof.
  intros H. unfold kor__in_tilgang.
  destruct (existsb _ _) eqn:E; [ | reflexivity].
  exfalso. apply H. apply existsb_exists in E as [t [Ht Hk]].
  unfold filter_navn in Ht. apply filter_In in Ht as [Ht Hn].
  apply String.eqb_eq in Hn. exists t. repeat split; try assumption.
  destruct (tilgang_kor t) as [k|]; [ | discriminate Hk].
  simpl in Hk. apply Pos.eqb_eq in Hk. congruence.
Qed.

Lemma tilganger__in_unheld_true (db : DB) (today : date) (self : Medlem)
    (v : Verv) :
  grants_unheld db today self v ->
  tilganger__in_unheld db today self v = true.
Proof.
  intros [t [Ht [Hv Hn]]]. apply existsb_exists. exists t.
  split; [exact Ht | ]. apply andb_true_iff. split.
  - apply pk__in_In, Hv.
  - apply negb_true_iff.
    destruct (pk__in _ _) eqn:E; [ | reflexivity].
    apply pk__in_In in E. contradiction.
Qed.

(** The guard on every call that does not take the cross-choir short cut
    ([tversAvKor_relatert] is false): the returned set contains no verv of
    [X], and no holding of a verv of [X], that grants a tilgang the member
    does not hold. *)
Lemma guard_excludes_escalating :
  forall (consts : Consts) (db : DB) (today : date) (self : Medlem) (X : pk)
         (model : Model) (resModel : option Model)
         (fieldType : option FieldType)
         (x : instance (resModelOf model resModel)),
    model = mVerv \/ model = mVervInnehavelse ->
    holds_right db today self "vervInnehavelse" X ->
    ~ holds_right db today self "tilgang" X ->
    tversAvKor_relatert consts db today self model resModel fieldType
      = false ->
    contains
      (redigerTilgangQueryset consts db today self model resModel fieldType)
      x ->
    ~ escalates db today self X (resModelOf model resModel) x.
Proof.
  intros consts db today self X model resModel fieldType x Hm _ Hno Hsc
    [qs [Hq Hx]] Hesc.
  pose proof (kor__in_tilgang_false db today self X Hno) as Hk.
  unfold redigerTilgangQueryset, bareAktiveDecorator,
    redigerTilgangQueryset_func in Hq.
  cbv zeta in Hq. rewrite Hsc in Hq.
  revert x qs Hq Hx Hesc. generalize (resModelOf model resModel).
  intros rm x qs Hq Hx Hesc.
  assert (Hbd : bool_decide (model = mMedlem) = false /\
                bool_decide (model = mVerv) ||
                bool_decide (model = mVervInnehavelse) = true).
  { destruct Hm as [-> | ->]; split; reflexivity. }
  destruct Hbd as [Hb1 Hb2]. rewrite Hb1 in Hq.
  destruct (modelTilTilgangNavn consts !! model_name model) as [navn|];
    [ | discriminate Hq].
  cbn [bind] in Hq.
  destruct (getInstancesForKor db rm _) as [rq|e]; [ | discriminate Hq].
  cbn [bind] in Hq. rewrite Hb2 in Hq. cbn [bind] in Hq.
  destruct rm; try exact Hesc; injection Hq as <-;
    apply filter_In in Hx as [_ Hkeep]; apply negb_true_iff in Hkeep.
  - destruct Hesc as [Hkor Hg]. rewrite Hkor, Hk in Hkeep.
    rewrite (tilganger__in_unheld_true db today self x Hg) in Hkeep.
    discriminate Hkeep.
  - destruct Hesc as [v [Hv [Hpk [Hkor Hg]]]].
    assert (Ht : existsb (fun v =>
                   Pos.eqb (verv_pk v) (vi_verv x) &&
                   negb (kor__in_tilgang db today self (verv_kor v)) &&
                   tilganger__in_unheld db today self v)
                 (Verv_objects db) = true).
    { apply existsb_exists. exists v. split; [exact Hv | ].
      rewrite Hkor, Hk, (tilganger__in_unheld_true db today self v Hg).
      rewrite (proj2 (Pos.eqb_eq _ _) Hpk). reflexivity. }
    rewrite Ht in Hkeep. discriminate Hkeep.
Qed.

(** The calls that leave the short cut aside: those without [resModel],
    those of a member who does not hold [tversAvKor], and those for a
    [ModelChoiceField] whose [resModel] is the model [korAvhengerAv] names
    for [model]. *)
Lemma tversAvKor_relatert_false (consts : Consts) (db : DB) (today : date)
    (self : Medlem) (model : Model) (resModel : option Model)
    (fieldType : option FieldType) :
  resModel = None \/
  filter_navn "tversAvKor" (tilganger db today self) = [] \/
  (exists r, resModel = Some r /\ fieldType = Some ModelChoiceField /\
             korAvhengerAv consts !! model_name model
             = Some (model_name r)) ->
  tversAvKor_relatert consts db today self model resModel fieldType = false.
Proof.
  intros [-> | [Hno | [r [-> [-> Hk]]]]].
  - reflexivity.
  - unfold tversAvKor_relatert. destruct resModel as [r|]; [ | reflexivity].
    rewrite Hno. reflexivity.
  - unfold tversAvKor_relatert. rewrite Hk. cbn [default fieldType_is].
    rewrite String.eqb_refl. cbn [negb andb orb].
    rewrite andb_false_r. reflexivity.
Qed.

(** C1: for every member who holds [vervInnehavelse] in the choir [X] and
    does not hold [tilgang] in [X], the set [redigerTilgangQueryset]
    returns for [Verv] or [VervInnehavelse] contains no verv of [X], and no
    holding of a verv of [X], that grants a tilgang the member does not
    hold.  This holds on every call without [resModel], on every call for
    a [ModelChoiceField] whose [resModel] is the model the choir of [model]
    depends on (the foreign key [VervInnehavelse.verv]), and on every call
    of a member who does not hold [tversAvKor]. *)
Theorem C1_guard_excludes_escalating_verv :
  forall (consts : Consts) (db : DB) (today : date) (self : Medlem) (X : pk)
         (model : Model) (resModel : option Model)
         (fieldType : option FieldType)
         (x : instance (resModelOf model resModel)),
    model = mVerv \/ model = mVervInnehavelse ->
    holds_right db today self "vervInnehavelse" X ->
    ~ holds_right db today self "tilgang" X ->
    resModel = None \/
    filter_navn "tversAvKor" (tilganger db today self) = [] \/
    (exists r, resModel = Some r /\ fieldType = Some ModelChoiceField /\
               korAvhengerAv consts !! model_name model
               = Some (model_name r)) ->
    escalates db today self X (resModelOf model resModel) x ->
    ~ contains
        (redigerTilgangQueryset consts db today self model resModel fieldType)
        x.
Proof.
  intros consts db today self X model resModel fieldType x Hm Hh Hno Hcall
    Hesc Hc.
  apply (guard_excludes_escalating consts db today self X model resModel
           fieldType x Hm Hh Hno
           (tversAvKor_relatert_false consts db today self model resModel
              fieldType Hcall) Hc).
  exact Hesc.
Qed.

(** The guard at work for a member who also holds [tversAvKor]: [medlem_N]
    holds [vervInnehavelse] and [tversAvKor] in TSS and not [tilgang];
    Formann of TSS grants [medlemsdata], which the member does not hold, and
    is not among the verv offered for the field [VervInnehavelse.verv]. *)
Lemma C1_witness :
  escalates db_eksempel i_dag medlem_N 1 mVerv verv_Formann /\
  ~ contains
      (redigerTilgangQueryset consts_eksempel db_eksempel i_dag medlem_N
         mVervInnehavelse (Some mVerv) (Some ModelChoiceField))
      verv_Formann.
Proof.
  assert (Hesc : escalates db_eksempel i_dag medlem_N 1 mVerv verv_Formann).
  { split; [reflexivity | ]. exists tilgang_medlemsdata.
    split; [simpl; auto | split; [simpl; auto | ]].
    vm_compute. intros [H | [H | []]]; discriminate H. }
  split; [exact Hesc | ].
  apply (C1_guard_excludes_escalating_verv consts_eksempel db_eksempel i_dag
           medlem_N 1 mVervInnehavelse (Some mVerv) (Some ModelChoiceField)
           verv_Formann).
  - right. reflexivity.
  - exists tilgang_vervInnehavelse. split; [vm_compute; auto | auto].
  - intros [t [Ht [Hn Hk]]]. vm_compute in Ht.
    destruct Ht as [<- | [<- | []]]; discriminate Hn.
  - right. right. exists mVerv. split; [reflexivity | split; reflexivity].
  - exact Hesc.
Defined.

(** Outside these calls: asked for the [Verv] a [ModelMultipleChoiceField]
    of [VervInnehavelse] relates to, the short cut gives [medlem_N], who
    holds [tversAvKor], every verv, Formann of TSS among them.  No field
    makes this call: [VervInnehavelse.verv] is a [ForeignKey], and the
    models declare no many-to-many relation between [Verv] and
    [VervInnehavelse]. *)
Lemma redigerTilgangQueryset_multiple_choice_all_verv :
  holds_right db_eksempel i_dag medlem_N "vervInnehavelse" 1 /\
  ~ holds_right db_eksempel i_dag medlem_N "tilgang" 1 /\
  contains
    (redigerTilgangQueryset consts_eksempel db_eksempel i_dag medlem_N
       mVervInnehavelse (Some mVerv) (Some ModelMultipleChoiceField))
    verv_Formann /\
  escalates db_eksempel i_dag medlem_N 1 mVerv verv_Formann.
Proof.
  split; [ | split; [ | split]].
  - exists tilgang_vervInnehavelse. split; [vm_compute; auto | auto].
  - intros [t [Ht [Hn Hk]]]. vm_compute in Ht.
    destruct Ht as [<- | [<- | []]]; discriminate Hn.
  - eexists. split; [vm_compute; reflexivity | simpl; auto].
  - split; [reflexivity | ]. exists tilgang_medlemsdata.
    split; [simpl; auto | split; [simpl; auto | ]].
    vm_compute. intros [H | [H | []]]; discriminate H.
Qed.


(** ** The navigation tree *)

Lemma filter_none {A} (f : A -> bool) (l : list A) :
  (forall x, In x l -> f x = false) -> List.filter f l = [].
Proof.
  induction l as [|x l IH]; intros H; [reflexivity | ].
  simpl. rewrite (H x (or_introl eq_refl)).
  apply IH. intros y Hy. apply H. right. exact Hy.
Qed.

Lemma existsb_none {A} (f : A -> bool) (l : list A) :
  (forall x, In x l -> f x = false) -> existsb f l = false.
Proof.
  induction l as [|x l IH]; intros H; [reflexivity | ].
  simpl. rewrite (H x (or_introl eq_refl)).
  apply IH. intros y Hy. apply H. right. exact Hy.
Qed.

(** C9 at the failing inputs: a member with no holding at all has no
    tilgang and no active kor, [Medlem.storkor] is the empty string, and
    [navBar] raises [AttributeError] on [self.storkor.kortTittel]: no tree
    is returned. *)
Theorem C9_navBar_raises_without_storkor :
  forall (consts : Consts) (db : DB) (today : date) (self : Medlem),
    (forall vi, In vi (VervInnehavelse_objects db) ->
                vi_medlem vi <> medlem_pk self) ->
    tilganger db today self = [] /\
    aktiveKor db today self = [] /\
    storkor db self = Ok storkor_tomStreng /\
    navBar consts db today self = Raise AttributeError.
Proof.
  intros consts db today self Hno.
  assert (Hne : forall vi, In vi (VervInnehavelse_objects db) ->
                  Pos.eqb (vi_medlem vi) (medlem_pk self) = false).
  { intros vi Hvi. apply Pos.eqb_neq, Hno, Hvi. }
  assert (Hf : faktiskeTilganger db today self = []).
  { apply filter_none. intros t _. apply existsb_none. intros v _.
    apply andb_false_iff. right. apply existsb_none. intros vi Hvi.
    rewrite (Hne vi Hvi). apply andb_false_r. }
  assert (Hs : storkor db self = Ok storkor_tomStreng).
  { unfold storkor, firstStemmegruppeVervInnehavelse.
    rewrite filter_none; [reflexivity | ].
    intros vi Hvi. rewrite (Hne vi Hvi). reflexivity. }
  split; [ | split; [ | split]].
  - unfold tilganger. rewrite Hf.
    destruct (innstillinger_get self "disableTilganger"); [reflexivity | ].
    destruct (negb (innstillinger_get self "tversAvKor")); reflexivity.
  - apply filter_none. intros k _. apply existsb_none. intros v _.
    apply andb_false_iff. right. apply existsb_none. intros vi Hvi.
    rewrite (Hne vi Hvi). apply andb_false_r.
  - exact Hs.
  - unfold navBar. rewrite Hs. reflexivity.
Qed.

Lemma C9_witness :
  tilganger db_eksempel i_dag medlem_R = [] /\
  aktiveKor db_eksempel i_dag medlem_R = [] /\
  storkor db_eksempel medlem_R = Ok storkor_tomStreng /\
  navBar consts_eksempel db_eksempel i_dag medlem_R = Raise AttributeError.
Proof.
  apply (C9_navBar_raises_without_storkor consts_eksempel db_eksempel i_dag
           medlem_R).
  intros vi Hvi. simpl in Hvi.
  repeat (destruct Hvi as [<- | Hvi]; [discriminate | ]). destruct Hvi.
Defined.

(** * Further properties of the code *)

(** ** [validateStartSlutt] and [VervInnehavelse.clean] *)

(** X1: [validateStartSlutt] never raises without an end date; with
    [canEqual=False] it raises [invalidDateOrder] exactly when
    [start > slutt]; so equal dates pass with [canEqual=False] and are
    rejected with [canEqual=True], and what [canEqual=True] accepts
    [canEqual=False] accepts. *)
Theorem X1_validateStartSlutt_canEqual_flag :
  forall (s e : date) (canEqual : bool),
    validateStartSlutt s None canEqual = Ok tt /\
    (validateStartSlutt s (Some e) false =
       Raise (ValidationError "invalidDateOrder") <-> (s > e)%Z) /\
    (validateStartSlutt s (Some e) false = Ok tt <-> (s <= e)%Z) /\
    (validateStartSlutt s (Some e) true = Ok tt ->
     validateStartSlutt s (Some e) false = Ok tt) /\
    validateStartSlutt e (Some e) false = Ok tt /\
    validateStartSlutt e (Some e) true =
      Raise (ValidationError "invalidDateOrder").
Proof.
  intros s e canEqual. unfold validateStartSlutt.
  split; [reflexivity | ].
  destruct (Z.gtb_spec s e) as [Hgt | Hle];
    destruct (Z.geb_spec s e) as [Hge | Hlt]; try lia;
    (repeat split; intros; try reflexivity; try discriminate; try lia);
    try (rewrite Z.gtb_ltb, Z.ltb_irrefl; reflexivity);
    try (rewrite Z.geb_leb, Z.leb_refl; reflexivity).
Qed.

Lemma overlap_of_overlapQ (self : VervInnehavelseInstance)
    (vi : VervInnehavelse) :
  validateStartSlutt (self_start self) (self_slutt self) true = Ok tt ->
  datoer_ordnet vi ->
  overlapQ self vi = true ->
  intervals_overlap (self_start self) (self_slutt self)
    (start vi) (slutt vi).
Proof.
  unfold validateStartSlutt, datoer_ordnet, overlapQ, qBool, qFalse,
    intervals_overlap.
  intros Hv Hd H. apply andb_true_iff in H as [H1 H2].
  apply negb_true_iff in H1, H2.
  exists (Z.max (self_start self) (start vi)).
  destruct (self_slutt self) as [e1|]; destruct (slutt vi) as [e2|];
    try (destruct (Z.geb_spec (self_start self) e1); [discriminate Hv | ]);
    try apply Z.ltb_ge in H1; try rewrite Z.gtb_ltb in H2;
    try apply Z.ltb_ge in H2; repeat split; lia.
Qed.

Lemma clean_cases (db : DB) (self : VervInnehavelseInstance) :
  clean db self = Ok tt \/
  clean db self = Raise (ValidationError "invalidDateOrder") \/
  clean db self = Raise (ValidationError "overlappingVervInnehavelse").
Proof.
  unfold clean, validateStartSlutt.
  destruct (self_slutt self) as [e|];
    [destruct (Z.geb (self_start self) e); [auto | ] | ];
    cbn [bind]; destruct (self_verv self) as [verv|]; auto;
    destruct (isStemmegruppeVervNavn (verv_navn verv) true);
    destruct (existsb _ _); auto.
Qed.

Lemma clean_Ok_inv (db : DB) (self : VervInnehavelseInstance) :
  clean db self = Ok tt ->
  validateStartSlutt (self_start self) (self_slutt self) true = Ok tt /\
  forall vi, In vi (VervInnehavelse_objects db) ->
             sammenlignes db self vi -> overlapQ self vi = false.
Proof.
  unfold clean. intros H.
  destruct (validateStartSlutt _ _ true) as [[]|e] eqn:Hv;
    [ | discriminate H].
  split; [reflexivity | ]. cbn [bind] in H.
  intros vi Hvi [verv [Hverv [Hpk [Hm Hc]]]]. rewrite Hverv in H.
  destruct (overlapQ self vi) eqn:Hq; [exfalso | reflexivity].
  destruct (isStemmegruppeVervNavn (verv_navn verv) true).
  - destruct Hc as [v [Hv' [Hvp [Hsg Hk]]]].
    match type of H with (if ?b then _ else _) = _ =>
      assert (Hb : b = true); [ | rewrite Hb in H; discriminate H] end.
    apply existsb_exists. exists vi. split; [exact Hvi | ].
    rewrite (not_pk_of_other _ _ Hpk), Hq.
    rewrite (proj2 (Pos.eqb_eq _ _) Hm). rewrite !andb_true_r. cbn [andb].
    apply existsb_exists. exists v. split; [exact Hv' | ].
    rewrite (proj2 (Pos.eqb_eq _ _) Hvp).
    rewrite Hsg, Hk.
    destruct (self_kor self); cbn; [apply Pos.eqb_refl | reflexivity].
  - match type of H with (if ?b then _ else _) = _ =>
      assert (Hb : b = true); [ | rewrite Hb in H; discriminate H] end.
    apply existsb_exists. exists vi. split; [exact Hvi | ].
    rewrite (not_pk_of_other _ _ Hpk), Hq.
    rewrite (proj2 (Pos.eqb_eq _ _) Hm), (proj2 (Pos.eqb_eq _ _) Hc).
    reflexivity.
Qed.

Lemma option_pk_eqb_eq (a b : option pk) :
  option_pk_eqb a b = true -> a = b.
Proof.
  destruct a, b; simpl; intros H; try discriminate; try reflexivity.
  apply Pos.eqb_eq in H. congruence.
Qed.

Lemma clean_overlapping_inv (db : DB) (self : VervInnehavelseInstance) :
  clean db self = Raise (ValidationError "overlappingVervInnehavelse") ->
  validateStartSlutt (self_start self) (self_slutt self) true = Ok tt /\
  exists vi, In vi (VervInnehavelse_objects db) /\
             sammenlignes db self vi /\ overlapQ self vi = true.
Proof.
  unfold clean. intros H.
  destruct (validateStartSlutt _ _ true) as [[]|e] eqn:Hv.
  2:{ unfold validateStartSlutt in Hv.
      destruct (self_slutt self); [ | discriminate Hv].
      destruct (Z.geb _ _); [ | discriminate Hv].
      injection Hv as <-. discriminate H. }
  split; [reflexivity | ]. cbn [bind] in H.
  destruct (self_verv self) as [verv|] eqn:Hverv; [ | discriminate H].
  destruct (isStemmegruppeVervNavn (verv_navn verv) true) eqn:Hsg.
  - destruct (existsb _ _) eqn:E in H; [ | discriminate H].
    apply existsb_exists in E as [vi [Hvi E]].
    apply andb_true_iff in E as [E Hm]. apply andb_true_iff in E as [E Hq].
    apply andb_true_iff in E as [Hpk E].
    apply existsb_exists in E as [v [Hv' E]].
    apply andb_true_iff in E as [E Hk]. apply andb_true_iff in E as [Hvp Hs].
    exists vi. split; [exact Hvi | split; [ | exact Hq]].
    exists verv. split; [exact Hverv | ]. split.
    { unfold not_pk in Hpk. intros Heq. rewrite Heq, Pos.eqb_refl in Hpk.
      discriminate Hpk. }
    split; [apply Pos.eqb_eq, Hm | ]. rewrite Hsg.
    exists v. split; [exact Hv' | ].
    split; [apply Pos.eqb_eq, Hvp | ].
    split; [exact Hs | apply option_pk_eqb_eq, Hk].
  - destruct (existsb _ _) eqn:E in H; [ | discriminate H].
    apply existsb_exists in E as [vi [Hvi E]].
    apply andb_true_iff in E as [E Hvp]. apply andb_true_iff in E as [E Hm].
    apply andb_true_iff in E as [Hpk Hq].
    exists vi. split; [exact Hvi | split; [ | exact Hq]].
    exists verv. split; [exact Hverv | ]. split.
    { unfold not_pk in Hpk. intros Heq. rewrite Heq, Pos.eqb_refl in Hpk.
      discriminate Hpk. }
    split; [apply Pos.eqb_eq, Hm | ]. rewrite Hsg. apply Pos.eqb_eq, Hvp.
Qed.

(** X2: when the end of every stored holding is not before its start,
    [VervInnehavelse.clean] accepts an instance exactly when its own dates
    pass [validateStartSlutt] and no stored holding it is compared with
    overlaps it; it raises [overlappingVervInnehavelse] exactly when the
    dates pass and such a holding overlaps; it raises nothing else than
    the two validation errors.  The holdings compared are those of
    [sammenlignes]: the verv of the instance is classified by
    [Verv.stemmegruppeVerv], the stored verv by the database lookup. *)
Theorem X2_clean_accepts_iff_no_overlap :
  forall (db : DB) (self : VervInnehavelseInstance),
    (forall vi, In vi (VervInnehavelse_objects db) -> datoer_ordnet vi) ->
    (clean db self = Ok tt <->
     validateStartSlutt (self_start self) (self_slutt self) true = Ok tt /\
     forall vi, In vi (VervInnehavelse_objects db) ->
       sammenlignes db self vi ->
       ~ intervals_overlap (self_start self) (self_slutt self)
           (start vi) (slutt vi)) /\
    (clean db self = Raise (ValidationError "overlappingVervInnehavelse") <->
     validateStartSlutt (self_start self) (self_slutt self) true = Ok tt /\
     exists vi, In vi (VervInnehavelse_objects db) /\
       sammenlignes db self vi /\
       intervals_overlap (self_start self) (self_slutt self)
         (start vi) (slutt vi)) /\
    (clean db self = Ok tt \/
     clean db self = Raise (ValidationError "invalidDateOrder") \/
     clean db self = Raise (ValidationError "overlappingVervInnehavelse")).
Proof.
  intros db self Hord.
  assert (Hraise :
    clean db self = Raise (ValidationError "overlappingVervInnehavelse") <->
    validateStartSlutt (self_start self) (self_slutt self) true = Ok tt /\
    exists vi, In vi (VervInnehavelse_objects db) /\
      sammenlignes db self vi /\
      intervals_overlap (self_start self) (self_slutt self)
        (start vi) (slutt vi)).
  { split.
    - intros H. apply clean_overlapping_inv in H as [Hv [vi [Hvi [Hc Hq]]]].
      split; [exact Hv | ]. exists vi. split; [exact Hvi | ].
      split; [exact Hc | ].
      apply overlap_of_overlapQ; auto.
    - intros [Hv [vi [Hvi [[verv [Hverv [Hpk [Hm Hc]]]] Hov]]]].
      destruct (isStemmegruppeVervNavn (verv_navn verv) true) eqn:Hsg.
      + destruct Hc as [v [Hv' [Hvp [Hs Hk]]]].
        apply (clean_overlapping_stemmegruppeVerv db self verv vi v);
          auto.
        rewrite Hk. unfold self_kor. rewrite Hverv. reflexivity.
      + apply (clean_overlapping_same_verv db self verv vi); auto. }
  split; [ | split; [exact Hraise | apply clean_cases]].
  split.
  - intros H. destruct (clean_Ok_inv db self H) as [Hv Hno].
    split; [exact Hv | ]. intros vi Hvi Hc Hov.
    specialize (Hno vi Hvi Hc).
    rewrite (overlapQ_of_overlap self vi Hov) in Hno. discriminate Hno.
  - intros [Hv Hno].
    destruct (clean_cases db self) as [H | [H | H]]; [exact H | | ].
    + unfold clean in H. rewrite Hv in H. cbn [bind] in H.
      destruct (self_verv self) as [verv|]; [ | discriminate H].
      destruct (isStemmegruppeVervNavn _ _); destruct (existsb _ _);
        discriminate H.
    + apply Hraise in H as [_ [vi [Hvi [Hc Hov]]]].
      destruct (Hno vi Hvi Hc Hov).
Qed.

Lemma X2_witness :
  clean db_eksempel ny_2S =
    Raise (ValidationError "overlappingVervInnehavelse") <->
  validateStartSlutt (self_start ny_2S) (self_slutt ny_2S) true = Ok tt /\
  exists vi, In vi (VervInnehavelse_objects db_eksempel) /\
    sammenlignes db_eksempel ny_2S vi /\
    intervals_overlap (self_start ny_2S) (self_slutt ny_2S)
      (start vi) (slutt vi).
Proof.
  apply (X2_clean_accepts_iff_no_overlap db_eksempel ny_2S).
  intros vi Hvi. simpl in Hvi. unfold datoer_ordnet.
  repeat (destruct Hvi as [<- | Hvi]; [simpl; try exact I; lia | ]).
  destruct Hvi.
Defined.

(** ** [VervInnehavelse.save] *)

Lemma fresh_pk_gt (rows : list VervInnehavelse) (vi : VervInnehavelse) :
  In vi rows -> (vi_pk vi < fresh_pk rows)%positive.
Proof.
  unfold fresh_pk. induction rows as [|r rows IH]; [intros [] | ].
  simpl. intros [<- | H]; [lia | ]. specialize (IH H). lia.
Qed.

Lemma super_save_rows (db : DB) (self : VervInnehavelseInstance)
    (verv : Verv) :
  self_verv self = Some verv ->
  let p := match self_pk self with
           | Some p => p
           | None => fresh_pk (VervInnehavelse_objects db)
           end in
  fst (super_save self db) = Ok tt /\
  forall vi,
    In vi (VervInnehavelse_objects (snd (super_save self db))) <->
    vi = rad_av self verv p \/
    (In vi (VervInnehavelse_objects db) /\ vi_pk vi <> p).
Proof.
  intros Hverv p. unfold super_save. rewrite Hverv. fold p.
  split; [reflexivity | ]. intros vi. cbn [snd].
  unfold set_VervInnehavelse_objects. cbn [VervInnehavelse_objects].
  fold (rad_av self verv p).
  destruct (existsb _ _) eqn:E.
  - rewrite in_map_iff. split.
    + intros [x [Hx Hin]]. destruct (Pos.eqb_spec (vi_pk x) p) as [Heq | Hne].
      * left. symmetry. exact Hx.
      * right. subst x. auto.
    + intros [-> | [Hin Hne]].
      * apply existsb_exists in E as [x [Hin Hx]]. exists x.
        rewrite Hx. auto.
      * exists vi. apply Pos.eqb_neq in Hne. rewrite Hne. auto.
  - rewrite in_app_iff. simpl. split.
    + intros [Hin | [<- | []]]; [right | left; reflexivity].
      split; [exact Hin | ]. intros Heq.
      assert (Ht : existsb (fun vi0 => Pos.eqb (vi_pk vi0) p)
                     (VervInnehavelse_objects db) = true).
      { apply existsb_exists. exists vi. split; [exact Hin | ].
        apply Pos.eqb_eq, Heq. }
      rewrite Ht in E. discriminate E.
    + intros [-> | [Hin _]]; auto.
Qed.

Lemma save_Ok_inv (db db' : DB) (self : VervInnehavelseInstance) :
  save self db = (Ok tt, db') ->
  clean db self = Ok tt /\ db' = snd (super_save self db) /\
  exists verv, self_verv self = Some verv.
Proof.
  unfold save. intros H.
  destruct (clean db self) as [[]|e] eqn:Hc; [ | discriminate H].
  split; [reflexivity | ].
  split; [rewrite H; reflexivity | ].
  unfold super_save in H. destruct (self_verv self) as [verv|];
    [exists verv; reflexivity | discriminate H].
Qed.

(** X3: a [save] that returns has passed [clean]; the table of holdings
    then holds the row of the instance under its key, a key no stored row
    has when the instance was new, and beside it exactly the rows it held
    before under other keys; the row ends strictly after it starts; no
    other table is changed. *)
Theorem X3_save_writes_the_row :
  forall (db db' : DB) (self : VervInnehavelseInstance),
    save self db = (Ok tt, db') ->
    exists (verv : Verv) (p : pk),
      self_verv self = Some verv /\
      (self_pk self = Some p \/
       (self_pk self = None /\
        forall vi, In vi (VervInnehavelse_objects db) -> vi_pk vi <> p)) /\
      (forall vi,
          In vi (VervInnehavelse_objects db') <->
          vi = rad_av self verv p \/
          (In vi (VervInnehavelse_objects db) /\ vi_pk vi <> p)) /\
      match self_slutt self with
      | Some s => (self_start self < s)%Z
      | None => True
      end /\
      Verv_objects db' = Verv_objects db /\
      Tilgang_objects db' = Tilgang_objects db /\
      Medlem_objects db' = Medlem_objects db /\
      Kor_objects db' = Kor_objects db.
Proof.
  intros db db' self H.
  destruct (save_Ok_inv db db' self H) as [Hc [-> [verv Hverv]]].
  destruct (super_save_rows db self verv Hverv) as [_ Hrows].
  exists verv.
  exists (match self_pk self with
          | Some p => p
          | None => fresh_pk (VervInnehavelse_objects db)
          end).
  split; [exact Hverv | ]. split.
  { destruct (self_pk self) as [p|]; [left; reflexivity | right].
    split; [reflexivity | ]. intros vi Hvi.
    pose proof (fresh_pk_gt _ vi Hvi). lia. }
  split; [exact Hrows | ]. split.
  { apply clean_Ok_inv in Hc as [Hv _]. unfold validateStartSlutt in Hv.
    destruct (self_slutt self) as [s|]; [ | exact I].
    destruct (Z.geb_spec (self_start self) s); [discriminate Hv | lia]. }
  unfold super_save. rewrite Hverv. repeat split.
Qed.

Lemma X3_witness :
  exists (verv : Verv) (p : pk),
    self_verv ny_2S_P = Some verv /\
    (self_pk ny_2S_P = Some p \/
     (self_pk ny_2S_P = None /\
      forall vi, In vi (VervInnehavelse_objects db_eksempel) ->
                 vi_pk vi <> p)) /\
    (forall vi,
        In vi (VervInnehavelse_objects
                 (snd (save ny_2S_P db_eksempel))) <->
        vi = rad_av ny_2S_P verv p \/
        (In vi (VervInnehavelse_objects db_eksempel) /\ vi_pk vi <> p)) /\
    match self_slutt ny_2S_P with
    | Some s => (self_start ny_2S_P < s)%Z
    | None => True
    end /\
    Verv_objects (snd (save ny_2S_P db_eksempel)) =
      Verv_objects db_eksempel /\
    Tilgang_objects (snd (save ny_2S_P db_eksempel)) =
      Tilgang_objects db_eksempel /\
    Medlem_objects (snd (save ny_2S_P db_eksempel)) =
      Medlem_objects db_eksempel /\
    Kor_objects (snd (save ny_2S_P db_eksempel)) = Kor_objects db_eksempel.
Proof.
  apply (X3_save_writes_the_row db_eksempel
           (snd (save ny_2S_P db_eksempel)) ny_2S_P).
  vm_compute. reflexivity.
Defined.

Lemma intervals_overlap_sym (s1 : date) (e1 : option date) (s2 : date)
    (e2 : option date) :
  intervals_overlap s1 e1 s2 e2 -> intervals_overlap s2 e2 s1 e1.
Proof. intros [d [H1 [H2 [H3 H4]]]]. exists d. auto. Qed.

(** A saved row overlaps no stored row it must not overlap. *)
Lemma save_row_no_overlap (db : DB) (self : VervInnehavelseInstance)
    (verv : Verv) (p : pk) (vi : VervInnehavelse) :
  (forall v v', In v (Verv_objects db) -> In v' (Verv_objects db) ->
                verv_pk v = verv_pk v' -> v = v') ->
  self_verv self = Some verv ->
  In verv (Verv_objects db) ->
  (isStemmegruppeVervNavn (verv_navn verv) true = true ->
   stemmegruppeVerv true false (verv_navn verv) = true) ->
  clean db self = Ok tt ->
  (self_pk self = Some p \/ self_pk self = None) ->
  In vi (VervInnehavelse_objects db) -> vi_pk vi <> p ->
  vi_medlem vi = self_medlem self ->
  samme_verv_eller_stemmegruppe db (rad_av self verv p) vi ->
  ~ intervals_overlap (self_start self) (self_slutt self)
      (start vi) (slutt vi).
Proof.
  intros Huniq Hverv Hin Hdb Hc Hp Hvi Hne Hm Hsame Hov.
  apply clean_Ok_inv in Hc as [_ Hno].
  assert (Hcmp : sammenlignes db self vi).
  { exists verv. split; [exact Hverv | ]. split.
    { destruct Hp as [-> | ->]; congruence. }
    split; [exact Hm | ].
    assert (Hkor : self_kor self = verv_kor verv).
    { unfold self_kor. rewrite Hverv. reflexivity. }
    destruct (isStemmegruppeVervNavn (verv_navn verv) true) eqn:Hsg.
    - destruct Hsame as [Heq | [k [[v1 [Hv1 [Hp1 [Hs1 Hk1]]]] Hvi2]]].
      + exists verv. simpl in Heq. rewrite Hkor. auto.
      + simpl in Hp1.
        rewrite (Huniq v1 verv Hv1 Hin Hp1) in Hk1.
        rewrite Hkor, Hk1. exact Hvi2.
    - destruct Hsame as [Heq | [k [[v1 [Hv1 [Hp1 [Hs1 Hk1]]]] Hvi2]]].
      + simpl in Heq. auto.
      + simpl in Hp1. rewrite (Huniq v1 verv Hv1 Hin Hp1) in Hs1.
        apply stemmegruppeVerv_isStemmegruppeVervNavn in Hs1.
        rewrite Hsg in Hs1. discriminate Hs1. }
  specialize (Hno vi Hvi Hcmp).
  rewrite (overlapQ_of_overlap self vi Hov) in Hno. discriminate Hno.
Qed.

(** X4: when the keys of the verv are distinct, the verv of the instance
    is the stored one, and the database lookup matches its name if
    [Verv.stemmegruppeVerv] holds of it (the name does not end in a
    newline), a [save] that returns keeps the invariant of the holdings:
    no member has two overlapping holdings of one verv, or of verv of one
    choir that the database lookup [stemmegruppeVerv] matches. *)
Theorem X4_save_keeps_ingen_overlapp :
  forall (db db' : DB) (self : VervInnehavelseInstance) (verv : Verv),
    (forall v v', In v (Verv_objects db) -> In v' (Verv_objects db) ->
                  verv_pk v = verv_pk v' -> v = v') ->
    self_verv self = Some verv ->
    In verv (Verv_objects db) ->
    (isStemmegruppeVervNavn (verv_navn verv) true = true ->
     stemmegruppeVerv true false (verv_navn verv) = true) ->
    ingen_overlapp db ->
    save self db = (Ok tt, db') ->
    ingen_overlapp db'.
Proof.
  intros db db0 self verv Huniq Hverv Hin Hdb Hinv Hsave.
  destruct (save_Ok_inv db db0 self Hsave) as [Hc [-> _]].
  destruct (super_save_rows db self verv Hverv) as [_ Hrows].
  assert (HV : Verv_objects (snd (super_save self db)) = Verv_objects db).
  { unfold super_save. rewrite Hverv. reflexivity. }
  set (p := match self_pk self with
            | Some p => p
            | None => fresh_pk (VervInnehavelse_objects db)
            end) in Hrows.
  set (db' := snd (super_save self db)) in *.
  assert (Hp' : self_pk self = Some p \/ self_pk self = None).
  { unfold p. destruct (self_pk self); auto. }
  assert (Hstem : forall vi k,
            stemmegruppe_i_kor db' vi k <-> stemmegruppe_i_kor db vi k).
  { intros vi k. unfold stemmegruppe_i_kor. rewrite HV. reflexivity. }
  assert (Hsame : forall a b,
            samme_verv_eller_stemmegruppe db' a b ->
            samme_verv_eller_stemmegruppe db a b).
  { intros a b [H | [k [Ha Hb]]]; [left; exact H | right].
    exists k. split; apply Hstem; assumption. }
  intros vi1 vi2 H1 H2 Hne Hm Hs.
  apply Hsame in Hs. apply Hrows in H1, H2.
  destruct H1 as [-> | [H1 Hn1]]; destruct H2 as [-> | [H2 Hn2]].
  - congruence.
  - simpl. simpl in Hm.
    apply (save_row_no_overlap db self verv p vi2); auto.
  - simpl. simpl in Hm. intros Hov. apply intervals_overlap_sym in Hov.
    revert Hov.
    apply (save_row_no_overlap db self verv p vi1); auto.
    destruct Hs as [H | [k [Ha Hb]]]; [left; auto | right; eauto].
  - apply Hinv; assumption.
Qed.

Lemma X4_witness :
  ingen_overlapp (snd (save ny_2S_P db_eksempel)).
Proof.
  apply (X4_save_keeps_ingen_overlapp db_eksempel
           (snd (save ny_2S_P db_eksempel)) ny_2S_P verv_2S).
  - intros v v' Hv Hv' Heq. simpl in Hv, Hv'.
    repeat (destruct Hv as [<- | Hv]);
      repeat (destruct Hv' as [<- | Hv']);
      try reflexivity; try discriminate Heq; try destruct Hv;
      try destruct Hv'.
  - reflexivity.
  - simpl. auto 10.
  - intros _. reflexivity.
  - intros vi1 vi2 H1 H2 Hne Hm _. simpl in H1, H2.
    repeat (destruct H1 as [<- | H1]);
      repeat (destruct H2 as [<- | H2]);
      try congruence; try discriminate Hm; try destruct H1;
      try destruct H2.
  - vm_compute. reflexivity.
Defined.

(** Without the condition on the name the invariant is not kept: for the
    verv named 1S followed by a newline, [clean] takes the branch of the
    voice-group verv, the database lookup does not match the name of the
    stored verv, and [save] writes a second holding of the same verv for
    [medlem_R] that overlaps the first. *)
Lemma save_overlapp_etter_linjeskift :
  isStemmegruppeVervNavn (verv_navn verv_1S_linjeskift) true = true /\
  stemmegruppeVerv true false (verv_navn verv_1S_linjeskift) = false /\
  ingen_overlapp db_linjeskift /\
  fst (save ny_linjeskift db_linjeskift) = Ok tt /\
  ~ ingen_overlapp (snd (save ny_linjeskift db_linjeskift)).
Proof.
  split; [reflexivity | split; [reflexivity | split; [ | split]]].
  - intros vi1 vi2 H1 H2 Hne Hm _. simpl in H1, H2.
    repeat (destruct H1 as [<- | H1]);
      repeat (destruct H2 as [<- | H2]);
      try congruence; try discriminate Hm; try destruct H1;
      try destruct H2.
  - vm_compute. reflexivity.
  - intros Hinv.
    apply (Hinv vi_R
             {| vi_pk := 6; vi_medlem := 5; vi_verv := 6; start := 200;
                slutt := None |}).
    + vm_compute. auto 10.
    + vm_compute. auto 10.
    + discriminate.
    + reflexivity.
    + left. reflexivity.
    + exists 200%Z. simpl. repeat split; lia.
Qed.

(** ** [Medlem.tilganger] *)

(** X5: [Medlem.tilganger] is a part of [Medlem.faktiskeTilganger]; a
    tilgang named [tversAvKor] is in it only when the setting [tversAvKor]
    is on and [disableTilganger] is off; when [disableTilganger] is off,
    every other tilgang of [faktiskeTilganger] is in it, whatever the
    setting [tversAvKor]. *)
Theorem X5_tilganger_within_faktiskeTilganger :
  forall (db : DB) (today : date) (self : Medlem),
    incl (tilganger db today self) (faktiskeTilganger db today self) /\
    (forall t, In t (tilganger db today self) ->
               tilgang_navn t = "tversAvKor" ->
               innstillinger_get self "tversAvKor" = true /\
               innstillinger_get self "disableTilganger" = false) /\
    (innstillinger_get self "disableTilganger" = false ->
     forall t, In t (faktiskeTilganger db today self) ->
               tilgang_navn t <> "tversAvKor" ->
               In t (tilganger db today self)).
Proof.
  intros db today self. unfold tilganger.
  destruct (innstillinger_get self "disableTilganger").
  - split; [intros t [] | ]. split; [intros t [] | discriminate].
  - destruct (innstillinger_get self "tversAvKor"); simpl.
    + split; [apply incl_refl | ]. split; [auto | auto].
    + split; [apply incl_filter | ]. split.
      * intros t Ht Hn. apply filter_In in Ht as [_ Ht].
        rewrite Hn in Ht. discriminate Ht.
      * intros _ t Ht Hn. apply filter_In. split; [exact Ht | ].
        apply negb_true_iff, String.eqb_neq, Hn.
Qed.

(** ** The resolvers without rights, and with more rights *)

Lemma kor__in_nil (k : option pk) : kor__in k [] = false.
Proof. destruct k; reflexivity. Qed.

Lemma getInstancesForKor_nil (db : DB) (model : Model)
    (q : QuerySet model) :
  getInstancesForKor db model [] = Ok q -> q = [].
Proof.
  destruct model; simpl; intros H; try discriminate H; injection H as <-;
    try reflexivity; apply filter_none; intros x _;
    try apply kor__in_nil;
    apply existsb_none; intros y _.
  - apply andb_false_iff. right. apply existsb_none. intros v _.
    rewrite kor__in_nil. apply andb_false_r.
  - rewrite kor__in_nil. apply andb_false_r.
  - rewrite kor__in_nil. apply andb_false_r.
  - rewrite kor__in_nil. apply andb_false_r.
Qed.

Lemma Kor_filter_tilganger__in_nil (db : DB) :
  Kor_filter_tilganger__in db [] = [].
Proof.
  apply filter_none. intros k _. apply existsb_none. intros t _.
  apply andb_false_r.
Qed.

Lemma redigerTilgangQueryset_no_tilganger (consts : Consts) (db : DB)
    (today : date) (self : Medlem) (model : Model)
    (resModel : option Model) (fieldType : option FieldType)
    (qs : QuerySet (resModelOf model resModel)) :
  tilganger db today self = [] ->
  redigerTilgangQueryset consts db today self model resModel fieldType
    = Ok qs ->
  qs = [].
Proof.
  intros HT. unfold redigerTilgangQueryset, bareAktiveDecorator,
    redigerTilgangQueryset_func, tversAvKor_relatert.
  rewrite HT. cbn [filter_navn List.filter exists_ andb].
  rewrite Kor_filter_tilganger__in_nil.
  assert (Hsc : match resModel with
                | Some _ => false
                | None => false
                end = false) by (destruct resModel; reflexivity).
  rewrite Hsc. clear Hsc. revert qs.
  generalize (resModelOf model resModel). intros rm qs H.
  destruct (bool_decide (model = mMedlem)).
  - destruct (getInstancesForKor db rm []) as [q|e] eqn:E;
      [ | discriminate H].
    apply getInstancesForKor_nil in E. subst q. cbn [bind] in H.
    injection H as <-. destruct rm; try reflexivity.
    destruct (innstillinger_get self "bareAktive"); reflexivity.
  - destruct (modelTilTilgangNavn consts !! model_name model);
      [ | discriminate H].
    cbn [bind] in H.
    destruct (getInstancesForKor db rm []) as [q|e] eqn:E;
      [ | discriminate H].
    apply getInstancesForKor_nil in E. subst q. cbn [bind] in H.
    destruct (bool_decide (model = mVerv) || _); cbn [bind] in H;
      injection H as <-; destruct rm; try reflexivity;
      destruct (innstillinger_get self "bareAktive"); reflexivity.
Qed.

Lemma loggs_loop_no_tilganger (consts : Consts) (db : DB) (today : date)
    (self : Medlem) (loggedModels : list Model) (loggs : list Logg) :
  tilganger db today self = [] ->
  loggs_loop consts db today self loggedModels [] = Ok loggs ->
  loggs = [].
Proof.
  intros HT. induction loggedModels as [|lm rest IH]; simpl; intros H.
  - injection H as <-. reflexivity.
  - destruct (redigerTilgangQueryset consts db today self lm None None)
      as [qs|e] eqn:E; [ | discriminate H].
    apply (redigerTilgangQueryset_no_tilganger consts db today self lm
             None None qs HT) in E. subst qs. cbn [bind] in H.
    rewrite filter_none in H; [exact (IH H) | ].
    intros l _. rewrite andb_false_r. reflexivity.
Qed.

(** X6: a member with no tilgang, for instance with the setting
    [disableTilganger], edits and views nothing: every queryset
    [redigerTilgangQueryset] or [sideTilgangQueryset] returns is empty. *)
Theorem X6_no_tilganger_no_access :
  forall (consts : Consts) (db : DB) (today : date) (self : Medlem),
    tilganger db today self = [] ->
    (forall (model : Model) (resModel : option Model)
            (fieldType : option FieldType)
            (qs : QuerySet (resModelOf model resModel)),
        redigerTilgangQueryset consts db today self model resModel
          fieldType = Ok qs ->
        qs = []) /\
    (forall (model : Model) (qs : QuerySet model),
        sideTilgangQueryset consts db today self model = Ok qs ->
        qs = []).
Proof.
  intros consts db today self HT. split.
  - intros model resModel fieldType qs.
    apply redigerTilgangQueryset_no_tilganger, HT.
  - intros model qs H.
    unfold sideTilgangQueryset, bareAktiveDecorator in H.
    destruct (sideTilgangQueryset_func consts db today self model)
      as [q|e] eqn:E; [ | discriminate H].
    assert (Hq : q = []).
    { unfold sideTilgangQueryset_func in E. rewrite HT in E.
      cbn [filter_navn List.filter exists_] in E.
      assert (Hrest :
        forall q',
          match modelWithRelated consts !! model_name model with
          | Some relatedModel =>
              relatedTilgang <- relatedTilgang_of consts relatedModel ;;
              (if exists_ relatedTilgang &&
                  exists_ (filter_navn__in relatedTilgang [])
               then
                 a <- getInstancesForKor db model
                        (Kor_filter_tilganger__in db
                           (filter_navn__in relatedTilgang [])) ;;
                 b <- redigerTilgangQueryset consts db today self model
                        None None ;;
                 Ok (List.app a b)
               else redigerTilgangQueryset consts db today self model
                      None None)
          | None => redigerTilgangQueryset consts db today self model
                      None None
          end = Ok q' -> q' = []).
      { intros q' H'.
        pose proof (redigerTilgangQueryset_no_tilganger consts db today
                      self model None None q' HT) as Hred.
        destruct (modelWithRelated consts !! model_name model) as [rel|];
          [ | exact (Hred H')].
        destruct (relatedTilgang_of consts rel) as [rt|e];
          [ | discriminate H'].
        cbn [bind] in H'. unfold filter_navn__in in H'.
        cbn [List.filter exists_] in H'. rewrite andb_false_r in H'.
        exact (Hred H'). }
      destruct model; try exact (Hrest q E).
      exact (loggs_loop_no_tilganger consts db today self _ q HT E). }
    subst q. cbn [bind] in H. injection H as <-.
    destruct model; try reflexivity.
    destruct (innstillinger_get self "bareAktive"); reflexivity.
Qed.

Lemma X6_witness :
  (forall (model : Model) (resModel : option Model)
          (fieldType : option FieldType)
          (qs : QuerySet (resModelOf model resModel)),
      redigerTilgangQueryset consts_eksempel db_eksempel i_dag
        medlem_N_disable model resModel fieldType = Ok qs ->
      qs = []) /\
  (forall (model : Model) (qs : QuerySet model),
      sideTilgangQueryset consts_eksempel db_eksempel i_dag
        medlem_N_disable model = Ok qs ->
      qs = []).
Proof.
  apply (X6_no_tilganger_no_access consts_eksempel db_eksempel i_dag
           medlem_N_disable).
  vm_compute. reflexivity.
Defined.

(** X9: a member whose tilganger include those of another member, with the
    same setting [bareAktive], edits and views at least what the other
    does: every queryset the resolvers return for the second is included
    in the one they return for the first. *)
Theorem X9_resolvers_monotone_in_tilganger :
  forall (consts : Consts) (db : DB) (today : date) (self0 self1 : Medlem),
    innstillinger_get self0 "bareAktive" =
      innstillinger_get self1 "bareAktive" ->
    incl (tilganger db today self0) (tilganger db today self1) ->
    (forall (model : Model) (resModel : option Model)
            (fieldType : option FieldType),
        res_incl
          (redigerTilgangQueryset consts db today self0 model resModel
             fieldType)
          (redigerTilgangQueryset consts db today self1 model resModel
             fieldType)) /\
    (forall model : Model,
        res_incl (sideTilgangQueryset consts db today self0 model)
                 (sideTilgangQueryset consts db today self1 model)).
Proof.
  intros consts db today self0 self1 Hb Hi. split.
  - intros model resModel fieldType.
    apply bareAktiveDecorator_mono; [exact Hb | ].
    apply redigerTilgangQueryset_func_mono, Hi.
  - intros model. apply bareAktiveDecorator_mono; [exact Hb | ].
    apply sideTilgangQueryset_func_mono; assumption.
Qed.

Lemma X9_witness :
  (forall (model : Model) (resModel : option Model)
          (fieldType : option FieldType),
      res_incl
        (redigerTilgangQueryset consts_eksempel db_eksempel i_dag medlem_Q
           model resModel fieldType)
        (redigerTilgangQueryset consts_eksempel db_eksempel i_dag medlem_N
           model resModel fieldType)) /\
  (forall model : Model,
      res_incl
        (sideTilgangQueryset consts_eksempel db_eksempel i_dag medlem_Q
           model)
        (sideTilgangQueryset consts_eksempel db_eksempel i_dag medlem_N
           model)).
Proof.
  apply (X9_resolvers_monotone_in_tilganger consts_eksempel db_eksempel
           i_dag medlem_Q medlem_N).
  - vm_compute. reflexivity.
  - vm_compute. intros t [<- | []]. right. left. reflexivity.
Defined.

(** ** [getInstancesForKor] and [bareAktiveDecorator] *)

Lemma kor__in_app (k : option pk) (K1 K2 : list Kor) :
  kor__in k (List.app K1 K2) = kor__in k K1 || kor__in k K2.
Proof.
  destruct k as [k|]; [ | reflexivity]. unfold kor__in, pk__in.
  rewrite map_app. apply existsb_app.
Qed.

Lemma contains_Ok {A} (qs : list A) (x : A) :
  contains (Ok qs) x <-> In x qs.
Proof.
  split; [intros [q [E H]]; injection E as <-; exact H | ].
  intros H. exists qs. auto.
Qed.

Lemma contains_Raise {A} (e : Exception) (x : A) :
  ~ contains (@Raise (list A) e) x.
Proof. intros [q [E _]]. discriminate E. Qed.

Lemma existsb_kor__in_app {A} (g : A -> bool) (f : A -> option pk)
    (K1 K2 : list Kor) (l : list A) :
  existsb (fun y => g y && kor__in (f y) (List.app K1 K2)) l =
  existsb (fun y => g y && kor__in (f y) K1) l ||
  existsb (fun y => g y && kor__in (f y) K2) l.
Proof.
  induction l as [|y l IH]; [reflexivity | ].
  simpl. rewrite IH, kor__in_app.
  destruct (g y), (kor__in (f y) K1), (kor__in (f y) K2); simpl;
    rewrite ?orb_true_r; reflexivity.
Qed.

Lemma filter_orb_In {A} (f g h : A -> bool) (l : list A) (x : A) :
  (forall y, f y = g y || h y) ->
  In x (List.filter f l) <->
  In x (List.filter g l) \/ In x (List.filter h l).
Proof.
  intros Hf. rewrite !filter_In, Hf, orb_true_iff. tauto.
Qed.

(** X7: [getInstancesForKor] is additive in the choirs: an instance is
    returned for the union of two querysets of [Kor] exactly when it is
    returned for one of them. *)
Theorem X7_getInstancesForKor_additive :
  forall (db : DB) (model : Model) (K1 K2 : list Kor) (x : instance model),
    contains (getInstancesForKor db model (List.app K1 K2)) x <->
    contains (getInstancesForKor db model K1) x \/
    contains (getInstancesForKor db model K2) x.
Proof.
  intros db model K1 K2 x.
  destruct model; simpl;
    try (split; [intros H; destruct (contains_Raise _ _ H)
                | intros [H | H]; destruct (contains_Raise _ _ H)]);
    rewrite !contains_Ok;
    try (apply filter_orb_In; intros y; apply kor__in_app);
    try (apply filter_orb_In; intros y;
         apply (existsb_kor__in_app _ _ K1 K2)).
  - apply filter_orb_In. intros m.
    induction (VervInnehavelse_objects db) as [|vi l IH]; [reflexivity | ].
    simpl. rewrite IH.
    rewrite (existsb_kor__in_app _ verv_kor K1 K2 (Verv_objects db)).
    destruct (Pos.eqb (vi_medlem vi) (medlem_pk m)); simpl;
      [ | reflexivity].
    repeat match goal with |- context [existsb ?f ?l] =>
      destruct (existsb f l) end; reflexivity.
  - apply in_app_iff.
Qed.

(** X8: [bareAktiveDecorator] only removes rows, removes none of a model
    other than [Medlem] or when the setting [bareAktive] is off, and
    applied twice is the same as applied once. *)
Theorem X8_bareAktiveDecorator_idempotent :
  forall (db : DB) (today : date) (self : Medlem) (model : Model)
         (r : result (QuerySet model)),
    res_incl (bareAktiveDecorator db today self r) r /\
    bareAktiveDecorator db today self (bareAktiveDecorator db today self r)
      = bareAktiveDecorator db today self r /\
    (bool_decide (model = mMedlem) &&
     innstillinger_get self "bareAktive" = false ->
     bareAktiveDecorator db today self r = r).
Proof.
  intros db today self model r. unfold bareAktiveDecorator.
  destruct r as [q|e]; simpl.
  - split; [ | split].
    + apply res_incl_Ok. destruct model; try apply incl_refl.
      destruct (innstillinger_get self "bareAktive");
        [apply incl_filter | apply incl_refl].
    + f_equal. destruct model; try reflexivity.
      destruct (innstillinger_get self "bareAktive"); [ | reflexivity].
      apply filter_idem.
    + intros H. f_equal. destruct model; try reflexivity.
      simpl in H. rewrite H. reflexivity.
  - split; [apply res_incl_Raise | split; reflexivity].
Qed.

(** X10: a member of the table is among the instances
    [getInstancesForKor] returns for every choir of [Medlem.aktiveKor]. *)
Theorem X10_aktiveKor_within_getInstancesForKor :
  forall (db : DB) (today : date) (self : Medlem) (k : Kor),
    In self (Medlem_objects db) ->
    In k (aktiveKor db today self) ->
    contains (getInstancesForKor db mMedlem [k]) self.
Proof.
  intros db today self k Hself Hk. cbn [getInstancesForKor].
  apply contains_Ok.
  apply filter_In. split; [exact Hself | ].
  unfold aktiveKor in Hk. apply filter_In in Hk as [_ Hk].
  apply existsb_exists in Hk as [v [Hv H]].
  apply andb_true_iff in H as [H Hvi]. apply andb_true_iff in H as [Hkor Hs].
  apply existsb_exists in Hvi as [vi [Hvi H]].
  apply andb_true_iff in H as [H Hm]. apply andb_true_iff in H as [Hp _].
  apply existsb_exists. exists vi. split; [exact Hvi | ].
  rewrite Hm. cbn [andb]. apply existsb_exists. exists v.
  split; [exact Hv | ].
  rewrite Hs. apply Pos.eqb_eq in Hp. rewrite Hp, Pos.eqb_refl.
  cbn [andb]. apply option_pk_eqb_eq in Hkor. rewrite Hkor.
  unfold kor__in, pk__in. cbn [map existsb]. rewrite Pos.eqb_refl.
  reflexivity.
Qed.

Lemma X10_witness :
  contains (getInstancesForKor db_eksempel mMedlem [TSS]) medlem_M.
Proof.
  apply (X10_aktiveKor_within_getInstancesForKor db_eksempel i_dag
           medlem_M TSS).
  - simpl. auto.
  - vm_compute. auto.
Defined.

(** ** [Medlem.storkor] *)

Lemma first_by_start_In (qs : list VervInnehavelse) (vi : VervInnehavelse) :
  first_by_start qs = Some vi -> In vi qs.
Proof.
  revert vi. induction qs as [|x l IH]; [discriminate | ].
  simpl. intros vi. destruct (first_by_start l) as [vi'|].
  - destruct (Z.leb (start x) (start vi')); intros H; injection H as <-;
      [left; reflexivity | right; apply IH; reflexivity].
  - intros H. injection H as <-. left. reflexivity.
Qed.

Lemma first_by_start_None (qs : list VervInnehavelse) :
  first_by_start qs = None -> qs = [].
Proof.
  destruct qs as [|x l]; [reflexivity | ]. simpl.
  destruct (first_by_start l) as [vi'|];
    [destruct (Z.leb _ _) | ]; discriminate.
Qed.

(** X11: when the keys of the verv and of the kor are distinct,
    [Medlem.storkor] raises nothing and is never [None]: it is the empty
    string exactly when the member has no holding of a voice-group verv of
    TSS or TKS, and otherwise a stored kor whose [kortTittel] is TSS or
    TKS. *)
Theorem X11_storkor_is_TSS_TKS_or_empty :
  forall (db : DB) (self : Medlem),
    (forall v v', In v (Verv_objects db) -> In v' (Verv_objects db) ->
                  verv_pk v = verv_pk v' -> v = v') ->
    (forall k k', In k (Kor_objects db) -> In k' (Kor_objects db) ->
                  kor_pk k = kor_pk k' -> k = k') ->
    (storkor db self = Ok storkor_tomStreng /\
     firstStemmegruppeVervInnehavelse db self = None) \/
    (exists k, storkor db self = Ok (storkor_Kor k) /\
               In k (Kor_objects db) /\
               (kortTittel k = "TSS" \/ kortTittel k = "TKS")).
Proof.
  intros db self HV HK. unfold storkor.
  destruct (firstStemmegruppeVervInnehavelse db self) as [vi|] eqn:E;
    [right | left; auto].
  unfold firstStemmegruppeVervInnehavelse in E.
  apply first_by_start_In, filter_In in E as [Hvi H].
  apply andb_true_iff in H as [_ H].
  apply existsb_exists in H as [v [Hv H]].
  apply andb_true_iff in H as [H Hk]. apply andb_true_iff in H as [Hp _].
  apply existsb_exists in Hk as [k [Hk H]].
  apply andb_true_iff in H as [Hvk Ht].
  apply Pos.eqb_eq in Hp. apply option_pk_eqb_eq in Hvk.
  destruct (List.find _ (Verv_objects db)) as [v'|] eqn:Fv.
  2:{ apply (find_none _ _ Fv) in Hv. apply Pos.eqb_neq in Hv.
      contradiction. }
  apply find_some in Fv as [Hv' Hp']. apply Pos.eqb_eq in Hp'.
  assert (v' = v) by (apply HV; congruence). subst v'. rewrite Hvk.
  destruct (List.find _ (Kor_objects db)) as [k'|] eqn:Fk.
  2:{ apply (find_none _ _ Fk) in Hk. rewrite Pos.eqb_refl in Hk.
      discriminate Hk. }
  apply find_some in Fk as [Hk' Hq]. apply Pos.eqb_eq in Hq.
  assert (k' = k) by (apply HK; congruence). subst k'.
  exists k. split; [reflexivity | split; [exact Hk | ]].
  simpl in Ht. rewrite orb_false_r in Ht. apply orb_true_iff in Ht.
  destruct Ht as [Ht | Ht]; apply String.eqb_eq in Ht; auto.
Qed.

Lemma db_eksempel_verv_pk (v v' : Verv) :
  In v (Verv_objects db_eksempel) -> In v' (Verv_objects db_eksempel) ->
  verv_pk v = verv_pk v' -> v = v'.
Proof.
  intros Hv Hv' Heq. simpl in Hv, Hv'.
  repeat (destruct Hv as [<- | Hv]);
    repeat (destruct Hv' as [<- | Hv']);
    try reflexivity; try discriminate Heq; try destruct Hv;
    try destruct Hv'.
Qed.

Lemma db_eksempel_kor_pk (k k' : Kor) :
  In k (Kor_objects db_eksempel) -> In k' (Kor_objects db_eksempel) ->
  kor_pk k = kor_pk k' -> k = k'.
Proof.
  intros Hk Hk' Heq. simpl in Hk, Hk'.
  repeat (destruct Hk as [<- | Hk]);
    repeat (destruct Hk' as [<- | Hk']);
    try reflexivity; try discriminate Heq; try destruct Hk;
    try destruct Hk'.
Qed.

Lemma X11_witness :
  (storkor db_eksempel medlem_P = Ok storkor_tomStreng /\
   firstStemmegruppeVervInnehavelse db_eksempel medlem_P = None) \/
  (exists k, storkor db_eksempel medlem_P = Ok (storkor_Kor k) /\
             In k (Kor_objects db_eksempel) /\
             (kortTittel k = "TSS" \/ kortTittel k = "TKS")).
Proof.
  apply (X11_storkor_is_TSS_TKS_or_empty db_eksempel medlem_P).
  - exact db_eksempel_verv_pk.
  - exact db_eksempel_kor_pk.
Defined.

(** ** [removeFalsy] and [Medlem.navBar] *)

(** The loop of [removeFalsy] on the items of a dict. *)
Lemma removeFalsy_side_SDict (d : dict) :
  removeFalsy_side (SDict d) =
  bind ((fix loop (d : dict) : result dict :=
           match d with
           | [] => Ok []
           | (side, v) :: rest =>
               if falsy v then Raise RuntimeError
               else
                 v' <- removeFalsy_side v ;;
                 rest' <- loop rest ;;
                 Ok ((side, v') :: rest')
           end) d)
       (fun d' => match d' with
                  | [] => Raise UnboundLocalError
                  | _ => Ok (SDict d')
                  end).
Proof. reflexivity. Qed.

Lemma alle_sanne_SDict (d : dict) :
  alle_sanne (SDict d) =
  match d with [] => false | _ => true end &&
  forallb (fun kv => alle_sanne (snd kv)) d.
Proof.
  simpl. f_equal. induction d as [|[k v] rest IH]; [reflexivity | ].
  simpl. rewrite IH. reflexivity.
Qed.

Lemma alle_sanne_not_falsy (s : Side) :
  alle_sanne s = true -> falsy s = false.
Proof.
  destruct s as [b|d]; simpl.
  - intros ->. reflexivity.
  - destruct d; [discriminate | reflexivity].
Qed.

Lemma dybde_item (d : dict) (k : string) (v : Side) :
  In (k, v) d -> dybde v < dybde (SDict d).
Proof.
  simpl. induction d as [|[k' v'] rest IH]; [intros [] | ].
  intros [H | H].
  - injection H as -> ->. lia.
  - specialize (IH H). lia.
Qed.

Lemma removeFalsy_side_spec (n : nat) :
  forall s, dybde s < n ->
    (alle_sanne s = true -> removeFalsy_side s = Ok s) /\
    (forall s', removeFalsy_side s = Ok s' ->
                s' = s /\ (alle_sanne s = true \/ s = SBool false)) /\
    (forall e, removeFalsy_side s = Raise e ->
               e = RuntimeError \/ e = UnboundLocalError).
Proof.
  induction n as [|n IH]; [intros s H; lia | ].
  intros [b|d] Hn.
  { simpl. split; [reflexivity | ]. split; [ | discriminate].
    intros s' H. injection H as <-. split; [reflexivity | ].
    destruct b; auto. }
  rewrite removeFalsy_side_SDict, alle_sanne_SDict.
  assert (Hitems : forall k v, In (k, v) d -> dybde v < n).
  { intros k v Hin. pose proof (dybde_item d k v Hin). lia. }
  clear Hn.
  assert (Hloop :
    (forallb (fun kv => alle_sanne (snd kv)) d = true ->
     (fix loop (d : dict) : result dict :=
        match d with
        | [] => Ok []
        | (side, v) :: rest =>
            if falsy v then Raise RuntimeError
            else
              v' <- removeFalsy_side v ;;
              rest' <- loop rest ;;
              Ok ((side, v') :: rest')
        end) d = Ok d) /\
    (forall d',
     (fix loop (d : dict) : result dict :=
        match d with
        | [] => Ok []
        | (side, v) :: rest =>
            if falsy v then Raise RuntimeError
            else
              v' <- removeFalsy_side v ;;
              rest' <- loop rest ;;
              Ok ((side, v') :: rest')
        end) d = Ok d' ->
     d' = d /\ forallb (fun kv => alle_sanne (snd kv)) d = true) /\
    (forall e,
     (fix loop (d : dict) : result dict :=
        match d with
        | [] => Ok []
        | (side, v) :: rest =>
            if falsy v then Raise RuntimeError
            else
              v' <- removeFalsy_side v ;;
              rest' <- loop rest ;;
              Ok ((side, v') :: rest')
        end) d = Raise e ->
     e = RuntimeError \/ e = UnboundLocalError)).
  { induction d as [|[k v] rest IHd].
    - split; [reflexivity | ]. split; [ | discriminate].
      intros d' H. injection H as <-. auto.
    - destruct (IH v (Hitems k v (or_introl eq_refl))) as [Hv1 [Hv2 Hv3]].
      destruct IHd as [Hr1 [Hr2 Hr3]].
      { intros k' v' Hin. apply (Hitems k' v'). right. exact Hin. }
      cbn [forallb snd]. split; [ | split].
      + intros H. apply andb_true_iff in H as [Ha Hb].
        rewrite (alle_sanne_not_falsy v Ha), (Hv1 Ha). cbn [bind].
        rewrite (Hr1 Hb). reflexivity.
      + intros d' H. destruct (falsy v) eqn:Hf; [discriminate H | ].
        destruct (removeFalsy_side v) as [v'|e] eqn:Ev;
          [ | discriminate H].
        cbn [bind] in H.
        match type of H with bind ?l _ = _ =>
          destruct l as [rest'|e] eqn:Er; [ | discriminate H] end.
        cbn [bind] in H. injection H as <-.
        destruct (Hv2 v' eq_refl) as [-> Hs].
        destruct (Hr2 rest' eq_refl) as [-> Hb]. split; [reflexivity | ].
        rewrite Hb, andb_true_r.
        destruct Hs as [Hs | ->]; [exact Hs | discriminate Hf].
      + intros e H. destruct (falsy v); [injection H as <-; auto | ].
        destruct (removeFalsy_side v) as [v'|e'] eqn:Ev.
        * cbn [bind] in H.
          match type of H with bind ?l _ = _ =>
            destruct l as [rest'|e''] eqn:Er; [discriminate H | ] end.
          cbn [bind] in H. injection H as <-. apply Hr3. reflexivity.
        * cbn [bind] in H. injection H as <-. apply Hv3. reflexivity. }
  destruct Hloop as [H1 [H2 H3]].
  match goal with |- context [bind ?l _] => destruct l as [d'|e] eqn:El end;
    cbn [bind].
  - destruct (H2 d' eq_refl) as [-> Hall]. rewrite Hall, andb_true_r.
    destruct d as [|kv rest].
    + split; [discriminate | ]. split; [discriminate | ].
      intros e H. injection H as <-. auto.
    + split; [reflexivity | ]. split; [ | discriminate].
      intros s' H. injection H as <-. auto.
  - split.
    + intros H. apply andb_true_iff in H as [_ H].
      specialize (H1 H). discriminate H1.
    + split; [discriminate | ]. intros e' H. injection H as <-.
      apply H3. reflexivity.
Qed.

(** X12: [removeFalsy] removes nothing and collapses nothing: when it
    returns, the dict is the one it was given, and it returns exactly when
    the dict has an item and no value of it is falsy at any depth;
    otherwise it raises [RuntimeError] or [UnboundLocalError], the latter
    on the empty dict. *)
Theorem X12_removeFalsy_returns_its_argument :
  forall sider : dict,
    (forall d, removeFalsy sider = Ok d <->
               d = sider /\ alle_sanne (SDict sider) = true) /\
    (forall e, removeFalsy sider = Raise e ->
               e = RuntimeError \/ e = UnboundLocalError) /\
    removeFalsy [] = Raise UnboundLocalError.
Proof.
  intros sider.
  destruct (removeFalsy_side_spec (S (dybde (SDict sider))) (SDict sider))
    as [H1 [H2 H3]]; [lia | ].
  unfold removeFalsy. split; [ | split; [ | reflexivity]].
  - intros d. split.
    + intros H.
      destruct (removeFalsy_side (SDict sider)) as [s|e] eqn:E;
        [ | discriminate H].
      destruct (H2 s eq_refl) as [-> [Ha | Hb]]; [ | discriminate Hb].
      cbn [bind] in H. injection H as <-. auto.
    + intros [-> Ha]. rewrite (H1 Ha). reflexivity.
  - intros e H.
    destruct (removeFalsy_side (SDict sider)) as [s|e'] eqn:E.
    + cbn [bind] in H. destruct s; discriminate H.
    + cbn [bind] in H. injection H as <-. apply H3. reflexivity.
Qed.

Lemma removeFalsy_Ok_eq (sider d : dict) :
  removeFalsy sider = Ok d -> d = sider.
Proof.
  destruct (removeFalsy_side_spec (S (dybde (SDict sider))) (SDict sider))
    as [_ [H2 _]]; [lia | ].
  unfold removeFalsy. intros H.
  destruct (removeFalsy_side (SDict sider)) as [s|e]; [ | discriminate H].
  destruct (H2 s eq_refl) as [-> _]. cbn [bind] in H.
  injection H as <-. reflexivity.
Qed.

Lemma keys_dict_set (d : dict) (key : string) (value : Side) (k : string) :
  In k (keys (dict_set d key value)) <-> In k (keys d) \/ k = key.
Proof.
  unfold keys. induction d as [|[k' v'] rest IH]; simpl.
  - intuition congruence.
  - destruct (String.eqb_spec k' key) as [-> | Hne]; simpl.
    + intuition congruence.
    + rewrite IH. tauto.
Qed.

Lemma existsb_eqb_In (navn : string) (l : list string) :
  existsb (String.eqb navn) l = true <-> In navn l.
Proof.
  rewrite existsb_exists. split.
  - intros [x [Hx E]]. apply String.eqb_eq in E. subst. exact Hx.
  - intros H. exists navn. split; [exact H | apply String.eqb_refl].
Qed.

Lemma keys_set_if (tn : list string) (navn side : string) (value : Side)
    (sider : dict) (k : string) :
  In k (keys (set_if tn navn side value sider)) <->
  In k (keys sider) \/ (k = side /\ In navn tn).
Proof.
  unfold set_if. destruct (existsb (String.eqb navn) tn) eqn:E.
  - apply existsb_eqb_In in E. rewrite keys_dict_set. tauto.
  - split; [auto | ]. intros [H | [_ H]]; [exact H | ].
    apply existsb_eqb_In in H. rewrite H in E. discriminate E.
Qed.

Lemma exists__true_iff {A} (l : list A) : exists_ l = true <-> l <> [].
Proof. destruct l; simpl; split; congruence. Qed.

(** X13: when [Medlem.navBar] returns, its top-level keys are
    [sjekkheftet], [semesterplan] when the member is active in a choir,
    [loggListe] when the member holds any tilgang, and the list pages the
    names of the held tilganger open, as [navBar_side] tabulates them; no
    other key is present. *)
Theorem X13_navBar_top_level_keys :
  forall (consts : Consts) (db : DB) (today : date) (self : Medlem)
         (sider : dict),
    navBar consts db today self = Ok sider ->
    forall k : string, In k (keys sider) <-> navBar_side db today self k.
Proof.
  intros consts db today self sider H k.
  unfold navBar in H.
  destruct (storkor db self) as [sk|e]; [ | discriminate H].
  cbn [bind] in H.
  destruct (match sk with
            | storkor_Kor k0 => Ok (kortTittel k0)
            | _ => Raise AttributeError
            end) as [kt|e]; [ | discriminate H].
  cbn [bind] in H.
  destruct (sjekkheftet_loop _ _) as [sj|e]; [ | discriminate H].
  cbn [bind] in H. apply removeFalsy_Ok_eq in H. subst sider.
  fold (tilgangNavn db today self).
  rewrite !keys_set_if.
  unfold navBar_side, har.
  assert (Hbase :
    In k (keys
      (if exists_ (tilgangNavn db today self)
       then dict_set
              (if exists_ (aktiveKor db today self)
               then dict_set (dict_set [] "sjekkheftet" (SDict sj))
                      "semesterplan"
                      (SDict (toDict (map kortTittel
                                        (aktiveKor db today self))))
               else dict_set [] "sjekkheftet" (SDict sj))
              "loggListe" (SBool true)
       else
         if exists_ (aktiveKor db today self)
         then dict_set (dict_set [] "sjekkheftet" (SDict sj))
                "semesterplan"
                (SDict (toDict (map kortTittel (aktiveKor db today self))))
         else dict_set [] "sjekkheftet" (SDict sj))) <->
    k = "sjekkheftet" \/
    (k = "semesterplan" /\ aktiveKor db today self <> []) \/
    (k = "loggListe" /\ tilgangNavn db today self <> [])).
  { rewrite <- !exists__true_iff.
    destruct (exists_ (tilgangNavn db today self));
      destruct (exists_ (aktiveKor db today self));
      rewrite ?keys_dict_set; simpl; intuition congruence. }
  rewrite Hbase. tauto.
Qed.

(** X14: when [Medlem.navBar] returns for a member who holds no tilgang
    and is active in no choir, the tree has the single top-level key
    [sjekkheftet]. *)
Theorem X14_navBar_without_rights_is_sjekkheftet :
  forall (consts : Consts) (db : DB) (today : date) (self : Medlem)
         (sider : dict),
    tilganger db today self = [] ->
    aktiveKor db today self = [] ->
    navBar consts db today self = Ok sider ->
    exists sjekkheftet : dict, sider = [("sjekkheftet", SDict sjekkheftet)].
Proof.
  intros consts db today self sider HT HA H.
  unfold navBar in H.
  destruct (storkor db self) as [sk|e]; [ | discriminate H].
  cbn [bind] in H.
  destruct (match sk with
            | storkor_Kor k0 => Ok (kortTittel k0)
            | _ => Raise AttributeError
            end) as [kt|e]; [ | discriminate H].
  cbn [bind] in H.
  destruct (sjekkheftet_loop _ _) as [sj|e]; [ | discriminate H].
  cbn [bind] in H. apply removeFalsy_Ok_eq in H. subst sider.
  rewrite HT, HA. exists sj. reflexivity.
Qed.

Lemma X14_witness :
  exists sjekkheftet : dict,
    [("sjekkheftet",
      SDict [("TSS", SBool true); ("TKS", SBool true); ("søk", SBool true);
             ("jubileum", SBool true); ("sjekkhefTest", SBool true)])]
    = [("sjekkheftet", SDict sjekkheftet)].
Proof.
  apply (X14_navBar_without_rights_is_sjekkheftet consts_eksempel
           db_eksempel i_dag medlem_P);
    vm_compute; reflexivity.
Defined.

Lemma X13_witness :
  In "fraværListe"
    ["sjekkheftet"; "semesterplan"; "loggListe"; "hendelseListe";
     "fraværListe"] <->
  navBar_side db_eksempel i_dag medlem_M "fraværListe".
Proof.
  apply (X13_navBar_top_level_keys consts_eksempel db_eksempel i_dag
           medlem_M
           [("sjekkheftet",
             SDict [("TSS", SBool true); ("TKS", SBool true);
                    ("søk", SBool true); ("jubileum", SBool true);
                    ("sjekkhefTest", SBool true)]);
            ("semesterplan", SDict [("TSS", SBool true)]);
            ("loggListe", SBool true); ("hendelseListe", SBool true);
            ("fraværListe", SDict [("TSS", SBool true)])]
           eq_refl "fraværListe").
Defined.

Lemma removeFalsy_Ok_alle_sanne (sider d : dict) :
  removeFalsy sider = Ok d -> alle_sanne (SDict sider) = true.
Proof.
  destruct (removeFalsy_side_spec (S (dybde (SDict sider))) (SDict sider))
    as [_ [H2 _]]; [lia | ].
  unfold removeFalsy. intros H.
  destruct (removeFalsy_side (SDict sider)) as [s|e]; [ | discriminate H].
  destruct (H2 s eq_refl) as [_ [Ha | Hb]]; [exact Ha | discriminate Hb].
Qed.

Lemma alle_sanne_item (d : dict) (k : string) (v : Side) :
  alle_sanne (SDict d) = true -> In (k, v) d -> alle_sanne v = true.
Proof.
  rewrite alle_sanne_SDict. intros H Hin.
  apply andb_true_iff in H as [_ H]. rewrite forallb_forall in H.
  exact (H (k, v) Hin).
Qed.

Lemma In_dict_set_same (d : dict) (key : string) (value : Side) :
  In (key, value) (dict_set d key value).
Proof.
  induction d as [|[k v] rest IH]; simpl; [auto | ].
  destruct (String.eqb_spec k key) as [-> | Hne]; simpl; auto.
Qed.

Lemma In_dict_set_other (d : dict) (key k : string) (value v : Side) :
  k <> key -> In (k, v) d -> In (k, v) (dict_set d key value).
Proof.
  intros Hne. induction d as [|[k' v'] rest IH]; simpl; [auto | ].
  destruct (String.eqb_spec k' key) as [-> | Hne']; simpl.
  - intros [H | H]; [injection H as -> ->; congruence | auto].
  - intros [H | H]; auto.
Qed.

Lemma In_set_if_other (tn : list string) (navn side k : string)
    (value v : Side) (sider : dict) :
  k <> side -> In (k, v) sider -> In (k, v) (set_if tn navn side value sider).
Proof.
  intros Hne Hin. unfold set_if.
  destruct (existsb _ _); [apply In_dict_set_other; assumption | exact Hin].
Qed.

(** X15: a member who holds a tilgang named [fravær], none of whose
    [fravær] tilganger belongs to a stored choir, gets no navigation tree:
    [navBar] sets [fraværListe] to an empty dict, which [removeFalsy]
    cannot remove, and raises. *)
Theorem X15_navBar_raises_on_empty_section :
  forall (consts : Consts) (db : DB) (today : date) (self : Medlem)
         (sider : dict),
    har db today self "fravær" ->
    Kor_filter_tilganger__in db
      (filter_navn "fravær" (tilganger db today self)) = [] ->
    navBar consts db today self <> Ok sider.
Proof.
  intros consts db today self sider Hhar Hkor H.
  unfold navBar in H.
  destruct (storkor db self) as [sk|e]; [ | discriminate H].
  cbn [bind] in H.
  destruct (match sk with
            | storkor_Kor k0 => Ok (kortTittel k0)
            | _ => Raise AttributeError
            end) as [kt|e]; [ | discriminate H].
  cbn [bind] in H.
  destruct (sjekkheftet_loop _ _) as [sj|e]; [ | discriminate H].
  cbn [bind] in H. apply removeFalsy_Ok_alle_sanne in H.
  rewrite Hkor in H. fold (tilgangNavn db today self) in H.
  match type of H with alle_sanne (SDict ?d) = true =>
    assert (Hin : In ("fraværListe", SDict []) d) end.
  { repeat (apply In_set_if_other; [discriminate | ]).
    unfold set_if at 1.
    rewrite (proj2 (existsb_eqb_In "fravær" _) Hhar).
    apply In_dict_set_same. }
  pose proof (alle_sanne_item _ _ _ H Hin) as Hf. discriminate Hf.
Qed.

Lemma X15_witness :
  navBar consts_eksempel db_fravær_uten_kor i_dag medlem_M =
    Raise RuntimeError /\
  navBar consts_eksempel db_fravær_uten_kor i_dag medlem_M <>
    Ok [("sjekkheftet", SDict [])].
Proof.
  split; [vm_compute; reflexivity | ].
  apply (X15_navBar_raises_on_empty_section consts_eksempel
           db_fravær_uten_kor i_dag medlem_M).
  - vm_compute. auto.
  - vm_compute. reflexivity.
Defined.

(** ** Deleting a [Verv] or a [Tilgang] *)

Lemma exists__false_nil {A} (l : list A) : exists_ l = false -> l = [].
Proof. destruct l; [reflexivity | discriminate]. Qed.

Lemma filter_nil_false {A} (f : A -> bool) (l : list A) (x : A) :
  List.filter f l = [] -> In x l -> f x = false.
Proof.
  intros H Hin. destruct (f x) eqn:E; [ | reflexivity].
  assert (Hx : In x (List.filter f l)) by (apply filter_In; auto).
  rewrite H in Hx. destruct Hx.
Qed.

Lemma existsb_filter_irrelevant {A} (f keep : A -> bool) (l : list A) :
  (forall x, In x l -> keep x = false -> f x = false) ->
  existsb f (List.filter keep l) = existsb f l.
Proof.
  induction l as [|x l IH]; intros H; [reflexivity | ].
  simpl. destruct (keep x) eqn:E; simpl.
  - rewrite IH; [reflexivity | ]. intros y Hy. apply H. right. exact Hy.
  - rewrite (H x (or_introl eq_refl) E). simpl.
    apply IH. intros y Hy. apply H. right. exact Hy.
Qed.

Lemma filter_filter_irrelevant {A} (f keep : A -> bool) (l : list A) :
  (forall x, In x l -> keep x = false -> f x = false) ->
  List.filter f (List.filter keep l) = List.filter f l.
Proof.
  induction l as [|x l IH]; intros H; [reflexivity | ].
  simpl. destruct (keep x) eqn:E; simpl.
  - rewrite IH; [reflexivity | ]. intros y Hy. apply H. right. exact Hy.
  - rewrite (H x (or_introl eq_refl) E).
    apply IH. intros y Hy. apply H. right. exact Hy.
Qed.

Lemma filter_ext_in_bool {A} (f g : A -> bool) (l : list A) :
  (forall x, In x l -> f x = g x) -> List.filter f l = List.filter g l.
Proof.
  induction l as [|x l IH]; intros H; [reflexivity | ].
  simpl. rewrite (H x (or_introl eq_refl)), IH; [reflexivity | ].
  intros y Hy. apply H. right. exact Hy.
Qed.

Lemma tilganger_of_faktiske (db db' : DB) (today : date) (self : Medlem) :
  faktiskeTilganger db' today self = faktiskeTilganger db today self ->
  tilganger db' today self = tilganger db today self.
Proof. intros H. unfold tilganger. rewrite H. reflexivity. Qed.

(** X16: [Verv.delete] raises [nonEmptyM2M] exactly when a tilgang is
    granted through the verv, a [ProtectedError] when none is and a holding
    refers to the verv, and leaves the database as it was in both cases;
    otherwise it removes the rows of that key, after which no holding and
    no tilgang refers to the key, and the tilganger of every member are what
    they were. *)
Theorem X16_Verv_delete_keeps_tilganger :
  forall (db : DB) (self : Verv),
    (Verv_tilganger db self <> [] ->
     Verv_delete self db = (Raise (ValidationError "nonEmptyM2M"), db)) /\
    (Verv_tilganger db self = [] ->
     (exists vi, In vi (VervInnehavelse_objects db) /\
                 vi_verv vi = verv_pk self) ->
     Verv_delete self db = (Raise IntegrityError, db)) /\
    (forall db', Verv_delete self db = (Ok tt, db') ->
       (forall v, In v (Verv_objects db') <->
                  In v (Verv_objects db) /\ verv_pk v <> verv_pk self) /\
       (forall vi, In vi (VervInnehavelse_objects db') ->
                   vi_verv vi <> verv_pk self) /\
       (forall t, In t (Tilgang_objects db') ->
                  ~ In (verv_pk self) (tilgang_verv t)) /\
       (forall (today : date) (medlem : Medlem),
           tilganger db' today medlem = tilganger db today medlem)).
Proof.
  intros db self. unfold Verv_delete. cbn [validateM2MFieldEmpty].
  split; [ | split].
  - intros H. apply exists__true_iff in H. rewrite H. reflexivity.
  - intros H [vi [Hvi Hp]]. rewrite H. cbn [exists_].
    assert (He : existsb (fun vi => Pos.eqb (vi_verv vi) (verv_pk self))
                   (VervInnehavelse_objects db) = true).
    { apply existsb_exists. exists vi. split; [exact Hvi | ].
      apply Pos.eqb_eq, Hp. }
    rewrite He. reflexivity.
  - intros db' H.
    destruct (exists_ (Verv_tilganger db self)) eqn:Et; [discriminate H | ].
    apply exists__false_nil in Et.
    destruct (existsb _ (VervInnehavelse_objects db)) eqn:Ev;
      [discriminate H | ].
    injection H as <-. cbn [set_Verv_objects Verv_objects
      VervInnehavelse_objects Tilgang_objects].
    assert (Hnot : forall t, In t (Tilgang_objects db) ->
                     pk__in (verv_pk self) (tilgang_verv t) = false).
    { intros t Ht. exact (filter_nil_false _ _ t Et Ht). }
    split; [ | split; [ | split]].
    + intros v. rewrite filter_In, negb_true_iff, Pos.eqb_neq. tauto.
    + intros vi Hvi Heq.
      assert (Ht : existsb (fun vi => Pos.eqb (vi_verv vi) (verv_pk self))
                     (VervInnehavelse_objects db) = true).
      { apply existsb_exists. exists vi. split; [exact Hvi | ].
        apply Pos.eqb_eq, Heq. }
      rewrite Ht in Ev. discriminate Ev.
    + intros t Ht Hin. apply pk__in_In in Hin. rewrite (Hnot t Ht) in Hin.
      discriminate Hin.
    + intros today medlem. apply tilganger_of_faktiske.
      unfold faktiskeTilganger. cbn [Verv_objects VervInnehavelse_objects
        Tilgang_objects].
      apply filter_ext_in_bool. intros t Ht.
      apply existsb_filter_irrelevant. intros v _ Hk.
      apply negb_false_iff, Pos.eqb_eq in Hk. rewrite Hk, (Hnot t Ht).
      reflexivity.
Qed.

(** X17: [Tilgang.delete] raises [nonEmptyM2M] and leaves the database as
    it was exactly when a stored verv grants the tilgang; otherwise it
    removes the rows of that key, and when the deleted tilgang is the only
    stored row of its key, the tilganger of every member are what they were
    without it: the deleted tilgang was held by nobody. *)
Theorem X17_Tilgang_delete_keeps_tilganger :
  forall (db : DB) (self : Tilgang),
    (Tilgang_verv db self <> [] ->
     Tilgang_delete self db = (Raise (ValidationError "nonEmptyM2M"), db)) /\
    (forall db', Tilgang_delete self db = (Ok tt, db') ->
       Tilgang_verv db self = [] /\
       (forall t, In t (Tilgang_objects db') <->
                  In t (Tilgang_objects db) /\
                  tilgang_pk t <> tilgang_pk self) /\
       ((forall t, In t (Tilgang_objects db) ->
                   tilgang_pk t = tilgang_pk self -> t = self) ->
        forall (today : date) (medlem : Medlem),
          tilganger db' today medlem = tilganger db today medlem)).
Proof.
  intros db self. unfold Tilgang_delete. cbn [validateM2MFieldEmpty].
  split.
  - intros H. apply exists__true_iff in H. rewrite H. reflexivity.
  - intros db' H.
    destruct (exists_ (Tilgang_verv db self)) eqn:Et; [discriminate H | ].
    apply exists__false_nil in Et. injection H as <-.
    cbn [set_Tilgang_objects Tilgang_objects].
    split; [exact Et | split].
    + intros t. rewrite filter_In, negb_true_iff, Pos.eqb_neq. tauto.
    + intros Huniq today medlem. apply tilganger_of_faktiske.
      unfold faktiskeTilganger. cbn [Verv_objects VervInnehavelse_objects
        Tilgang_objects].
      symmetry. rewrite <- (filter_filter_irrelevant _
        (fun t => negb (Pos.eqb (tilgang_pk t) (tilgang_pk self)))
        (Tilgang_objects db)); [reflexivity | ].
      intros t Ht Hk. apply negb_false_iff, Pos.eqb_eq in Hk.
      rewrite (Huniq t Ht Hk). apply existsb_none. intros v Hv.
      rewrite (filter_nil_false _ _ v Et Hv). reflexivity.
Qed.

(** ** [Hendelse.medlemmer] and [Oppmøte.clean] *)

(** X18: a member [Hendelse.medlemmer] expects at a hendelse belongs to a
    hendelse that is not FRIVILLIG, has on the start date no active holding
    of Permisjon in the choir of the hendelse, and is among the instances
    [getInstancesForKor] returns for [Medlem] and that choir. *)
Theorem X18_Hendelse_medlemmer_not_on_leave :
  forall (db : DB) (today : date) (h : HendelseInstance) (m : Medlem),
    In m (Hendelse_medlemmer db today h) ->
    kategori h <> FRIVILLIG /\
    In m (Medlem_objects db) /\
    ~ (exists vi v,
          In vi (VervInnehavelse_objects db) /\
          vi_medlem vi = medlem_pk m /\
          vervInnehavelseAktiv today (Some (startDate h)) vi = true /\
          In v (Verv_objects db) /\ verv_pk v = vi_verv vi /\
          verv_navn v = "Permisjon" /\
          verv_kor v = hendelse_instance_kor h) /\
    (forall k, hendelse_instance_kor h = Some (kor_pk k) ->
               contains (getInstancesForKor db mMedlem [k]) m).
Proof.
  intros db today h m Hm. unfold Hendelse_medlemmer in Hm.
  assert (Hk : kategori h <> FRIVILLIG).
  { intros E. rewrite E in Hm. destruct Hm. }
  assert (Hin : In m (filterIkkePermitert db today (Medlem_objects db)
                        (hendelse_instance_kor h) (Some (startDate h)))).
  { destruct (kategori h); [exact Hm | exact Hm | congruence]. }
  clear Hm. unfold filterIkkePermitert in Hin.
  apply filter_In in Hin as [Hin Hperm].
  apply filter_In in Hin as [Hobj Hakt].
  split; [exact Hk | split; [exact Hobj | split]].
  - intros [vi [v [Hvi [Hmed [Ha [Hv [Hp [Hn Hkor]]]]]]]].
    apply negb_true_iff in Hperm.
    assert (Ht : pk__in (medlem_pk m)
                   (map medlem_pk
                      (List.filter (fun m0 =>
                         existsb (fun vi0 =>
                           Pos.eqb (vi_medlem vi0) (medlem_pk m0) &&
                           vervInnehavelseAktiv today
                             (Some (startDate h)) vi0 &&
                           existsb (fun v0 =>
                             Pos.eqb (verv_pk v0) (vi_verv vi0) &&
                             String.eqb (verv_navn v0) "Permisjon" &&
                             option_pk_eqb (verv_kor v0)
                               (hendelse_instance_kor h))
                             (Verv_objects db))
                           (VervInnehavelse_objects db))
                         (Medlem_objects db))) = true).
    { apply pk__in_In, in_map, filter_In. split; [exact Hobj | ].
      apply existsb_exists. exists vi. split; [exact Hvi | ].
      rewrite (proj2 (Pos.eqb_eq _ _) Hmed), Ha. cbn [andb].
      apply existsb_exists. exists v. split; [exact Hv | ].
      rewrite (proj2 (Pos.eqb_eq _ _) Hp), Hn, Hkor. cbn [andb].
      rewrite String.eqb_refl. cbn [andb].
      destruct (hendelse_instance_kor h); cbn;
        [apply Pos.eqb_refl | reflexivity]. }
    rewrite Ht in Hperm. discriminate Hperm.
  - intros k Hkor. cbn [getInstancesForKor]. apply contains_Ok.
    apply filter_In. split; [exact Hobj | ].
    revert Hakt. apply existsb_mono. intros vi _ H.
    apply andb_true_iff in H as [H Hv]. apply andb_true_iff in H as [H1 _].
    rewrite H1. cbn [andb]. revert Hv. apply existsb_mono. intros v _ H.
    apply andb_true_iff in H as [H H3]. apply andb_true_iff in H as [H2 Hs].
    rewrite H2. cbn [andb].
    assert (Hs' : stemmegruppeVerv true true (verv_navn v) = true).
    { unfold stemmegruppeVerv in *. rewrite Hs. reflexivity. }
    rewrite Hs'. cbn [andb]. apply option_pk_eqb_eq in H3.
    rewrite H3, Hkor. unfold kor__in, pk__in. cbn [map existsb].
    rewrite Pos.eqb_refl. reflexivity.
Qed.

Lemma X18_witness :
  kategori øvelse <> FRIVILLIG /\
  In medlem_M (Medlem_objects db_eksempel) /\
  ~ (exists vi v,
        In vi (VervInnehavelse_objects db_eksempel) /\
        vi_medlem vi = medlem_pk medlem_M /\
        vervInnehavelseAktiv i_dag (Some (startDate øvelse)) vi = true /\
        In v (Verv_objects db_eksempel) /\ verv_pk v = vi_verv vi /\
        verv_navn v = "Permisjon" /\
        verv_kor v = hendelse_instance_kor øvelse) /\
  (forall k, hendelse_instance_kor øvelse = Some (kor_pk k) ->
             contains (getInstancesForKor db_eksempel mMedlem [k]) medlem_M).
Proof.
  apply (X18_Hendelse_medlemmer_not_on_leave db_eksempel i_dag øvelse
           medlem_M).
  vm_compute. auto.
Defined.

(** X19: the oppmøte [Hendelse.save] creates passes [Oppmøte.clean] for
    every hendelse; and when [Oppmøte.clean] accepts an oppmøte, a fravær
    is set only on a hendelse with a varighet and is 0 or at most the
    varighet, and on an OBLIG hendelse an ankomst other than [KOMMER]
    comes with a melding. *)
Theorem X19_Oppmote_clean_bounds_fravaer :
  (forall h : HendelseInstance,
      Oppmøte_clean (opprettet_oppmøte h) = Ok tt) /\
  (forall self : OppmøteInstance,
      Oppmøte_clean self = Ok tt ->
      (forall f, fravær self = Some f ->
         exists d, varighet (hendelse self) = Some d /\
                   (f = 0 \/ f <= d)%Z) /\
      (kategori (hendelse self) = OBLIG ->
       ankomst self <> Some true -> melding self <> "") /\
      (forall d b, varighet (hendelse self) = Some d -> (0 <= d)%Z ->
                   (forall f, fravær self = Some f -> (0 <= f)%Z) ->
                   minutterBorte self = Some b -> (0 <= b <= d)%Z)).
Proof.
  split.
  - intros h. unfold Oppmøte_clean, opprettet_oppmøte, defaultAnkomst.
    cbn [fravær ankomst melding hendelse bind].
    destruct (kategori h); reflexivity.
  - intros self H. unfold Oppmøte_clean in H.
    assert (Hf : forall f, fravær self = Some f ->
              exists d, varighet (hendelse self) = Some d /\
                        (f = 0 \/ f <= d)%Z).
    { intros f Ef. rewrite Ef in H.
      destruct (varighet (hendelse self)) as [d|]; [ | discriminate H].
      exists d. split; [reflexivity | ]. cbn [bind] in H.
      destruct (Z.eqb_spec f 0) as [-> | Hne]; [left; reflexivity | ].
      cbn [negb andb] in H. rewrite Z.gtb_ltb in H.
      destruct (Z.ltb_spec d f); [discriminate H | right; assumption]. }
    split; [exact Hf | split].
    + intros Hk Ha Hm.
      destruct (fravær self) as [f|]; destruct (varighet (hendelse self));
        try discriminate H; cbn [bind] in H;
        try (destruct (negb (Z.eqb f 0) && _); [discriminate H | ]);
        cbn [bind] in H; unfold defaultAnkomst in H;
        rewrite Hk, Hm in H; cbn [String.eqb andb] in H;
        destruct (ankomst self) as [[|]|]; try congruence;
        discriminate H.
    + intros d b Hd Hpos Hfpos Hb. unfold minutterBorte in Hb.
      destruct (fravær self) as [f|] eqn:Ef.
      * injection Hb as <-. destruct (Hf f eq_refl) as [d' [Hd' Hle]].
        rewrite Hd in Hd'. injection Hd' as <-.
        specialize (Hfpos f eq_refl). lia.
      * rewrite Hd in Hb. injection Hb as <-. lia.
Qed.

(** ** [orderStemmegruppeVerv] and [groupBy] *)

Lemma is12_inv (c : ascii) :
  is12 c = true -> c = "1"%char \/ c = "2"%char.
Proof.
  unfold is12. intros H. apply orb_true_iff in H as [H | H];
    apply Ascii.eqb_eq in H; auto.
Qed.

Lemma isSATB_inv (c : ascii) :
  isSATB c = true ->
  c = "S"%char \/ c = "A"%char \/ c = "T"%char \/ c = "B"%char.
Proof.
  unfold isSATB. intros H. repeat (apply orb_true_iff in H as [H | H]);
    apply Ascii.eqb_eq in H; auto.
Qed.

Lemma atEnd_inv (s : string) :
  atEnd s = true -> s = "" \/ s = String "010" "".
Proof.
  destruct s as [|c [|c' s']]; simpl; intros H; try discriminate H; auto.
  apply Ascii.eqb_eq in H. subst c. auto.
Qed.

Lemma Case_inv (ordering : list (string * nat)) (default : nat)
    (navn : string) :
  (exists n, In (navn, n) ordering /\ Case ordering default navn = n) \/
  Case ordering default navn = default.
Proof.
  unfold Case. destruct (List.find _ ordering) as [[k n]|] eqn:E.
  - left. apply find_some in E as [Hin Hk]. apply String.eqb_eq in Hk.
    simpl in Hk. subst k. exists n. auto.
  - right. reflexivity.
Qed.

Lemma er_stemmegruppenavnb_spec (navn : string) :
  er_stemmegruppenavnb navn = true <-> er_stemmegruppenavn navn.
Proof.
  unfold er_stemmegruppenavn. split.
  - destruct navn as [|a [|b [|c [|d r]]]]; simpl; intros H;
      try discriminate H.
    + apply andb_true_iff in H as [Ha Hb]. left. exists a, b. auto.
    + apply andb_true_iff in H as [H Hc]. apply andb_true_iff in H as [Ha Hb].
      right. exists a, b, c. auto.
  - intros [[y [l [Hy [Hl ->]]]] | [x [y [l [Hx [Hy [Hl ->]]]]]]]; simpl.
    + rewrite Hy, Hl. reflexivity.
    + rewrite Hx, Hy, Hl. reflexivity.
Qed.

Lemma orderStemmegruppeVerv_cases (navn : string) :
  (exists n, In (navn, n)
               (List.app (fst orderStemmegruppeVerv_ordering)
                  [("ukjentStemmegruppe",
                    snd orderStemmegruppeVerv_ordering)]) /\
             orderStemmegruppeVerv navn = n) \/
  orderStemmegruppeVerv navn = 25.
Proof.
  unfold orderStemmegruppeVerv. cbv zeta.
  destruct (Case_inv
              (List.app (fst orderStemmegruppeVerv_ordering)
                 [("ukjentStemmegruppe",
                   snd orderStemmegruppeVerv_ordering)])
              (snd orderStemmegruppeVerv_ordering + 1) navn)
    as [H | H]; [left; exact H | right; exact H].
Qed.

(** What every clause of the [Case] satisfies. *)
Lemma orderStemmegruppeVerv_clauses (navn : string) (n : nat) :
  In (navn, n)
     (List.app (fst orderStemmegruppeVerv_ordering)
        [("ukjentStemmegruppe", snd orderStemmegruppeVerv_ordering)]) ->
  n <= 24 /\
  (n < 24 -> er_stemmegruppenavnb navn = true /\
             stemmegruppeVervRegex navn = true /\
             stemmegruppeVervRegex (navn ++ String "010" "")%string = true) /\
  (n = 24 -> navn = "ukjentStemmegruppe").
Proof.
  intros Hin.
  assert (Hall :
    forallb (fun w : string * nat =>
        Nat.leb (snd w) 24 &&
        (if Nat.ltb (snd w) 24
         then er_stemmegruppenavnb (fst w) &&
              stemmegruppeVervRegex (fst w) &&
              stemmegruppeVervRegex (fst w ++ String "010" "")%string
         else String.eqb (fst w) "ukjentStemmegruppe"))
      (List.app (fst orderStemmegruppeVerv_ordering)
         [("ukjentStemmegruppe", snd orderStemmegruppeVerv_ordering)])
    = true) by (vm_compute; reflexivity).
  rewrite forallb_forall in Hall. specialize (Hall _ Hin). simpl in Hall.
  apply andb_true_iff in Hall as [Hle Hall]. apply Nat.leb_le in Hle.
  split; [exact Hle | ]. destruct (Nat.ltb_spec n 24) as [Hlt | Hge].
  - split; [ | lia]. intros _.
    apply andb_true_iff in Hall as [Hall H3].
    apply andb_true_iff in Hall as [H1 H2]. auto.
  - split; [lia | ]. intros _. apply String.eqb_eq in Hall. exact Hall.
Qed.

Lemma NoDup_snd_inj {A B} (l : list (A * B)) (a a' : A) (b : B) :
  List.NoDup (List.map snd l) -> In (a, b) l -> In (a', b) l -> a = a'.
Proof.
  induction l as [|[k v] l IH]; simpl; intros Hnd H1 H2; [destruct H1 | ].
  apply List.NoDup_cons_iff in Hnd as [Hnotin Hnd].
  destruct H1 as [H1 | H1], H2 as [H2 | H2].
  - congruence.
  - injection H1 as -> ->. exfalso. apply Hnotin.
    apply (in_map snd) in H2. exact H2.
  - injection H2 as -> ->. exfalso. apply Hnotin.
    apply (in_map snd) in H1. exact H1.
  - apply IH; assumption.
Qed.

Lemma orderStemmegruppeVerv_ordering_NoDup :
  List.NoDup
    (List.map snd
       (List.app (fst orderStemmegruppeVerv_ordering)
          [("ukjentStemmegruppe", snd orderStemmegruppeVerv_ordering)])).
Proof.
  assert (E : List.map snd
       (List.app (fst orderStemmegruppeVerv_ordering)
          [("ukjentStemmegruppe", snd orderStemmegruppeVerv_ordering)])
     = List.seq 0 25) by (vm_compute; reflexivity).
  rewrite E. apply List.seq_NoDup.
Qed.

Lemma er_stemmegruppenavn_rank (navn : string) :
  er_stemmegruppenavn navn -> orderStemmegruppeVerv navn < 24.
Proof.
  intros [[y [l [Hy [Hl ->]]]] | [x [y [l [Hx [Hy [Hl ->]]]]]]].
  - apply is12_inv in Hy. apply isSATB_inv in Hl.
    destruct Hy as [-> | ->]; destruct Hl as [-> | [-> | [-> | ->]]];
      apply Nat.ltb_lt; vm_compute; reflexivity.
  - apply is12_inv in Hx. apply is12_inv in Hy. apply isSATB_inv in Hl.
    destruct Hx as [-> | ->]; destruct Hy as [-> | ->];
      destruct Hl as [-> | [-> | [-> | ->]]];
      apply Nat.ltb_lt; vm_compute; reflexivity.
Qed.

Lemma rank_er_stemmegruppenavn (navn : string) :
  orderStemmegruppeVerv navn < 24 ->
  er_stemmegruppenavn navn /\ stemmegruppeVervRegex navn = true /\
  stemmegruppeVervRegex (navn ++ String "010" "")%string = true.
Proof.
  intros Hlt.
  destruct (orderStemmegruppeVerv_cases navn) as [[n [Hin Hn]] | Hn];
    [ | lia].
  rewrite Hn in Hlt.
  destruct (orderStemmegruppeVerv_clauses _ _ Hin) as [_ [H _]].
  destruct (H Hlt) as [H1 [H2 H3]].
  apply er_stemmegruppenavnb_spec in H1. auto.
Qed.

Lemma stemmegruppeVervRegex_inv (navn : string) :
  stemmegruppeVervRegex navn = true ->
  exists n, er_stemmegruppenavn n /\
            (navn = n \/ navn = (n ++ String "010" "")%string).
Proof.
  intros H. destruct navn as [|a [|b rest]]; try discriminate H.
  simpl in H. apply andb_true_iff in H as [Ha H].
  apply orb_true_iff in H as [H | H].
  - apply andb_true_iff in H as [Hb He]. apply atEnd_inv in He.
    exists (String a (String b "")). split.
    + left. exists a, b. auto.
    + destruct He as [-> | ->]; [left | right]; reflexivity.
  - destruct rest as [|c rest']; [discriminate H | ].
    apply andb_true_iff in H as [H He]. apply andb_true_iff in H as [Hb Hc].
    apply atEnd_inv in He.
    exists (String a (String b (String c ""))). split.
    + right. exists a, b, c. auto.
    + destruct He as [-> | ->]; [left | right]; reflexivity.
Qed.

(** X20: [orderStemmegruppeVerv] ranks below 24 exactly the names made of
    one or two of the digits 1 and 2 and one of the letters S, A, T, B, and
    gives different names different ranks; [stemmegruppeVervRegex] accepts
    exactly these names and these names followed by a newline;
    [ukjentStemmegruppe] alone has rank 24 and every other name rank 25. *)
Theorem X20_orderStemmegruppeVerv_ranks_the_regex :
  forall navn : string,
    (orderStemmegruppeVerv navn < 24 <-> er_stemmegruppenavn navn) /\
    (stemmegruppeVervRegex navn = true <->
     orderStemmegruppeVerv navn < 24 \/
     exists n, navn = (n ++ String "010" "")%string /\
               orderStemmegruppeVerv n < 24) /\
    (orderStemmegruppeVerv navn = 24 <-> navn = "ukjentStemmegruppe") /\
    orderStemmegruppeVerv navn <= 25 /\
    (forall navn', orderStemmegruppeVerv navn < 25 ->
                   orderStemmegruppeVerv navn' = orderStemmegruppeVerv navn ->
                   navn' = navn).
Proof.
  intros navn. split; [ | split; [ | split; [ | split]]].
  - split.
    + intros H. apply rank_er_stemmegruppenavn in H. tauto.
    + apply er_stemmegruppenavn_rank.
  - split.
    + intros H. apply stemmegruppeVervRegex_inv in H as [n [Hn [-> | ->]]].
      * left. apply er_stemmegruppenavn_rank. exact Hn.
      * right. exists n. split; [reflexivity | ].
        apply er_stemmegruppenavn_rank. exact Hn.
    + intros [H | [n [-> H]]]; apply rank_er_stemmegruppenavn in H; tauto.
  - split.
    + intros H24.
      destruct (orderStemmegruppeVerv_cases navn) as [[n [Hin Hn]] | Hn];
        [ | lia].
      rewrite Hn in H24.
      destruct (orderStemmegruppeVerv_clauses _ _ Hin) as [_ [_ H]].
      exact (H H24).
    + intros ->. vm_compute. reflexivity.
  - destruct (orderStemmegruppeVerv_cases navn) as [[n [Hin Hn]] | Hn];
      [ | lia].
    destruct (orderStemmegruppeVerv_clauses _ _ Hin) as [H _]. lia.
  - intros navn' Hlt Heq.
    destruct (orderStemmegruppeVerv_cases navn) as [[n [Hin Hn]] | Hn];
      [ | lia].
    destruct (orderStemmegruppeVerv_cases navn') as [[n' [Hin' Hn']] | Hn'];
      [ | lia].
    rewrite Hn in Heq. rewrite Hn' in Heq. subst n'.
    exact (NoDup_snd_inj _ _ _ _ orderStemmegruppeVerv_ordering_NoDup
             Hin' Hin).
Qed.

Lemma groups_get_setdefault_append {A} (groups : list (string * list A))
    (key : string) (obj : A) (k : string) :
  groups_get (setdefault_append groups key obj) k =
  if String.eqb key k
  then Some (match groups_get groups key with
             | Some g => List.app g [obj]
             | None => [obj]
             end)
  else groups_get groups k.
Proof.
  induction groups as [|[k0 g0] rest IH]; simpl.
  - reflexivity.
  - destruct (String.eqb_spec k0 key) as [-> | Hne]; simpl.
    + destruct (String.eqb key k); reflexivity.
    + rewrite IH. destruct (String.eqb_spec key k) as [-> | Hne'].
      * destruct (String.eqb_spec k0 k) as [-> | _]; [congruence | ].
        reflexivity.
      * reflexivity.
Qed.

Lemma keys_setdefault_append {A} (groups : list (string * list A))
    (key : string) (obj : A) (k : string) :
  In k (List.map fst (setdefault_append groups key obj)) <->
  In k (List.map fst groups) \/ k = key.
Proof.
  induction groups as [|[k0 g0] rest IH]; simpl.
  - intuition congruence.
  - destruct (String.eqb_spec k0 key) as [-> | Hne]; simpl.
    + intuition congruence.
    + rewrite IH. tauto.
Qed.

Lemma NoDup_setdefault_append {A} (groups : list (string * list A))
    (key : string) (obj : A) :
  List.NoDup (List.map fst groups) ->
  List.NoDup (List.map fst (setdefault_append groups key obj)).
Proof.
  induction groups as [|[k0 g0] rest IH]; simpl; intros Hnd.
  - constructor; [intros [] | constructor].
  - apply List.NoDup_cons_iff in Hnd as [Hnotin Hnd].
    destruct (String.eqb_spec k0 key) as [-> | Hne]; simpl.
    + constructor; assumption.
    + constructor; [ | apply IH; exact Hnd].
      rewrite keys_setdefault_append. intros [H | H]; [tauto | congruence].
Qed.

Lemma groups_get_In {A} (groups : list (string * list A)) (k : string)
    (g : list A) :
  List.NoDup (List.map fst groups) ->
  (In (k, g) groups <-> groups_get groups k = Some g).
Proof.
  induction groups as [|[k0 g0] rest IH]; simpl; intros Hnd.
  - split; [intros [] | discriminate].
  - apply List.NoDup_cons_iff in Hnd as [Hnotin Hnd].
    destruct (String.eqb_spec k0 k) as [-> | Hne].
    + split.
      * intros [H | H]; [congruence | ]. exfalso. apply Hnotin.
        apply (in_map fst) in H. exact H.
      * intros H. left. congruence.
    + rewrite <- (IH Hnd). split.
      * intros [H | H]; [congruence | exact H].
      * auto.
Qed.

Lemma groupBy_snoc {A} (queryset : list A) (prop : A -> string) (obj : A) :
  groupBy (List.app queryset [obj]) prop =
  setdefault_append (groupBy queryset prop) (prop obj) obj.
Proof. unfold groupBy. rewrite fold_left_app. reflexivity. Qed.

Lemma groupBy_NoDup {A} (queryset : list A) (prop : A -> string) :
  List.NoDup (List.map fst (groupBy queryset prop)).
Proof.
  induction queryset as [|obj queryset IH] using rev_ind.
  - constructor.
  - rewrite groupBy_snoc. apply NoDup_setdefault_append. exact IH.
Qed.

Lemma groups_get_groupBy {A} (queryset : list A) (prop : A -> string)
    (k : string) :
  groups_get (groupBy queryset prop) k =
  match List.filter (fun obj => String.eqb (prop obj) k) queryset with
  | [] => None
  | g => Some g
  end.
Proof.
  induction queryset as [|obj queryset IH] using rev_ind.
  - reflexivity.
  - rewrite groupBy_snoc, groups_get_setdefault_append, List.filter_app.
    cbn [List.filter].
    destruct (String.eqb_spec (prop obj) k) as [<- | Hne].
    + rewrite IH.
      destruct (List.filter _ queryset) as [|o g]; reflexivity.
    + rewrite IH, app_nil_r. reflexivity.
Qed.

(** X21: [groupBy] returns a dict (no key twice) whose groups are exactly
    the non-empty classes of the queryset under [prop]: the group of a key
    holds the objects with that key, each once, in the queryset's order. *)
Theorem X21_groupBy_groups_are_the_classes :
  forall (A : Type) (queryset : list A) (prop : A -> string),
    List.NoDup (List.map fst (groupBy queryset prop)) /\
    forall (k : string) (g : list A),
      In (k, g) (groupBy queryset prop) <->
      g <> [] /\
      g = List.filter (fun obj => String.eqb (prop obj) k) queryset.
Proof.
  intros A queryset prop. split; [apply groupBy_NoDup | ].
  intros k g. rewrite (groups_get_In _ _ _ (groupBy_NoDup queryset prop)).
  rewrite groups_get_groupBy.
  destruct (List.filter _ queryset) as [|o r] eqn:E.
  - split; [discriminate | ]. intros [Hne ->]. congruence.
  - split.
    + intros H. injection H as <-. split; [discriminate | reflexivity].
    + intros [_ ->]. reflexivity.
Qed.

(** ** The line splitting of [generateICal] *)

Lemma generateICal_loop_step_long {Char : Type} (space : Char) (fuel : nat)
    (done rest : list (list Char)) (line : list Char) :
  75 < List.length line ->
  generateICal_loop space (S fuel) (List.app done (line :: rest))
    (List.length done) =
  generateICal_loop space fuel
    (List.app (List.app done [take 75 line])
       ((space :: drop 75 line) :: rest))
    (List.length (List.app done [take 75 line])).
Proof.
  intros Hlong. cbn [generateICal_loop].
  assert (Hlt : Nat.ltb (List.length done)
                  (List.length (List.app done (line :: rest))) = true).
  { apply Nat.ltb_lt. rewrite List.length_app. simpl. lia. }
  rewrite Hlt.
  rewrite (list_lookup_middle done rest line (List.length done) eq_refl).
  apply Nat.ltb_lt in Hlong. rewrite Hlong. cbv zeta.
  f_equal.
  - replace (List.app done (line :: rest))
      with (List.app (List.app done [line]) rest)
      by (rewrite <- List.app_assoc; reflexivity).
    rewrite (take_app_length' (List.app done [line]) rest)
      by (rewrite List.length_app; simpl; lia).
    rewrite (drop_app_length' (List.app done [line]) rest)
      by (rewrite List.length_app; simpl; lia).
    rewrite <- List.app_assoc. cbn [List.app].
    rewrite (insert_app_r_alt done _ (List.length done)) by lia.
    rewrite Nat.sub_diag. cbn [insert list_insert].
    rewrite <- List.app_assoc. reflexivity.
  - rewrite List.length_app. simpl. reflexivity.
Qed.

Lemma generateICal_loop_step_short {Char : Type} (space : Char) (fuel : nat)
    (done rest : list (list Char)) (line : list Char) :
  List.length line <= 75 ->
  generateICal_loop space (S fuel) (List.app done (line :: rest))
    (List.length done) =
  generateICal_loop space fuel (List.app (List.app done [line]) rest)
    (List.length (List.app done [line])).
Proof.
  intros Hshort. cbn [generateICal_loop].
  assert (Hlt : Nat.ltb (List.length done)
                  (List.length (List.app done (line :: rest))) = true).
  { apply Nat.ltb_lt. rewrite List.length_app. simpl. lia. }
  rewrite Hlt.
  rewrite (list_lookup_middle done rest line (List.length done) eq_refl).
  assert (Hge : Nat.ltb 75 (List.length line) = false)
    by (apply Nat.ltb_ge; exact Hshort).
  rewrite Hge. f_equal.
  - rewrite <- List.app_assoc. reflexivity.
  - rewrite List.length_app. simpl. reflexivity.
Qed.

(** The iterations spent on one line of the input. *)
Lemma generateICal_loop_line {Char : Type} (space : Char) (n : nat) :
  forall (line : list Char) (done rest : list (list Char)),
    List.length line <= n ->
    exists (linjer : list (list Char)) (k : nat),
      delt_linje space line linjer /\
      List.Forall (fun s => List.length s <= 75) linjer /\
      forall fuel,
        generateICal_loop space (k + fuel) (List.app done (line :: rest))
          (List.length done) =
        generateICal_loop space fuel (List.app (List.app done linjer) rest)
          (List.length (List.app done linjer)).
Proof.
  induction n as [|n IH]; intros line done rest Hn.
  - exists [line], 1. split; [ | split].
    + exists []. destruct line; [ | simpl in Hn; lia].
      repeat split; constructor.
    + constructor; [lia | constructor].
    + intros fuel. apply generateICal_loop_step_short. lia.
  - destruct (Nat.le_gt_cases (List.length line) 75) as [Hshort | Hlong].
    + exists [line], 1. split; [ | split].
      * exists []. rewrite (take_ge line 75 Hshort). cbn [List.concat List.map].
        rewrite List.app_nil_r. repeat split; constructor.
      * constructor; [exact Hshort | constructor].
      * intros fuel. apply generateICal_loop_step_short. exact Hshort.
    + destruct (IH (space :: drop 75 line)
                  (List.app done [take 75 line]) rest)
        as [linjer [k [[cs [Hl [Hc Hcs]]] [Hall Hloop]]]].
      { cbn [List.length]. rewrite length_drop. lia. }
      assert (Ht : take 75 (space :: drop 75 line)
                   = space :: take 74 (drop 75 line)) by reflexivity.
      rewrite Ht in Hl, Hc. cbn [List.app] in Hc. injection Hc as Hc.
      exists (take 75 line :: linjer), (S k). split; [ | split].
      * exists (take 74 (drop 75 line) :: cs). split; [ | split].
        -- rewrite Hl. reflexivity.
        -- cbn [List.concat]. rewrite <- Hc. symmetry. apply take_drop.
        -- constructor; [ | exact Hcs]. rewrite length_take, length_drop. lia.
      * constructor; [rewrite length_take; lia | exact Hall].
      * intros fuel. cbn [Nat.add].
        rewrite generateICal_loop_step_long by exact Hlong.
        rewrite Hloop. rewrite <- !List.app_assoc. reflexivity.
Qed.

Lemma generateICal_loop_lines {Char : Type} (space : Char) :
  forall (todo done : list (list Char)),
    exists (chunks : list (list (list Char))) (k : nat),
      List.Forall2 (delt_linje space) todo chunks /\
      List.Forall (fun s => List.length s <= 75) (List.concat chunks) /\
      forall fuel,
        generateICal_loop space (k + S fuel) (List.app done todo)
          (List.length done) =
        Some (List.app done (List.concat chunks)).
Proof.
  induction todo as [|line todo IH]; intros done.
  - exists [], 0. split; [constructor | split; [constructor | ]].
    intros fuel. cbn [Nat.add generateICal_loop List.concat].
    rewrite List.app_nil_r, Nat.ltb_irrefl. reflexivity.
  - destruct (generateICal_loop_line space (List.length line) line done todo
                (Nat.le_refl _))
      as [linjer [k [Hd [Hall Hloop]]]].
    destruct (IH (List.app done linjer)) as [chunks [k' [H2 [Hall' Hrest]]]].
    exists (linjer :: chunks), (k + k'). split; [ | split].
    + constructor; assumption.
    + cbn [List.concat]. apply List.Forall_app. split; assumption.
    + intros fuel. rewrite <- Nat.add_assoc, Hloop, Hrest.
      cbn [List.concat]. rewrite List.app_assoc. reflexivity.
Qed.

(** X22: the loop of [generateICal] that splits long lines terminates on
    every list of lines; the list it leaves has no line longer than 75
    characters, and is the input with each line replaced by its first 75
    characters followed by the rest in pieces of 1 to 74 characters, each
    behind a space on a line of its own: dropping these spaces and joining
    gives the line back, and a line of at most 75 characters is kept as
    it is. *)
Theorem X22_generateICal_lines_at_most_75 :
  forall (Char : Type) (space : Char) (iCalLines : list (list Char)),
  exists (chunks : list (list (list Char))) (fuel0 : nat),
    (forall fuel, fuel0 <= fuel ->
       generateICal_loop space fuel iCalLines 0
       = Some (List.concat chunks)) /\
    List.Forall (fun s => List.length s <= 75) (List.concat chunks) /\
    List.Forall2 (delt_linje space) iCalLines chunks /\
    List.Forall2 (fun line linjer =>
                    List.length line <= 75 -> linjer = [line])
      iCalLines chunks.
Proof.
  intros Char space iCalLines.
  destruct (generateICal_loop_lines space iCalLines [])
    as [chunks [k [H2 [Hall Hloop]]]].
  exists chunks, (k + 1). split; [ | split; [exact Hall | split]].
  - intros fuel Hfuel. replace fuel with (k + S (fuel - k - 1)) by lia.
    exact (Hloop (fuel - k - 1)).
  - exact H2.
  - clear Hloop Hall. induction H2 as [|line linjer ls cs Hd H2 IH];
      constructor; [ | exact IH].
    intros Hshort. destruct Hd as [ps [-> [Hline Hps]]].
    rewrite (take_ge line 75 Hshort) in *.
    assert (Hnil : List.concat ps = []).
    { apply (f_equal (@List.length Char)) in Hline.
      rewrite List.length_app in Hline.
      destruct (List.concat ps); [reflexivity | simpl in Hline; lia]. }
    destruct ps as [|p ps']; [reflexivity | ].
    apply List.Forall_cons_iff in Hps as [Hp _].
    cbn [List.concat] in Hnil. destruct p; [simpl in Hp; lia | ].
    discriminate Hnil.
Qed.

(** ** [saveAllInPeriod] *)

Lemma fold_left_min_spec (r : list Z) (x : Z) :
  (fold_left Z.min r x = x \/ In (fold_left Z.min r x) r) /\
  (fold_left Z.min r x <= x)%Z /\
  (forall y, In y r -> (fold_left Z.min r x <= y)%Z).
Proof.
  revert x. induction r as [|a r IH]; intros x; cbn [fold_left].
  - split; [left; reflexivity | split; [lia | intros y []]].
  - destruct (IH (Z.min x a)) as [H1 [H2 H3]]. split; [ | split].
    + destruct H1 as [H1 | H1]; [ | right; right; exact H1].
      rewrite H1. destruct (Z.min_spec x a) as [[_ E] | [_ E]]; rewrite E;
        [left; reflexivity | right; left; reflexivity].
    + lia.
    + intros y [<- | Hy]; [lia | apply H3; exact Hy].
Qed.

Lemma fold_left_max_spec (r : list Z) (x : Z) :
  (fold_left Z.max r x = x \/ In (fold_left Z.max r x) r) /\
  (x <= fold_left Z.max r x)%Z /\
  (forall y, In y r -> (y <= fold_left Z.max r x)%Z).
Proof.
  revert x. induction r as [|a r IH]; intros x; cbn [fold_left].
  - split; [left; reflexivity | split; [lia | intros y []]].
  - destruct (IH (Z.max x a)) as [H1 [H2 H3]]. split; [ | split].
    + destruct H1 as [H1 | H1]; [ | right; right; exact H1].
      rewrite H1. destruct (Z.max_spec x a) as [[_ E] | [_ E]]; rewrite E;
        [right; left; reflexivity | left; reflexivity].
    + lia.
    + intros y [<- | Hy]; [lia | apply H3; exact Hy].
Qed.

Lemma py_min_Some (l : list Z) (m : Z) :
  py_min l = Some m -> In m l /\ forall y, In y l -> (m <= y)%Z.
Proof.
  destruct l as [|x r]; [discriminate | ]. cbn [py_min]. intros H.
  injection H as <-. destruct (fold_left_min_spec r x) as [H1 [H2 H3]].
  split.
  - destruct H1 as [-> | H1]; [left; reflexivity | right; exact H1].
  - intros y [<- | Hy]; [exact H2 | apply H3; exact Hy].
Qed.

Lemma py_max_Some (l : list Z) (m : Z) :
  py_max l = Some m -> In m l /\ forall y, In y l -> (y <= m)%Z.
Proof.
  destruct l as [|x r]; [discriminate | ]. cbn [py_max]. intros H.
  injection H as <-. destruct (fold_left_max_spec r x) as [H1 [H2 H3]].
  split.
  - destruct H1 as [-> | H1]; [left; reflexivity | right; exact H1].
  - intros y [<- | Hy]; [exact H2 | apply H3; exact Hy].
Qed.

Lemma In_datesWithoutNone (dates : list (option date)) (d : date) :
  In d (datesWithoutNone dates) <-> In (Some d) dates.
Proof.
  unfold datesWithoutNone. induction dates as [|[x|] dates IH]; simpl.
  - tauto.
  - rewrite IH. split; intros [H | H]; auto; left; congruence.
  - rewrite IH. split; [auto | ]. intros [H | H]; [discriminate H | exact H].
Qed.

Lemma existsb_not_before (dates : list (option date)) (lo d : date) :
  In lo (datesWithoutNone dates) ->
  (forall y, In y (datesWithoutNone dates) -> (lo <= y)%Z) ->
  existsb (fun x => match x with Some x => Z.leb x d | None => false end)
    dates = Z.geb d lo.
Proof.
  intros Hin Hmin. apply Bool.eq_iff_eq_true.
  rewrite existsb_exists, Z.geb_le. split.
  - intros [[x|] [Hx Hle]]; [ | discriminate Hle].
    apply Z.leb_le in Hle. apply In_datesWithoutNone in Hx.
    specialize (Hmin x Hx). lia.
  - intros Hle. exists (Some lo). split.
    + apply In_datesWithoutNone. exact Hin.
    + apply Z.leb_le. exact Hle.
Qed.

Lemma existsb_not_after (dates : list (option date)) (hi d : date) :
  In hi (datesWithoutNone dates) ->
  (forall y, In y (datesWithoutNone dates) -> (y <= hi)%Z) ->
  existsb (fun x => match x with Some x => Z.leb d x | None => false end)
    dates = Z.leb d hi.
Proof.
  intros Hin Hmax. apply Bool.eq_iff_eq_true.
  rewrite existsb_exists, Z.leb_le. split.
  - intros [[x|] [Hx Hle]]; [ | discriminate Hle].
    apply Z.leb_le in Hle. apply In_datesWithoutNone in Hx.
    specialize (Hmax x Hx). lia.
  - intros Hle. exists (Some hi). split.
    + apply In_datesWithoutNone. exact Hin.
    + apply Z.leb_le. exact Hle.
Qed.

Lemma filter_ext_bool {A} (f g : A -> bool) (l : list A) :
  (forall x, f x = g x) -> List.filter f l = List.filter g l.
Proof.
  intros H. induction l as [|x l IH]; simpl; [reflexivity | ].
  rewrite H, IH. reflexivity.
Qed.

(** [saveAllInPeriod] in one equation. *)
Lemma saveAllInPeriod_spec (self : list HendelseInstance)
    (dates : list (option date)) :
  saveAllInPeriod self dates =
  match dates, datesWithoutNone dates with
  | _ :: _, [] => None
  | _, _ =>
      Some (List.filter (fun h => i_perioden dates (startDate h)) self)
  end.
Proof.
  unfold saveAllInPeriod. destruct dates as [|d0 dates'] eqn:Ed.
  - cbn. f_equal. induction self as [|h self IH]; [reflexivity | exact IH].
  - rewrite <- Ed. assert (Hlen : Nat.ltb 0 (List.length dates) = true).
    { rewrite Ed. reflexivity. }
    rewrite Hlen.
    destruct (existsb (fun d => match d with None => true | Some _ => false end)
                dates) eqn:Hnone.
    + destruct (py_min (datesWithoutNone dates)) as [lo|] eqn:Hmin.
      * destruct (py_min_Some _ _ Hmin) as [Hin Hle].
        destruct (datesWithoutNone dates) as [|x r] eqn:Ew; [destruct Hin | ].
        rewrite <- Ew in Hin, Hle. f_equal. apply filter_ext_bool. intros h.
        unfold i_perioden. rewrite Hnone.
        rewrite (existsb_not_before dates lo (startDate h) Hin Hle).
        rewrite orb_true_l, andb_true_r. reflexivity.
      * destruct (datesWithoutNone dates); [reflexivity | discriminate Hmin].
    + destruct (datesWithoutNone dates) as [|x r] eqn:Ew.
      * exfalso. rewrite Ed in Hnone, Ew. destruct d0 as [x|].
        -- unfold datesWithoutNone in Ew. discriminate Ew.
        -- discriminate Hnone.
      * rewrite <- Ew.
        destruct (py_min (datesWithoutNone dates)) as [lo|] eqn:Hmin;
          [ | rewrite Ew in Hmin; discriminate Hmin].
        destruct (py_max (datesWithoutNone dates)) as [hi|] eqn:Hmax;
          [ | rewrite Ew in Hmax; discriminate Hmax].
        destruct (py_min_Some _ _ Hmin) as [Hin Hle].
        destruct (py_max_Some _ _ Hmax) as [Hin' Hge].
        f_equal. apply filter_ext_bool. intros h.
        unfold i_perioden. rewrite Hnone.
        rewrite (existsb_not_before dates lo (startDate h) Hin Hle).
        rewrite (existsb_not_after dates hi (startDate h) Hin' Hge).
        reflexivity.
Qed.

Lemma existsb_Permutation {A} (f : A -> bool) (l l' : list A) :
  Permutation.Permutation l l' -> existsb f l = existsb f l'.
Proof.
  intros HP. apply Bool.eq_iff_eq_true. rewrite !existsb_exists.
  split; intros [x [Hx Hf]]; exists x; split; try exact Hf.
  - apply (Permutation.Permutation_in _ HP). exact Hx.
  - apply (Permutation.Permutation_in _ (Permutation.Permutation_sym HP)).
    exact Hx.
Qed.

(** X23: [saveAllInPeriod] saves the hendelser of the queryset that start
    in the period its dates span (from the earliest date, to the latest
    unless a date is [None]), whatever the order of the dates; it raises
    (the [ValueError] of [min]) exactly when it is given dates that are all
    [None]; and called with the start and the slutt of a holding, as
    [VervInnehavelse.save] calls it, it saves every hendelse of the
    queryset on whose start date the holding is active. *)
Theorem X23_saveAllInPeriod_covers_the_period :
  forall (self : list HendelseInstance) (dates : list (option date)),
    (saveAllInPeriod self dates = None <->
     dates <> [] /\ forall d, In d dates -> d = None) /\
    (forall hs, saveAllInPeriod self dates = Some hs ->
                hs = List.filter (fun h => i_perioden dates (startDate h))
                       self) /\
    (forall dates', Permutation.Permutation dates dates' ->
                    saveAllInPeriod self dates' = saveAllInPeriod self dates) /\
    (forall (today : date) (vi : VervInnehavelse) (h : HendelseInstance),
        In h self ->
        vervInnehavelseAktiv today (Some (startDate h)) vi = true ->
        exists hs,
          saveAllInPeriod self [Some (start vi); slutt vi] = Some hs /\
          In h hs).
Proof.
  intros self dates. split; [ | split; [ | split]].
  - rewrite saveAllInPeriod_spec. destruct dates as [|d0 dates'] eqn:Ed.
    + split; [discriminate | intros [H _]; congruence].
    + rewrite <- Ed. destruct (datesWithoutNone dates) as [|x r] eqn:Ew.
      * split; [ | reflexivity]. intros _. split; [rewrite Ed; discriminate | ].
        intros [d|] Hd; [ | reflexivity].
        apply In_datesWithoutNone in Hd. rewrite Ew in Hd. destruct Hd.
      * split; [discriminate | ]. intros [_ Hall]. exfalso.
        assert (Hx : In x (datesWithoutNone dates)) by (rewrite Ew; left; auto).
        apply In_datesWithoutNone in Hx. apply Hall in Hx. discriminate Hx.
  - intros hs H. rewrite saveAllInPeriod_spec in H.
    destruct dates; [injection H as <-; reflexivity | ].
    destruct (datesWithoutNone (o :: dates)); [discriminate H | ].
    injection H as <-. reflexivity.
  - intros dates' HP. rewrite !saveAllInPeriod_spec.
    assert (Hext : forall h : HendelseInstance,
              i_perioden dates' (startDate h) = i_perioden dates (startDate h)).
    { intros h. unfold i_perioden.
      rewrite !(existsb_Permutation _ _ _ HP). reflexivity. }
    rewrite (filter_ext_bool _ _ self Hext).
    assert (Hw : datesWithoutNone dates = [] <-> datesWithoutNone dates' = []).
    { split; intros E.
      - destruct (datesWithoutNone dates') as [|x r] eqn:Ew; [reflexivity | ].
        assert (Hx : In x (datesWithoutNone dates')) by (rewrite Ew; left; auto).
        apply In_datesWithoutNone in Hx.
        apply (Permutation.Permutation_in _ (Permutation.Permutation_sym HP))
          in Hx.
        apply In_datesWithoutNone in Hx. rewrite E in Hx. destruct Hx.
      - destruct (datesWithoutNone dates) as [|x r] eqn:Ew; [reflexivity | ].
        assert (Hx : In x (datesWithoutNone dates)) by (rewrite Ew; left; auto).
        apply In_datesWithoutNone in Hx.
        apply (Permutation.Permutation_in _ HP) in Hx.
        apply In_datesWithoutNone in Hx. rewrite E in Hx. destruct Hx. }
    destruct dates as [|d0 r]; destruct dates' as [|d0' r'].
    + reflexivity.
    + apply Permutation.Permutation_nil in HP. discriminate HP.
    + apply Permutation.Permutation_sym, Permutation.Permutation_nil in HP.
      discriminate HP.
    + destruct (datesWithoutNone (d0 :: r)) as [|x w];
        destruct (datesWithoutNone (d0' :: r')) as [|x' w'];
        try reflexivity.
      * destruct Hw as [Hw _]. specialize (Hw eq_refl). discriminate Hw.
      * destruct Hw as [_ Hw]. specialize (Hw eq_refl). discriminate Hw.
  - intros today vi h Hin Hakt. rewrite saveAllInPeriod_spec.
    cbn [datesWithoutNone omap list_omap id]. eexists. split; [reflexivity | ].
    apply filter_In. split; [exact Hin | ].
    unfold vervInnehavelseAktiv in Hakt.
    apply andb_true_iff in Hakt as [H1 H2].
    unfold i_perioden. cbn [existsb]. rewrite H1. cbn [orb andb].
    destruct (slutt vi) as [s|]; [ | reflexivity].
    rewrite Z.geb_leb in H2. rewrite H2. rewrite orb_true_r. reflexivity.
Qed.

(** ** [harRedigerTilgang] *)

Lemma NoDup_map_In_inj {A B} (f : A -> B) (l : list A) (x y : A) :
  List.NoDup (List.map f l) -> In x l -> In y l -> f x = f y -> x = y.
Proof.
  induction l as [|a l IH]; simpl; intros Hnd Hx Hy E; [destruct Hx | ].
  apply List.NoDup_cons_iff in Hnd as [Hnotin Hnd].
  destruct Hx as [-> | Hx], Hy as [-> | Hy].
  - reflexivity.
  - exfalso. apply Hnotin. rewrite E. apply in_map. exact Hy.
  - exfalso. apply Hnotin. rewrite <- E. apply in_map. exact Hx.
  - apply IH; assumption.
Qed.

Lemma contains_filter_by_pk {A} (key : A -> pk) (P : A -> bool)
    (rows : list A) (x : A) :
  In x rows -> List.NoDup (List.map key rows) ->
  pk__in (key x) (List.map key (List.filter P rows)) = P x.
Proof.
  intros Hx Hnd. apply Bool.eq_iff_eq_true. rewrite pk__in_In, in_map_iff.
  split.
  - intros [y [E Hy]]. apply filter_In in Hy as [Hy HP].
    rewrite <- (NoDup_map_In_inj key rows y x Hnd Hy Hx E). exact HP.
  - intros HP. exists x. split; [reflexivity | ].
    apply filter_In. auto.
Qed.

Lemma redigerTilgangQueryset_kor_felt (consts : Consts) (db : DB)
    (today : date) (self : Medlem) (model : Model)
    (f : instance model -> option pk) :
  kor_felt model = Some f -> model <> mVerv ->
  redigerTilgangQueryset consts db today self model None None =
  (navn <- match modelTilTilgangNavn consts !! model_name model with
           | Some navn => Ok navn
           | None => Raise KeyError
           end ;;
   Ok (List.filter (fun x =>
           kor__in (f x)
             (Kor_filter_tilganger__in db
                (filter_navn navn (tilganger db today self))))
         (objects db model))).
Proof.
  intros Hf Hne.
  destruct model; try discriminate Hf; try congruence;
    injection Hf as <-;
    unfold redigerTilgangQueryset, redigerTilgangQueryset_func,
      bareAktiveDecorator, tversAvKor_relatert;
    cbn;
    destruct (modelTilTilgangNavn consts !! _); reflexivity.
Qed.

Lemma kor_felt_har_kor (model : Model) (f : instance model -> option pk) :
  kor_felt model = Some f -> har_kor model = true.
Proof. destruct model; intros H; try discriminate H; reflexivity. Qed.

Lemma redigerTilgangQueryset_Verv (consts : Consts) (db : DB)
    (today : date) (self : Medlem) (qs : list Verv) :
  redigerTilgangQueryset consts db today self mVerv None None = Ok qs ->
  exists navn,
    modelTilTilgangNavn consts !! "Verv" = Some navn /\
    incl qs
      (List.filter (fun v =>
           kor__in (verv_kor v)
             (Kor_filter_tilganger__in db
                (filter_navn navn (tilganger db today self))))
         (Verv_objects db)).
Proof.
  unfold redigerTilgangQueryset, redigerTilgangQueryset_func,
    bareAktiveDecorator, tversAvKor_relatert. cbn.
  destruct (modelTilTilgangNavn consts !! "Verv") as [navn|];
    [ | discriminate]. cbn. intros H. injection H as <-.
  exists navn. split; [reflexivity | ].
  intros v Hv. apply filter_In in Hv as [Hv _]. exact Hv.
Qed.

(** X24: [harRedigerTilgang] treats stored and new instances alike: for a
    model with a foreign key [kor] other than [Verv], a stored instance of
    a choir and a new instance that knows it lands in that choir get the
    same answer (or the same [KeyError]); a stored [Verv] that may be
    edited means a new one of its choir may be created; and a new instance
    that may be created in some choir may be created when its choir is not
    known.  Keys are unique in the table. *)
Theorem X24_harRedigerTilgang_stored_as_new :
  forall (consts : Consts) (db : DB) (today : date) (self : Medlem)
         (model : Model),
    (forall k : Kor,
        harRedigerTilgang consts db today self model None (Some k) = Ok true ->
        harRedigerTilgang consts db today self model None None = Ok true) /\
    (forall (f : instance model -> option pk) (x : instance model) (k : Kor)
            (instance_kor : option Kor),
        kor_felt model = Some f ->
        In x (objects db model) ->
        List.NoDup (List.map (instance_pk model) (objects db model)) ->
        f x = Some (kor_pk k) ->
        (model <> mVerv ->
         harRedigerTilgang consts db today self model
           (Some (instance_pk model x)) instance_kor =
         harRedigerTilgang consts db today self model None (Some k)) /\
        (harRedigerTilgang consts db today self model
           (Some (instance_pk model x)) instance_kor = Ok true ->
         harRedigerTilgang consts db today self model None (Some k)
         = Ok true)).
Proof.
  intros consts db today self model. split.
  - intros k. unfold harRedigerTilgang.
    destruct (negb (har_kor model)); [discriminate | ].
    destruct (modelTilTilgangNavn consts !! model_name model) as [navn|];
      [ | discriminate]. cbn [bind]. intros H. injection H as H.
    f_equal. apply pk__in_In in H. apply in_map_iff in H as [k' [_ Hk']].
    unfold Kor_filter_tilganger__in in Hk'.
    apply filter_In in Hk' as [_ Hk'].
    apply existsb_exists in Hk' as [t [_ Ht]].
    apply andb_true_iff in Ht as [_ Ht]. apply pk__in_In in Ht.
    destruct (filter_navn navn (tilganger db today self));
      [destruct Ht | reflexivity].
  - intros f x k instance_kor Hf Hx Hnd Hkor.
    assert (Hne : model <> mVerv ->
      harRedigerTilgang consts db today self model
        (Some (instance_pk model x)) instance_kor =
      harRedigerTilgang consts db today self model None (Some k)).
    { intros Hne. unfold harRedigerTilgang.
      rewrite (kor_felt_har_kor model f Hf). cbn [negb].
      rewrite (redigerTilgangQueryset_kor_felt _ _ _ _ _ f Hf Hne).
      destruct (modelTilTilgangNavn consts !! model_name model) as [navn|];
        [ | reflexivity]. cbn [bind]. f_equal.
      rewrite (contains_filter_by_pk (instance_pk model) _ _ x Hx Hnd).
      rewrite Hkor. reflexivity. }
    split; [exact Hne | ].
    destruct (Model_eq_dec model mVerv) as [-> | Hne'];
      [ | rewrite (Hne Hne'); auto].
    clear Hne. cbn in Hf. injection Hf as <-.
    unfold harRedigerTilgang.
    destruct (redigerTilgangQueryset consts db today self mVerv None None)
      as [qs|e] eqn:Hq; [ | discriminate]. cbn [bind].
    apply redigerTilgangQueryset_Verv in Hq as [navn [Hnavn Hincl]].
    cbn [model_name har_kor negb]. rewrite Hnavn. cbn [bind].
    intros H. injection H as H. f_equal.
    apply pk__in_In in H. apply in_map_iff in H as [y [E Hy]].
    apply Hincl in Hy. apply filter_In in Hy as [Hy HP].
    cbn [objects instance_pk] in *.
    rewrite (NoDup_map_In_inj verv_pk _ y x Hnd Hy Hx E) in HP.
    rewrite Hkor in HP. exact HP.
Qed.

Lemma X24_witness :
  harRedigerTilgang consts_eksempel db_med_hendelse i_dag medlem_M mHendelse
    (Some 1%positive) None = Ok true /\
  harRedigerTilgang consts_eksempel db_med_hendelse i_dag medlem_M mHendelse
    None (Some TSS) = Ok true.
Proof.
  assert (Hin : In konsert (objects db_med_hendelse mHendelse))
    by (left; reflexivity).
  assert (Hnd : List.NoDup
                  (List.map (instance_pk mHendelse)
                     (objects db_med_hendelse mHendelse)))
    by (repeat constructor; intros []).
  assert (Hne : mHendelse <> mVerv) by discriminate.
  pose proof
    (proj1 (proj2 (X24_harRedigerTilgang_stored_as_new consts_eksempel
                     db_med_hendelse i_dag medlem_M mHendelse)
              hendelse_kor konsert TSS None eq_refl Hin Hnd eq_refl) Hne)
    as E.
  split; [ | vm_compute; reflexivity].
  etransitivity; [exact E | vm_compute; reflexivity].
Defined.
